(** * FasApiCrud: pooled query execution and CRUD handlers

    A shallow embedding of [database.py] (configuration, creation of the
    pool, scoped connection and cursor, [execute_query]) and of [main.py]
    (the employee, client and supplier handlers), with the properties of the
    specification stated over it.

    Python code that raises is embedded in a state-and-exception monad;
    [try] / [except] / [finally] and the two context managers are
    combinators over it.  The MySQL driver and server are not part of the
    repository: every call the code makes on the pool, the connection and
    the cursor is recorded in a trace; the exceptions the driver can raise
    come from a fault plan held in the world; the rows live in a small
    relational store that reads the statement texts the handlers send.

    Left out: the [logger] calls, which neither raise nor change control
    flow; the request-logging middleware and the start-up table check of
    [main.py]; the filtering of a handler's result through its
    [response_model]; concurrency between requests, which are served one at
    a time. *)

From Stdlib Require Import ZArith Ascii String List Bool Lia.
From Stdlib Require Import Floats.SpecFloat.
From stdpp Require Import base strings gmap list.

Local Open Scope Z_scope.
Local Open Scope string_scope.
Local Open Scope list_scope.

(** ** Python values and exceptions *)

(** The values bound to statement parameters and held in columns: [None],
    [int], [str] and [float] (a binary64 value, only ever passed through). *)
Inductive Value :=
| VNone
| VInt (n : Z)
| VStr (s : string)
| VFloat (f : spec_float).

(** The exceptions the code distinguishes.  [MySQLError] stands for
    [mysql.connector.Error] and its subclasses and carries [errno]. *)
Inductive Exn :=
| MySQLError (errno : Z)
| RuntimeError (msg : string)
| ValueError
| HTTPException (status_code : Z) (detail : string)
| OtherError (name : string).

Inductive Result (A : Type) :=
| Ok (a : A)
| Raise (e : Exn).
Arguments Ok {A} a.
Arguments Raise {A} e.

(** ** A state-and-exception monad *)

Definition M (S A : Type) : Type := S -> Result A * S.

Definition ret {S A} (a : A) : M S A := fun s => (Ok a, s).

Definition raise {S A} (e : Exn) : M S A := fun s => (Raise e, s).

Definition bind {S A B} (m : M S A) (k : A -> M S B) : M S B :=
  fun s => match m s with
           | (Ok a, s1) => k a s1
           | (Raise e, s1) => (Raise e, s1)
           end.

Notation "'do' x <- m ; k" := (bind m (fun x => k))
  (at level 10, x name, m at level 100, k at level 200).
Notation "'do' ' pat <- m ; k" := (bind m (fun x => match x with pat => k end))
  (at level 10, pat pattern, m at level 100, k at level 200).

(** [try: body except: handler].  [handler e] is [None] when no [except]
    clause matches [e], which then propagates. *)
Definition try_except {S A} (body : M S A) (handler : Exn -> option (M S A))
  : M S A :=
  fun s => match body s with
           | (Ok a, s1) => (Ok a, s1)
           | (Raise e, s1) =>
               match handler e with
               | Some h => h s1
               | None => (Raise e, s1)
               end
           end.

(** [try: body finally: fin].  The [finally] block runs on every exit; an
    exception it raises replaces the outcome of the body. *)
Definition try_finally {S A} (body : M S A) (fin : M S unit) : M S A :=
  fun s => match body s with
           | (r, s1) =>
               match fin s1 with
               | (Ok _, s2) => (r, s2)
               | (Raise e, s2) => (Raise e, s2)
               end
           end.

(** ** database.py: configuration *)

Record DBConfig := {
  host : string;
  user : string;
  password : string;
  database : string;
  port : Z;
  ssl_disabled : bool;
  pool_size : Z
}.

(** [os.getenv(name, default)] with a string default. *)
Definition getenv (env : gmap string string) (name default : string) : string :=
  match env !! name with
  | Some v => v
  | None => default
  end.

Section Config.

(** Python's built-in [int] applied to a [str]: [None] stands for
    [ValueError]. *)
Variable py_int : string -> option Z.

(** [int(os.getenv(name, default))] with an [int] default: the default is
    already an integer, a value from the environment is parsed. *)
Definition getenv_int (env : gmap string string) (name : string) (default : Z)
  : Result Z :=
  match env !! name with
  | Some v => match py_int v with
              | Some n => Ok n
              | None => Raise ValueError
              end
  | None => Ok default
  end.

(** [DBConfig.__init__] *)
Definition DBConfig_init (env : gmap string string) : Result DBConfig :=
  let host := getenv env "DB_HOST" "bsuwmw1ycddteycis6m7-mysql.services.clever-cloud.com" in
  let user := getenv env "DB_USER" "u2laijuwgrququak" in
  let password := getenv env "DB_PASSWORD" "K7tO7lfFm2i7vXAGHN6U" in
  let database := getenv env "DB_NAME" "bsuwmw1ycddteycis6m7" in
  match getenv_int env "DB_PORT" 3306 with
  | Raise e => Raise e
  | Ok port =>
      let ssl_disabled := String.eqb (getenv env "SSL_DISABLED" "True") "True" in
      match getenv_int env "DB_POOL_SIZE" 3 with
      | Raise e => Raise e
      | Ok pool_size =>
          Ok {| host := host; user := user; password := password;
                database := database; port := port;
                ssl_disabled := ssl_disabled; pool_size := pool_size |}
      end
  end.

End Config.

(** [DBConfig.connection_params] *)
Definition connection_params (self : DBConfig) : gmap string Value :=
  let params : gmap string Value :=
    <["port" := VInt (port self)]>
    (<["database" := VStr (database self)]>
    (<["password" := VStr (password self)]>
    (<["user" := VStr (user self)]>
    (<["host" := VStr (host self)]> ∅)))) in
  if negb (ssl_disabled self)
  then <["ssl_ca" := VStr "/etc/ssl/cert.pem"]> params
  else params.

(** A decimal reading of [int(str)]: optional sign, then ASCII digits. *)
Definition digit_of (c : ascii) : option Z :=
  let n := Z.of_nat (nat_of_ascii c) in
  if Z.leb 48 n && Z.leb n 57 then Some (n - 48) else None.

Fixpoint digits_value (s : string) (acc : Z) : option Z :=
  match s with
  | EmptyString => Some acc
  | String c rest =>
      match digit_of c with
      | Some d => digits_value rest (10 * acc + d)
      | None => None
      end
  end.

Definition int_of_decimal (s : string) : option Z :=
  match s with
  | EmptyString => None
  | String "-" (String c rest) => Z.opp <$> digits_value (String c rest) 0
  | String "+" (String c rest) => digits_value (String c rest) 0
  | _ => digits_value s 0
  end.

(** ** database.py: creating the pool at import time *)

Definition ER_USER_LIMIT_REACHED : Z := 1226.

(** What the code observes of a [MySQLConnectionPool]: its name, its size
    and how many of its connections are waiting in its queue. *)
Record Pool := {
  p_name : string;
  p_size : Z;
  p_free : nat
}.

(** One call of the pool constructor, as the library receives it. *)
Record PoolCall := {
  call_name : string;
  call_size : Z;
  call_params : gmap string Value
}.

Section Startup.

(** Whether the library and the server accept a pool of the given name,
    size and connection parameters: [None] when the pool is built, the
    exception otherwise. *)
Variable pool_ctor : string -> Z -> gmap string Value -> option Exn.

(** [pooling.MySQLConnectionPool(pool_name=..., pool_size=..., **params)];
    the state lists the constructor calls made so far. *)
Definition MySQLConnectionPool (name : string) (size : Z)
    (params : gmap string Value) : M (list PoolCall) Pool :=
  fun calls =>
    let calls' :=
      calls ++ [{| call_name := name; call_size := size; call_params := params |}] in
    match pool_ctor name size params with
    | None => (Ok {| p_name := name; p_size := size; p_free := Z.to_nat size |}, calls')
    | Some e => (Raise e, calls')
    end.

(** The module-level [try] / [except] that assigns [connection_pool]. *)
Definition create_connection_pool (db_config : DBConfig) : M (list PoolCall) Pool :=
  try_except
    (MySQLConnectionPool "fastapi_pool" (pool_size db_config)
       (connection_params db_config))
    (fun err =>
       match err with
       | MySQLError errno =>
           Some
             (if Z.eqb errno ER_USER_LIMIT_REACHED then
                let reduced_size := Z.min 3 (pool_size db_config - 2) in
                try_except
                  (MySQLConnectionPool "fastapi_pool_reduced" reduced_size
                     (connection_params db_config))
                  (fun err2 =>
                     match err2 with
                     | MySQLError _ =>
                         Some (raise (RuntimeError "No se pudo crear el pool de conexiones"))
                     | _ => None
                     end)
              else
                raise (RuntimeError "Error de conexión a la base de datos"))
       | _ => None
       end).

Variable py_int : string -> option Z.

(** Importing [database]: [db_config = DBConfig()], then the pool. *)
Definition import_database (env : gmap string string)
  : M (list PoolCall) (DBConfig * Pool) :=
  match DBConfig_init py_int env with
  | Raise e => raise e
  | Ok db_config =>
      do pool <- create_connection_pool db_config;
      ret (db_config, pool)
  end.

End Startup.

(** ** The backing store

    The MySQL server is outside the repository.  It is modelled as tables of
    rows with an [AUTO_INCREMENT] identifier column, and it understands the
    five statement shapes the handlers send and the one the start-up check
    sends. *)

Definition Row : Type := list (string * Value).

Record Table := {
  t_id_column : string;
  t_columns : list string;
  t_rows : list Row;
  t_auto_increment : Z
}.

(** What a cursor holds after [execute]. *)
Record CursorState := {
  c_rows : list Row;
  c_rowcount : Z;
  c_lastrowid : option Z
}.

Inductive Statement :=
| SelectAll (table : string)
| SelectWhere (table column : string)
| InsertInto (table : string) (columns : list string)
| UpdateWhere (table : string) (columns : list string) (column : string)
| DeleteWhere (table column : string)
| ShowTablesLike (name : string).

(** *** Reading a statement *)

Definition is_punct (c : ascii) : bool :=
  (Ascii.eqb c "(" || Ascii.eqb c ")" || Ascii.eqb c "," || Ascii.eqb c "=")%char.

Definition flush (word : string) (acc : list string) : list string :=
  match word with
  | EmptyString => acc
  | _ => acc ++ [word]
  end.

(** Words are separated by spaces; parentheses, commas and [=] are tokens of
    their own. *)
Fixpoint tokens_from (s : string) (word : string) (acc : list string) : list string :=
  match s with
  | EmptyString => flush word acc
  | String c rest =>
      if Ascii.eqb c " "%char then tokens_from rest EmptyString (flush word acc)
      else if is_punct c then
        tokens_from rest EmptyString (flush word acc ++ [String c EmptyString])
      else tokens_from rest (String.append word (String c EmptyString)) acc
  end.

Definition tokens (s : string) : list string := tokens_from s EmptyString [].

(** [c1 , c2 , ... )] *)
Fixpoint column_list (ts : list string) : option (list string * list string) :=
  match ts with
  | c :: ")" :: rest => Some ([c], rest)
  | c :: "," :: rest =>
      match column_list rest with
      | Some (cs, rest') => Some (c :: cs, rest')
      | None => None
      end
  | _ => None
  end.

(** [c1 = %s , c2 = %s ...] up to [WHERE] *)
Fixpoint assignments (ts : list string) : option (list string * list string) :=
  match ts with
  | c :: "=" :: "%s" :: "WHERE" :: rest => Some ([c], rest)
  | c :: "=" :: "%s" :: "," :: rest =>
      match assignments rest with
      | Some (cs, rest') => Some (c :: cs, rest')
      | None => None
      end
  | _ => None
  end.

(** The text between the quotes of a string literal ['...'] that holds no
    quote of its own. *)
Fixpoint quoted_body (s : string) : option string :=
  match s with
  | EmptyString => None
  | String c rest =>
      if Ascii.eqb c "'"%char then
        match rest with
        | EmptyString => Some EmptyString
        | _ => None
        end
      else String c <$> quoted_body rest
  end.

Definition string_literal (s : string) : option string :=
  match s with
  | String c rest => if Ascii.eqb c "'"%char then quoted_body rest else None
  | EmptyString => None
  end.

(** The backslash, which escapes the next character of a pattern. *)
Definition escape_char : ascii := ascii_of_nat 92.

(** A [LIKE] pattern without [%], [_] or an escape stands for itself. *)
Fixpoint plain_pattern (s : string) : bool :=
  match s with
  | EmptyString => true
  | String c rest =>
      negb (Ascii.eqb c "%" || Ascii.eqb c "_" || Ascii.eqb c escape_char)%char
      && plain_pattern rest
  end.

Definition parse_statement (sql : string) : option Statement :=
  match tokens sql with
  | ["SHOW"; "TABLES"; "LIKE"; pattern] =>
      match string_literal pattern with
      | Some name => if plain_pattern name then Some (ShowTablesLike name) else None
      | None => None
      end
  | ["SELECT"; "*"; "FROM"; t] => Some (SelectAll t)
  | ["SELECT"; "*"; "FROM"; t; "WHERE"; c; "="; "%s"] => Some (SelectWhere t c)
  | ["DELETE"; "FROM"; t; "WHERE"; c; "="; "%s"] => Some (DeleteWhere t c)
  | "INSERT" :: "INTO" :: t :: "(" :: rest =>
      match column_list rest with
      | Some (cols, "VALUES" :: "(" :: rest') =>
          match column_list rest' with
          | Some (holes, []) =>
              if forallb (String.eqb "%s") holes && (length holes =? length cols)%nat
              then Some (InsertInto t cols) else None
          | _ => None
          end
      | _ => None
      end
  | "UPDATE" :: t :: "SET" :: rest =>
      match assignments rest with
      | Some (cols, [c; "="; "%s"]) => Some (UpdateWhere t cols c)
      | _ => None
      end
  | _ => None
  end.

(** *** Running a statement *)

#[global] Instance spec_float_eq_dec : EqDecision spec_float.
Proof. solve_decision. Defined.

#[global] Instance Value_eq_dec : EqDecision Value.
Proof. solve_decision. Defined.

Definition ER_BAD_FIELD_ERROR : Z := 1054.
Definition ER_PARSE_ERROR : Z := 1064.
Definition ER_NO_SUCH_TABLE : Z := 1146.
(** [ProgrammingError] of the connector: the parameters do not fit the
    placeholders. *)
Definition ERR_PARAMETERS : Z := -1.

(** [d.get(k)] and [d[k] = v] on a dictionary kept in insertion order. *)
Fixpoint dict_get {V} (k : string) (d : list (string * V)) : option V :=
  match d with
  | [] => None
  | (k', v) :: rest => if String.eqb k k' then Some v else dict_get k rest
  end.

Fixpoint dict_set {V} (k : string) (v : V) (d : list (string * V)) : list (string * V) :=
  match d with
  | [] => [(k, v)]
  | (k', v') :: rest =>
      if String.eqb k k' then (k', v) :: rest else (k', v') :: dict_set k v rest
  end.

(** SQL [=]: [NULL] equals nothing. *)
Definition sql_eq (a b : Value) : bool :=
  match a, b with
  | VNone, _ | _, VNone => false
  | _, _ => bool_decide (a = b)
  end.

Definition matches (column : string) (v : Value) (r : Row) : bool :=
  match dict_get column r with
  | Some x => sql_eq x v
  | None => false
  end.

Definition data_column (tb : Table) (c : string) : bool :=
  existsb (String.eqb c) (t_columns tb).

Definition where_column (tb : Table) (c : string) : bool :=
  String.eqb c (t_id_column tb) || data_column tb c.

Definition assign (cols : list string) (vals : list Value) (r : Row) : Row :=
  fold_left (fun r' cv => dict_set (fst cv) (snd cv) r') (combine cols vals) r.

Definition with_rows (tb : Table) (rows : list Row) (next : Z) : Table :=
  {| t_id_column := t_id_column tb; t_columns := t_columns tb;
     t_rows := rows; t_auto_increment := next |}.

(** The row an [INSERT] adds: the next identifier of the table, then every
    data column with the value given for it, [NULL] when none is. *)
Definition new_row (tb : Table) (cols : list string) (params : list Value) : Row :=
  let given := combine cols params in
  (t_id_column tb, VInt (t_auto_increment tb))
    :: map (fun c => (c, default VNone (dict_get c given))) (t_columns tb).

(** The one column of the rows [SHOW TABLES LIKE] answers with.  On the
    server its label also carries the name of the schema, which the store
    does not hold; the code only tests whether a row came back. *)
Definition tables_label (name : string) : string :=
  String.append "Tables (" (String.append name ")").

(** The identifier of a row is always assigned by its table: a statement
    that names the identifier column among the columns it writes is outside
    this model and is refused like an unknown column.  [rowcount] after
    [UPDATE] counts the rows whose content changed, as the server reports it
    to the connector by default.  [SHOW TABLES LIKE] with a plain pattern
    answers one row when the table of that name exists and none otherwise. *)
Definition run_statement (st : Statement) (params : list Value)
    (db : gmap string Table) : Result (gmap string Table * CursorState) :=
  match st with
  | SelectAll t =>
      match db !! t with
      | None => Raise (MySQLError ER_NO_SUCH_TABLE)
      | Some tb =>
          match params with
          | [] => Ok (db, {| c_rows := t_rows tb; c_rowcount := -1; c_lastrowid := None |})
          | _ => Raise (MySQLError ERR_PARAMETERS)
          end
      end
  | SelectWhere t c =>
      match db !! t with
      | None => Raise (MySQLError ER_NO_SUCH_TABLE)
      | Some tb =>
          if negb (where_column tb c) then Raise (MySQLError ER_BAD_FIELD_ERROR)
          else match params with
               | [v] => Ok (db, {| c_rows := filter (fun r => matches c v r = true) (t_rows tb);
                                   c_rowcount := -1; c_lastrowid := None |})
               | _ => Raise (MySQLError ERR_PARAMETERS)
               end
      end
  | InsertInto t cols =>
      match db !! t with
      | None => Raise (MySQLError ER_NO_SUCH_TABLE)
      | Some tb =>
          if negb (forallb (data_column tb) cols) then Raise (MySQLError ER_BAD_FIELD_ERROR)
          else if negb (length params =? length cols)%nat then Raise (MySQLError ERR_PARAMETERS)
          else
            let id := t_auto_increment tb in
            Ok (<[t := with_rows tb (t_rows tb ++ [new_row tb cols params]) (id + 1)]> db,
                {| c_rows := []; c_rowcount := 1; c_lastrowid := Some id |})
      end
  | UpdateWhere t cols c =>
      match db !! t with
      | None => Raise (MySQLError ER_NO_SUCH_TABLE)
      | Some tb =>
          if negb (forallb (data_column tb) cols && where_column tb c)
          then Raise (MySQLError ER_BAD_FIELD_ERROR)
          else if negb (length params =? S (length cols))%nat
          then Raise (MySQLError ERR_PARAMETERS)
          else
            let vals := take (length cols) params in
            let key := default VNone (last params) in
            let rewrite (r : Row) : Row :=
              if matches c key r then assign cols vals r else r in
            let changed :=
              filter (fun r => rewrite r ≠ r) (t_rows tb) in
            Ok (<[t := with_rows tb (map rewrite (t_rows tb)) (t_auto_increment tb)]> db,
                {| c_rows := []; c_rowcount := Z.of_nat (length changed);
                   c_lastrowid := None |})
      end
  | DeleteWhere t c =>
      match db !! t with
      | None => Raise (MySQLError ER_NO_SUCH_TABLE)
      | Some tb =>
          if negb (where_column tb c) then Raise (MySQLError ER_BAD_FIELD_ERROR)
          else match params with
               | [v] =>
                   let gone := filter (fun r => matches c v r = true) (t_rows tb) in
                   let kept := filter (fun r => matches c v r = false) (t_rows tb) in
                   Ok (<[t := with_rows tb kept (t_auto_increment tb)]> db,
                       {| c_rows := []; c_rowcount := Z.of_nat (length gone);
                          c_lastrowid := None |})
               | _ => Raise (MySQLError ERR_PARAMETERS)
               end
      end
  | ShowTablesLike name =>
      match params with
      | [] =>
          let found : list Row :=
            match db !! name with
            | Some _ => [[(tables_label name, VStr name)]]
            | None => []
            end in
          Ok (db, {| c_rows := found; c_rowcount := -1; c_lastrowid := None |})
      | _ => Raise (MySQLError ERR_PARAMETERS)
      end
  end.

(** What the server does with the text and the bound parameters it
    receives. *)
Definition server_execute (sql : string) (params : list Value)
    (db : gmap string Table) : Result (gmap string Table * CursorState) :=
  match parse_statement sql with
  | None => Raise (MySQLError ER_PARSE_ERROR)
  | Some st => run_statement st params db
  end.

(** ** The driver as the code sees it *)

(** The calls the code makes on the pool, the connection and the cursor. *)
Inductive Event :=
| EvAcquire
| EvRelease
| EvCursor
| EvExecute (sql : string) (params : list Value)
| EvFetchOne
| EvFetchAll
| EvCommit
| EvCursorClose.

#[global] Instance Event_eq_dec : EqDecision Event.
Proof. solve_decision. Defined.

(** What the driver reports during one request: for each call the exception
    it raises, if any (network, authentication, a lost link, unread
    results...), and what [conn.is_connected()] answers when the connection
    is about to be given back. *)
Record Faults := {
  f_get_connection : option Exn;
  f_cursor : option Exn;
  f_execute : option Exn;
  f_fetch : option Exn;
  f_commit : option Exn;
  f_cursor_close : option Exn;
  f_is_connected : bool
}.

Definition no_faults : Faults :=
  {| f_get_connection := None; f_cursor := None; f_execute := None;
     f_fetch := None; f_commit := None; f_cursor_close := None;
     f_is_connected := true |}.

(** The module globals of [database.py], the server's committed tables, the
    tables as the leased connection sees them inside its transaction, the
    cursor, the faults of the environment and the driver calls made. *)
Record World := {
  db_config : DBConfig;
  connection_pool : option Pool;
  committed : gmap string Table;
  session : gmap string Table;
  cursor_state : CursorState;
  faults : Faults;
  trace : list Event
}.

Definition set_pool (p : option Pool) (w : World) : World :=
  {| db_config := db_config w; connection_pool := p; committed := committed w;
     session := session w; cursor_state := cursor_state w; faults := faults w;
     trace := trace w |}.

Definition set_committed (db : gmap string Table) (w : World) : World :=
  {| db_config := db_config w; connection_pool := connection_pool w; committed := db;
     session := session w; cursor_state := cursor_state w; faults := faults w;
     trace := trace w |}.

Definition set_session (db : gmap string Table) (w : World) : World :=
  {| db_config := db_config w; connection_pool := connection_pool w;
     committed := committed w; session := db; cursor_state := cursor_state w;
     faults := faults w; trace := trace w |}.

Definition set_cursor (c : CursorState) (w : World) : World :=
  {| db_config := db_config w; connection_pool := connection_pool w;
     committed := committed w; session := session w; cursor_state := c;
     faults := faults w; trace := trace w |}.

Definition record (ev : Event) (w : World) : World :=
  {| db_config := db_config w; connection_pool := connection_pool w;
     committed := committed w; session := session w; cursor_state := cursor_state w;
     faults := faults w; trace := trace w ++ [ev] |}.

Definition with_free (p : Pool) (n : nat) : Pool :=
  {| p_name := p_name p; p_size := p_size p; p_free := n |}.

Definition no_cursor : CursorState :=
  {| c_rows := []; c_rowcount := -1; c_lastrowid := None |}.

Inductive Conn := PooledMySQLConnection.
Inductive Cursor := MySQLCursorDict.

Definition ERR_POOL_EXHAUSTED : Z := -1.

(** [connection_pool.get_connection()]: fails when the queue is empty; when
    the connection cannot be brought up the library puts it back and raises;
    otherwise the connection leaves the queue and starts from the committed
    tables. *)
Definition pool_get_connection : M World Conn :=
  fun w =>
    match connection_pool w with
    | None => (Raise (OtherError "AttributeError"), w)
    | Some p =>
        match p_free p with
        | O => (Raise (MySQLError ERR_POOL_EXHAUSTED), w)
        | S n =>
            match f_get_connection (faults w) with
            | Some e => (Raise e, w)
            | None =>
                (Ok PooledMySQLConnection,
                 record EvAcquire
                   (set_session (committed w) (set_pool (Some (with_free p n)) w)))
            end
        end
    end.

(** [conn.is_connected()] *)
Definition is_connected (conn : Conn) : M World bool :=
  fun w => (Ok (f_is_connected (faults w)), w).

(** [conn.close()] on a pooled connection: the session is reset, which
    drops what was not committed, and the connection goes back to the
    queue. *)
Definition conn_close (conn : Conn) : M World unit :=
  fun w =>
    let p' := match connection_pool w with
              | Some p => Some (with_free p (S (p_free p)))
              | None => None
              end in
    (Ok tt, record EvRelease (set_session (committed w) (set_pool p' w))).

(** [conn.cursor(dictionary=True)] *)
Definition conn_cursor (conn : Conn) : M World Cursor :=
  fun w =>
    match f_cursor (faults w) with
    | Some e => (Raise e, record EvCursor w)
    | None => (Ok MySQLCursorDict, record EvCursor (set_cursor no_cursor w))
    end.

(** [cursor.execute(query, params)] *)
Definition cursor_execute (cursor : Cursor) (query : string) (params : list Value)
  : M World unit :=
  fun w =>
    let w1 := record (EvExecute query params) w in
    match f_execute (faults w) with
    | Some e => (Raise e, w1)
    | None =>
        match server_execute query params (session w) with
        | Raise e => (Raise e, w1)
        | Ok (db, c) => (Ok tt, set_cursor c (set_session db w1))
        end
    end.

(** The result values of [execute_query] and of the handlers: a scalar, a
    dictionary or a list. *)
#[warnings="-register-all"]
Inductive PyVal :=
| PScalar (v : Value)
| PDict (items : list (string * PyVal))
| PList (items : list PyVal).

Definition py_row (r : Row) : PyVal :=
  PDict (map (fun kv => (fst kv, PScalar (snd kv))) r).

(** [cursor.fetchone()]: the next row as a dictionary, or [None]. *)
Definition cursor_fetchone (cursor : Cursor) : M World PyVal :=
  fun w =>
    let w1 := record EvFetchOne w in
    match f_fetch (faults w) with
    | Some e => (Raise e, w1)
    | None =>
        let c := cursor_state w in
        match c_rows c with
        | [] => (Ok (PScalar VNone), w1)
        | r :: rest =>
            (Ok (py_row r),
             set_cursor {| c_rows := rest; c_rowcount := c_rowcount c;
                           c_lastrowid := c_lastrowid c |} w1)
        end
    end.

(** [cursor.fetchall()]: the remaining rows, in order. *)
Definition cursor_fetchall (cursor : Cursor) : M World PyVal :=
  fun w =>
    let w1 := record EvFetchAll w in
    match f_fetch (faults w) with
    | Some e => (Raise e, w1)
    | None =>
        let c := cursor_state w in
        (Ok (PList (map py_row (c_rows c))),
         set_cursor {| c_rows := []; c_rowcount := c_rowcount c;
                       c_lastrowid := c_lastrowid c |} w1)
    end.

(** [conn.commit()] *)
Definition conn_commit (conn : Conn) : M World unit :=
  fun w =>
    let w1 := record EvCommit w in
    match f_commit (faults w) with
    | Some e => (Raise e, w1)
    | None => (Ok tt, set_committed (session w) w1)
    end.

(** [cursor.lastrowid] and [cursor.rowcount] *)
Definition cursor_lastrowid (cursor : Cursor) : M World PyVal :=
  fun w =>
    (Ok (match c_lastrowid (cursor_state w) with
         | Some id => PScalar (VInt id)
         | None => PScalar VNone
         end), w).

Definition cursor_rowcount (cursor : Cursor) : M World PyVal :=
  fun w => (Ok (PScalar (VInt (c_rowcount (cursor_state w)))), w).

(** [cursor.close()] *)
Definition cursor_close (cursor : Cursor) : M World unit :=
  fun w =>
    match f_cursor_close (faults w) with
    | Some e => (Raise e, record EvCursorClose w)
    | None => (Ok tt, record EvCursorClose w)
    end.

(** ** database.py: scoped connection, scoped cursor, [execute_query] *)

(** [get_db_connection], a context manager: [body] is what runs at the
    [yield]. *)
Definition get_db_connection {A} (body : Conn -> M World A) : M World A :=
  fun w =>
    match connection_pool w with
    | None => (Raise (RuntimeError "El pool de conexiones no está inicializado"), w)
    | Some _ =>
        let '(got, w1) := pool_get_connection w in
        let conn : option Conn :=
          match got with Ok c => Some c | Raise _ => None end in
        try_finally
          (try_except
             (match got with Ok c => body c | Raise e => raise e end)
             (fun err =>
                match err with
                | MySQLError _ => Some (raise err)
                | _ => None
                end))
          (match conn with
           | Some c =>
               do connected <- is_connected c;
               if connected : bool then conn_close c else ret tt
           | None => ret tt
           end)
          w1
    end.

(** [get_db_cursor] *)
Definition get_db_cursor {A} (body : Cursor * Conn -> M World A) : M World A :=
  get_db_connection (fun conn =>
    do cursor <- conn_cursor conn;
    try_finally (body (cursor, conn)) (cursor_close cursor)).

(** [params or ()] *)
Definition params_or_empty (params : option (list Value)) : list Value :=
  match params with
  | Some (v :: vs) => v :: vs
  | _ => []
  end.

(** The body of the [with get_db_cursor() as (cursor, conn):] block. *)
Definition execute_query_body (query : string) (params : option (list Value))
    (fetch_one fetch_all lastrowid : bool) (scope : Cursor * Conn) : M World PyVal :=
  let '(cursor, conn) := scope in
  do _ <- cursor_execute cursor query (params_or_empty params);
  if fetch_one then
    do result <- cursor_fetchone cursor;
    ret result
  else if fetch_all then
    do result <- cursor_fetchall cursor;
    ret result
  else if lastrowid then
    do _ <- conn_commit conn;
    do result <- cursor_lastrowid cursor;
    ret result
  else
    do _ <- conn_commit conn;
    do affected_rows <- cursor_rowcount cursor;
    ret affected_rows.

Definition execute_query (query : string) (params : option (list Value))
    (fetch_one fetch_all lastrowid : bool) : M World PyVal :=
  get_db_cursor (execute_query_body query params fetch_one fetch_all lastrowid).

(** ** main.py: request models *)

Module EmpleadoCreate.
Record t := { nombre : string; puesto : string; salario : spec_float }.

(** [empleado.dict()] *)
Definition dict (self : t) : list (string * PyVal) :=
  [("nombre", PScalar (VStr (nombre self)));
   ("puesto", PScalar (VStr (puesto self)));
   ("salario", PScalar (VFloat (salario self)))].
End EmpleadoCreate.

Module ClienteCreate.
Record t := {
  numero_identificacion : string;
  nombre_cliente : string;
  telefono_cliente : string;
  email_cliente : option string
}.

(** An [Optional[str]] as a bound value. *)
Definition email_value (self : t) : Value :=
  match email_cliente self with
  | Some s => VStr s
  | None => VNone
  end.

Definition dict (self : t) : list (string * PyVal) :=
  [("numero_identificacion", PScalar (VStr (numero_identificacion self)));
   ("nombre_cliente", PScalar (VStr (nombre_cliente self)));
   ("telefono_cliente", PScalar (VStr (telefono_cliente self)));
   ("email_cliente", PScalar (email_value self))].
End ClienteCreate.

Module ProveedorCreate.
Record t := {
  numero_identificacion : string;
  nombre_proveedor : string;
  contacto_principal : string;
  telefono_proveedor : string
}.

Definition dict (self : t) : list (string * PyVal) :=
  [("numero_identificacion", PScalar (VStr (numero_identificacion self)));
   ("nombre_proveedor", PScalar (VStr (nombre_proveedor self)));
   ("contacto_principal", PScalar (VStr (contacto_principal self)));
   ("telefono_proveedor", PScalar (VStr (telefono_proveedor self)))].
End ProveedorCreate.

(** ** Python truth and equality, where the handlers use them *)

(** [bool(s)] for a [str]. *)
Definition str_truthy (s : string) : bool := negb (String.eqb s "").

(** [bool(v)] *)
Definition truthy (v : PyVal) : bool :=
  match v with
  | PScalar VNone => false
  | PScalar (VInt n) => negb (Z.eqb n 0)
  | PScalar (VStr s) => str_truthy s
  | PScalar (VFloat (S754_zero _)) => false
  | PScalar (VFloat _) => true
  | PDict [] => false
  | PDict _ => true
  | PList [] => false
  | PList _ => true
  end.

(** [v == 0] *)
Definition eq_zero (v : PyVal) : bool :=
  match v with
  | PScalar (VInt n) => Z.eqb n 0
  | PScalar (VFloat (S754_zero _)) => true
  | _ => false
  end.

(** [except Exception as e: ... raise HTTPException(status_code=500, ...)] *)
Definition except_Exception_500 {A} (body : M World A) : M World A :=
  try_except body
    (fun _ => Some (raise (HTTPException 500 "Error interno del servidor"))).

(** ** main.py: employees *)

Definition get_empleados : M World PyVal :=
  except_Exception_500
    (execute_query "SELECT * FROM empleados" None false true false).

Definition get_empleado (id : Z) : M World PyVal :=
  do empleado <- execute_query "SELECT * FROM empleados WHERE id = %s"
                   (Some [VInt id]) true false false;
  if negb (truthy empleado) then
    raise (HTTPException 404 "Empleado no encontrado")
  else ret empleado.

Definition create_empleado (empleado : EmpleadoCreate.t) : M World PyVal :=
  except_Exception_500
    (do empleado_id <-
       execute_query
         "INSERT INTO empleados (nombre, puesto, salario) VALUES (%s, %s, %s)"
         (Some [VStr (EmpleadoCreate.nombre empleado);
                VStr (EmpleadoCreate.puesto empleado);
                VFloat (EmpleadoCreate.salario empleado)])
         false false true;
     ret (PDict (dict_set "id" empleado_id (EmpleadoCreate.dict empleado)))).

Definition update_empleado (id : Z) (empleado : EmpleadoCreate.t) : M World PyVal :=
  do affected_rows <-
    execute_query
      "UPDATE empleados SET nombre=%s, puesto=%s, salario=%s WHERE id=%s"
      (Some [VStr (EmpleadoCreate.nombre empleado);
             VStr (EmpleadoCreate.puesto empleado);
             VFloat (EmpleadoCreate.salario empleado);
             VInt id])
      false false false;
  if eq_zero affected_rows then
    raise (HTTPException 404 "Empleado no encontrado")
  else ret (PDict (dict_set "id" (PScalar (VInt id)) (EmpleadoCreate.dict empleado))).

Definition delete_empleado (id : Z) : M World PyVal :=
  do affected_rows <-
    execute_query "DELETE FROM empleados WHERE id = %s" (Some [VInt id])
      false false false;
  if eq_zero affected_rows then
    raise (HTTPException 404 "Empleado no encontrado")
  else ret (PScalar VNone).

(** ** main.py: clients *)

Definition get_clientes : M World PyVal :=
  except_Exception_500
    (execute_query "SELECT * FROM clientes" None false true false).

Definition get_cliente (id : Z) : M World PyVal :=
  do cliente <- execute_query "SELECT * FROM clientes WHERE id_cliente = %s"
                  (Some [VInt id]) true false false;
  if negb (truthy cliente) then
    raise (HTTPException 404 "Cliente no encontrado")
  else ret cliente.

Definition create_cliente (cliente : ClienteCreate.t) : M World PyVal :=
  if negb (str_truthy (ClienteCreate.numero_identificacion cliente))
     || negb (str_truthy (ClienteCreate.nombre_cliente cliente))
     || negb (str_truthy (ClienteCreate.telefono_cliente cliente))
  then
    raise (HTTPException 400
             "Número de identificación, nombre y teléfono son obligatorios")
  else
    except_Exception_500
      (do cliente_id <-
         execute_query
           "INSERT INTO clientes (numero_identificacion, nombre_cliente, telefono_cliente, email_cliente) VALUES (%s, %s, %s, %s)"
           (Some [VStr (ClienteCreate.numero_identificacion cliente);
                  VStr (ClienteCreate.nombre_cliente cliente);
                  VStr (ClienteCreate.telefono_cliente cliente);
                  ClienteCreate.email_value cliente])
           false false true;
       ret (PDict (dict_set "id_cliente" cliente_id (ClienteCreate.dict cliente)))).

Definition update_cliente (id : Z) (cliente : ClienteCreate.t) : M World PyVal :=
  if negb (str_truthy (ClienteCreate.numero_identificacion cliente))
     || negb (str_truthy (ClienteCreate.nombre_cliente cliente))
     || negb (str_truthy (ClienteCreate.telefono_cliente cliente))
  then
    raise (HTTPException 400
             "Número de identificación, nombre y teléfono son obligatorios")
  else
    do affected_rows <-
      execute_query
        "UPDATE clientes SET numero_identificacion=%s, nombre_cliente=%s, telefono_cliente=%s, email_cliente=%s WHERE id_cliente=%s"
        (Some [VStr (ClienteCreate.numero_identificacion cliente);
               VStr (ClienteCreate.nombre_cliente cliente);
               VStr (ClienteCreate.telefono_cliente cliente);
               ClienteCreate.email_value cliente;
               VInt id])
        false false false;
    if eq_zero affected_rows then
      raise (HTTPException 404 "Cliente no encontrado")
    else ret (PDict (dict_set "id_cliente" (PScalar (VInt id)) (ClienteCreate.dict cliente))).

Definition delete_cliente (id : Z) : M World PyVal :=
  do affected_rows <-
    execute_query "DELETE FROM clientes WHERE id_cliente = %s" (Some [VInt id])
      false false false;
  if eq_zero affected_rows then
    raise (HTTPException 404 "Cliente no encontrado")
  else ret (PScalar VNone).

(** ** main.py: suppliers *)

Definition get_proveedores : M World PyVal :=
  except_Exception_500
    (execute_query "SELECT * FROM proveedores" None false true false).

Definition get_proveedor (id : Z) : M World PyVal :=
  do proveedor <- execute_query "SELECT * FROM proveedores WHERE id_proveedor = %s"
                    (Some [VInt id]) true false false;
  if negb (truthy proveedor) then
    raise (HTTPException 404 "Proveedor no encontrado")
  else ret proveedor.

(** [all([...])] over the four fields *)
Definition proveedor_all_fields (proveedor : ProveedorCreate.t) : bool :=
  forallb str_truthy
    [ProveedorCreate.numero_identificacion proveedor;
     ProveedorCreate.nombre_proveedor proveedor;
     ProveedorCreate.contacto_principal proveedor;
     ProveedorCreate.telefono_proveedor proveedor].

Definition create_proveedor (proveedor : ProveedorCreate.t) : M World PyVal :=
  if negb (proveedor_all_fields proveedor) then
    raise (HTTPException 400 "Todos los campos son obligatorios")
  else
    except_Exception_500
      (do proveedor_id <-
         execute_query
           "INSERT INTO proveedores (numero_identificacion, nombre_proveedor, contacto_principal, telefono_proveedor) VALUES (%s, %s, %s, %s)"
           (Some [VStr (ProveedorCreate.numero_identificacion proveedor);
                  VStr (ProveedorCreate.nombre_proveedor proveedor);
                  VStr (ProveedorCreate.contacto_principal proveedor);
                  VStr (ProveedorCreate.telefono_proveedor proveedor)])
           false false true;
       ret (PDict (dict_set "id_proveedor" proveedor_id (ProveedorCreate.dict proveedor)))).

Definition update_proveedor (id : Z) (proveedor : ProveedorCreate.t) : M World PyVal :=
  if negb (proveedor_all_fields proveedor) then
    raise (HTTPException 400 "Todos los campos son obligatorios")
  else
    do affected_rows <-
      execute_query
        "UPDATE proveedores SET numero_identificacion=%s, nombre_proveedor=%s, contacto_principal=%s, telefono_proveedor=%s WHERE id_proveedor=%s"
        (Some [VStr (ProveedorCreate.numero_identificacion proveedor);
               VStr (ProveedorCreate.nombre_proveedor proveedor);
               VStr (ProveedorCreate.contacto_principal proveedor);
               VStr (ProveedorCreate.telefono_proveedor proveedor);
               VInt id])
        false false false;
    if eq_zero affected_rows then
      raise (HTTPException 404 "Proveedor no encontrado")
    else ret (PDict (dict_set "id_proveedor" (PScalar (VInt id)) (ProveedorCreate.dict proveedor))).

Definition delete_proveedor (id : Z) : M World PyVal :=
  do affected_rows <-
    execute_query "DELETE FROM proveedores WHERE id_proveedor = %s" (Some [VInt id])
      false false false;
  if eq_zero affected_rows then
    raise (HTTPException 404 "Proveedor no encontrado")
  else ret (PScalar VNone).

(** ** Requests and responses

    The framework around the handlers: the route decorator fixes the status
    of a normal return, an [HTTPException] becomes a response with its own
    status, and any other exception becomes a 500. *)

Inductive Request :=
| GET_empleados
| GET_empleado (id : Z)
| POST_empleados (empleado : EmpleadoCreate.t)
| PUT_empleado (id : Z) (empleado : EmpleadoCreate.t)
| DELETE_empleado (id : Z)
| GET_clientes
| GET_cliente (id : Z)
| POST_clientes (cliente : ClienteCreate.t)
| PUT_cliente (id : Z) (cliente : ClienteCreate.t)
| DELETE_cliente (id : Z)
| GET_proveedores
| GET_proveedor (id : Z)
| POST_proveedores (proveedor : ProveedorCreate.t)
| PUT_proveedor (id : Z) (proveedor : ProveedorCreate.t)
| DELETE_proveedor (id : Z).

(** The route a request is for: the operation without its data. *)
Inductive Route :=
| R_get_empleados | R_get_empleado | R_create_empleado | R_update_empleado
| R_delete_empleado
| R_get_clientes | R_get_cliente | R_create_cliente | R_update_cliente
| R_delete_cliente
| R_get_proveedores | R_get_proveedor | R_create_proveedor | R_update_proveedor
| R_delete_proveedor.

Definition route_of (r : Request) : Route :=
  match r with
  | GET_empleados => R_get_empleados
  | GET_empleado _ => R_get_empleado
  | POST_empleados _ => R_create_empleado
  | PUT_empleado _ _ => R_update_empleado
  | DELETE_empleado _ => R_delete_empleado
  | GET_clientes => R_get_clientes
  | GET_cliente _ => R_get_cliente
  | POST_clientes _ => R_create_cliente
  | PUT_cliente _ _ => R_update_cliente
  | DELETE_cliente _ => R_delete_cliente
  | GET_proveedores => R_get_proveedores
  | GET_proveedor _ => R_get_proveedor
  | POST_proveedores _ => R_create_proveedor
  | PUT_proveedor _ _ => R_update_proveedor
  | DELETE_proveedor _ => R_delete_proveedor
  end.

Definition handler (r : Request) : M World PyVal :=
  match r with
  | GET_empleados => get_empleados
  | GET_empleado id => get_empleado id
  | POST_empleados e => create_empleado e
  | PUT_empleado id e => update_empleado id e
  | DELETE_empleado id => delete_empleado id
  | GET_clientes => get_clientes
  | GET_cliente id => get_cliente id
  | POST_clientes c => create_cliente c
  | PUT_cliente id c => update_cliente id c
  | DELETE_cliente id => delete_cliente id
  | GET_proveedores => get_proveedores
  | GET_proveedor id => get_proveedor id
  | POST_proveedores p => create_proveedor p
  | PUT_proveedor id p => update_proveedor id p
  | DELETE_proveedor id => delete_proveedor id
  end.

(** [status_code=] of the route decorator, 200 when it is not given. *)
Definition success_status (r : Route) : Z :=
  match r with
  | R_create_empleado | R_create_cliente | R_create_proveedor => 201
  | R_delete_empleado | R_delete_cliente | R_delete_proveedor => 204
  | _ => 200
  end.

Record Response := {
  status : Z;
  content : PyVal
}.

Definition serve (r : Request) (w : World) : Response * World :=
  match handler r w with
  | (Ok v, w') => ({| status := success_status (route_of r); content := v |}, w')
  | (Raise (HTTPException code detail), w') =>
      ({| status := code; content := PDict [("detail", PScalar (VStr detail))] |}, w')
  | (Raise _, w') =>
      ({| status := 500; content := PScalar (VStr "Internal Server Error") |}, w')
  end.

(** The driver calls made between two worlds. *)
Definition new_events (w w' : World) : list Event :=
  drop (length (trace w)) (trace w').

Definition count_event (ev : Event) (evs : list Event) : nat :=
  length (filter (fun e => e = ev) evs).

(** The statement texts that reached [cursor.execute]. *)
Fixpoint executed_sql (evs : list Event) : list string :=
  match evs with
  | [] => []
  | EvExecute sql _ :: rest => sql :: executed_sql rest
  | _ :: rest => executed_sql rest
  end.

(** The free connections of the pool. *)
Definition available (w : World) : nat :=
  match connection_pool w with
  | Some p => p_free p
  | None => O
  end.

(** ** Concrete worlds *)

Definition empty_table (id_column : string) (columns : list string) : Table :=
  {| t_id_column := id_column; t_columns := columns; t_rows := [];
     t_auto_increment := 1 |}.

(** The three tables, with the columns the handlers and the response models
    name, and no rows. *)
Definition empty_store : gmap string Table :=
  <["empleados" := empty_table "id" ["nombre"; "puesto"; "salario"]]>
  (<["clientes" := empty_table "id_cliente"
       ["numero_identificacion"; "nombre_cliente"; "telefono_cliente"; "email_cliente"]]>
  (<["proveedores" := empty_table "id_proveedor"
       ["numero_identificacion"; "nombre_proveedor"; "contacto_principal";
        "telefono_proveedor"]]> ∅)).

(** The configuration when no variable is set. *)
Definition default_config : DBConfig :=
  {| host := "bsuwmw1ycddteycis6m7-mysql.services.clever-cloud.com";
     user := "u2laijuwgrququak";
     password := "K7tO7lfFm2i7vXAGHN6U";
     database := "bsuwmw1ycddteycis6m7";
     port := 3306;
     ssl_disabled := true;
     pool_size := 3 |}.

(** The world once [database] is imported with pool [p] over the store
    [db], under the faults [f]. *)
Definition started (cfg : DBConfig) (p : Pool) (db : gmap string Table)
    (f : Faults) : World :=
  {| db_config := cfg; connection_pool := Some p; committed := db; session := db;
     cursor_state := no_cursor; faults := f; trace := [] |}.

Definition default_pool : Pool :=
  {| p_name := "fastapi_pool"; p_size := 3; p_free := 3 |}.

Definition fresh_world : World :=
  started default_config default_pool empty_store no_faults.

(** Serving requests one after the other; the environment chooses the
    faults of each request. *)
Definition set_faults (f : Faults) (w : World) : World :=
  {| db_config := db_config w; connection_pool := connection_pool w;
     committed := committed w; session := session w; cursor_state := cursor_state w;
     faults := f; trace := trace w |}.

Fixpoint serve_all (rs : list (Faults * Request)) (w : World) : list Response * World :=
  match rs with
  | [] => ([], w)
  | (f, r) :: rest =>
      let '(resp, w1) := serve r (set_faults f w) in
      let '(resps, w2) := serve_all rest w1 in
      (resp :: resps, w2)
  end.

(** A pool with a free connection and a driver that reports no error. *)
Definition healthy (w : World) : Prop :=
  faults w = no_faults /\
  exists p n, connection_pool w = Some p /\ p_free p = S n.

(** ** Relations between the world before and after a computation *)

(** [m] never leaves the relation [R]. *)
Definition preserves (R : World -> World -> Prop) {A} (m : M World A) : Prop :=
  forall w, R w (snd (m w)).

(** The part [keep] of the world and the faults are untouched, and every
    driver call made satisfies [P]. *)
Definition frame {X} (P : Event -> Prop) (keep : World -> X) (w w' : World) : Prop :=
  keep w' = keep w /\
  faults w' = faults w /\
  exists evs, trace w' = trace w ++ evs /\ Forall P evs.

Definition not_pool_event (ev : Event) : Prop :=
  ev <> EvAcquire /\ ev <> EvRelease.

Definition not_commit (ev : Event) : Prop := ev <> EvCommit.

Definition executes_only (q : string) (ev : Event) : Prop :=
  forall sql params, ev = EvExecute sql params -> sql = q.

(** The pool is set up, holds a free connection and hands it out. *)
Definition acquires (w : World) : Prop :=
  exists p n, connection_pool w = Some p /\ p_free p = S n /\
              f_get_connection (faults w) = None.

(** *** Worlds in which the driver fails *)

Definition CR_SERVER_LOST : Z := 2013.

(** The link to the server drops while the statement runs: [execute] raises
    and the connection no longer answers as connected. *)
Definition lost_link : Faults :=
  {| f_get_connection := None; f_cursor := None;
     f_execute := Some (MySQLError CR_SERVER_LOST);
     f_fetch := None; f_commit := None; f_cursor_close := None;
     f_is_connected := false |}.

Definition lost_link_world : World :=
  started default_config default_pool empty_store lost_link.

(** The statement is refused but the connection stays up. *)
Definition refused_statement : Faults :=
  {| f_get_connection := None; f_cursor := None;
     f_execute := Some (MySQLError ER_PARSE_ERROR);
     f_fetch := None; f_commit := None; f_cursor_close := None;
     f_is_connected := true |}.

Definition refused_statement_world : World :=
  started default_config default_pool empty_store refused_statement.

(** *** Start-up scenarios *)

(** The default configuration with [DB_POOL_SIZE=10]. *)
Definition ten_connections : DBConfig :=
  {| host := host default_config; user := user default_config;
     password := password default_config; database := database default_config;
     port := port default_config; ssl_disabled := ssl_disabled default_config;
     pool_size := 10 |}.

(** A server that refuses the first pool for the connection limit and
    accepts the reduced one. *)
Definition limit_then_accept (name : string) (size : Z) (params : gmap string Value)
  : option Exn :=
  if String.eqb name "fastapi_pool" then Some (MySQLError ER_USER_LIMIT_REACHED)
  else None.

(** An environment that sets the host, the port and the pool size and
    leaves the rest unset, and the configuration loaded from it. *)
Definition custom_env : gmap string string :=
  <["DB_HOST" := "db.internal"]>
  (<["DB_PORT" := "5432"]>
  (<["DB_POOL_SIZE" := "10"]> ∅)).

Definition custom_config : DBConfig :=
  {| host := "db.internal"; user := user default_config;
     password := password default_config; database := database default_config;
     port := 5432; ssl_disabled := true; pool_size := 10 |}.

(** An environment that sets [SSL_DISABLED=true], and the configuration
    loaded from it. *)
Definition lowercase_true_env : gmap string string := {["SSL_DISABLED" := "true"]}.

Definition tls_config : DBConfig :=
  {| host := host default_config; user := user default_config;
     password := password default_config; database := database default_config;
     port := port default_config; ssl_disabled := false;
     pool_size := pool_size default_config |}.

(** *** Request bodies *)

Definition jane : ClienteCreate.t :=
  {| ClienteCreate.numero_identificacion := "A1";
     ClienteCreate.nombre_cliente := "Jane";
     ClienteCreate.telefono_cliente := "555-0100";
     ClienteCreate.email_cliente := None |}.

(** A body whose name carries SQL. *)
Definition mallory : ClienteCreate.t :=
  {| ClienteCreate.numero_identificacion := "B2";
     ClienteCreate.nombre_cliente := "x'); DROP TABLE clientes; --";
     ClienteCreate.telefono_cliente := "555-0199";
     ClienteCreate.email_cliente := Some "m@example.org" |}.

(** A client without a name. *)
Definition nameless_cliente : ClienteCreate.t :=
  {| ClienteCreate.numero_identificacion := "C3";
     ClienteCreate.nombre_cliente := "";
     ClienteCreate.telefono_cliente := "555-0111";
     ClienteCreate.email_cliente := None |}.

(** The binary64 value 1000.0 *)
Definition float_1000 : spec_float := S754_finite false 8796093022208000 (-43).

(** An employee without a name. *)
Definition nameless_empleado : EmpleadoCreate.t :=
  {| EmpleadoCreate.nombre := "";
     EmpleadoCreate.puesto := "Dev";
     EmpleadoCreate.salario := float_1000 |}.

(** *** Well-formed stores *)

(** The tables of the application: name, identifier column and data
    columns, as the statements of the handlers and the response models name
    them. *)
Definition schema : list (string * (string * list string)) :=
  [("empleados", ("id", ["nombre"; "puesto"; "salario"]));
   ("clientes", ("id_cliente",
      ["numero_identificacion"; "nombre_cliente"; "telefono_cliente"; "email_cliente"]));
   ("proveedores", ("id_proveedor",
      ["numero_identificacion"; "nombre_proveedor"; "contacto_principal";
       "telefono_proveedor"]))].

(** Every row carries an integer identifier below the next one the table
    will assign. *)
Definition ids_below (tb : Table) : Prop :=
  Forall (fun row => exists i, dict_get (t_id_column tb) row = Some (VInt i) /\
                               i < t_auto_increment tb)
    (t_rows tb).

Definition store_ok (db : gmap string Table) : Prop :=
  forall name idcol cols,
    In (name, (idcol, cols)) schema ->
    exists tb, db !! name = Some tb /\ t_id_column tb = idcol /\
               t_columns tb = cols /\ ids_below tb.

Definition rows_of (db : gmap string Table) (table : string) : list Row :=
  match db !! table with
  | Some tb => t_rows tb
  | None => []
  end.

Definition no_row_with_id (db : gmap string Table) (table idcol : string) (id : Z)
  : Prop :=
  Forall (fun row => matches idcol (VInt id) row = false) (rows_of db table).

(** *** Reading requests *)

(** The table, identifier column and identifier an update or a delete is
    aimed at. *)
Definition target (r : Request) : option (string * string * Z) :=
  match r with
  | PUT_empleado id _ | DELETE_empleado id => Some ("empleados", "id", id)
  | PUT_cliente id _ | DELETE_cliente id => Some ("clientes", "id_cliente", id)
  | PUT_proveedor id _ | DELETE_proveedor id => Some ("proveedores", "id_proveedor", id)
  | _ => None
  end.

(** The required-field checks the handlers make before their query. *)
Definition passes_validation (r : Request) : bool :=
  match r with
  | POST_clientes c | PUT_cliente _ c =>
      negb (negb (str_truthy (ClienteCreate.numero_identificacion c))
            || negb (str_truthy (ClienteCreate.nombre_cliente c))
            || negb (str_truthy (ClienteCreate.telefono_cliente c)))
  | POST_proveedores p | PUT_proveedor _ p => proveedor_all_fields p
  | _ => true
  end.

(** What a create request submits, the identifier field of its resource,
    and the request that reads the created record back. *)
Definition submitted (r : Request) : option (list (string * PyVal)) :=
  match r with
  | POST_empleados e => Some (EmpleadoCreate.dict e)
  | POST_clientes c => Some (ClienteCreate.dict c)
  | POST_proveedores p => Some (ProveedorCreate.dict p)
  | _ => None
  end.

Definition id_field (r : Request) : string :=
  match r with
  | POST_empleados _ => "id"
  | POST_clientes _ => "id_cliente"
  | POST_proveedores _ => "id_proveedor"
  | _ => ""
  end.

Definition get_by_id (r : Request) (id : Z) : Request :=
  match r with
  | POST_empleados _ => GET_empleado id
  | POST_clientes _ => GET_cliente id
  | POST_proveedores _ => GET_proveedor id
  | _ => r
  end.

(** The world after Jane was created in the fresh one. *)
Definition one_client_world : World :=
  snd (serve (POST_clientes jane) fresh_world).

(** Both the committed tables and the tables the leased connection sees
    are well formed. *)
Definition store_inv (w : World) : Prop :=
  store_ok (committed w) /\ store_ok (session w).

Definition keeps_store (w w' : World) : Prop := store_inv w -> store_inv w'.

(** What [execute_query] returns from the cursor [c], by selector. *)
Definition selected (fetch_one fetch_all lastrowid : bool) (c : CursorState) : PyVal :=
  if fetch_one then match c_rows c with
                    | [] => PScalar VNone
                    | r :: _ => py_row r
                    end
  else if fetch_all then PList (map py_row (c_rows c))
  else if lastrowid then match c_lastrowid c with
                         | Some id => PScalar (VInt id)
                         | None => PScalar VNone
                         end
  else PScalar (VInt (c_rowcount c)).

(** ** main.py: the check made when the application starts *)

(** [startup_event]: the outcome of the check is only logged. *)
Definition startup_event : M World unit :=
  try_except
    (do empleados <- execute_query "SHOW TABLES LIKE 'empleados'" None true false false;
     if negb (truthy empleados) then ret tt else ret tt)
    (fun _ => Some (ret tt)).

(** *** Reading requests, continued *)

Definition is_http (e : Exn) : bool :=
  match e with
  | HTTPException _ _ => true
  | _ => false
  end.

Definition no_http (o : option Exn) : bool :=
  match o with
  | Some e => negb (is_http e)
  | None => true
  end.

(** The driver raises its own exceptions, never the framework's
    [HTTPException]. *)
Definition driver_faults (f : Faults) : Prop :=
  no_http (f_get_connection f) = true /\ no_http (f_cursor f) = true /\
  no_http (f_execute f) = true /\ no_http (f_fetch f) = true /\
  no_http (f_commit f) = true /\ no_http (f_cursor_close f) = true.

(** The requests that only read. *)
Definition is_read (r : Request) : bool :=
  match r with
  | GET_empleados | GET_empleado _ | GET_clientes | GET_cliente _
  | GET_proveedores | GET_proveedor _ => true
  | _ => false
  end.

(** The statuses a route can answer with. *)
Definition possible_status (rt : Route) : list Z :=
  match rt with
  | R_get_empleados | R_get_clientes | R_get_proveedores => [200; 500]
  | R_get_empleado | R_get_cliente | R_get_proveedor => [200; 404; 500]
  | R_create_empleado => [201; 500]
  | R_create_cliente | R_create_proveedor => [201; 400; 500]
  | R_update_empleado => [200; 404; 500]
  | R_update_cliente | R_update_proveedor => [200; 400; 404; 500]
  | R_delete_empleado | R_delete_cliente | R_delete_proveedor => [204; 404; 500]
  end.

(** The table a list request reads. *)
Definition listing (r : Request) : option string :=
  match r with
  | GET_empleados => Some "empleados"
  | GET_clientes => Some "clientes"
  | GET_proveedores => Some "proveedores"
  | _ => None
  end.

(** The table, identifier column and identifier a get is aimed at. *)
Definition lookup_target (r : Request) : option (string * string * Z) :=
  match r with
  | GET_empleado id => Some ("empleados", "id", id)
  | GET_cliente id => Some ("clientes", "id_cliente", id)
  | GET_proveedor id => Some ("proveedores", "id_proveedor", id)
  | _ => None
  end.

Definition is_delete (r : Request) : bool :=
  match r with
  | DELETE_empleado _ | DELETE_cliente _ | DELETE_proveedor _ => true
  | _ => false
  end.

(** The columns an update writes and the values it binds to them. *)
Definition assignment (r : Request) : option (list string * list Value) :=
  match r with
  | PUT_empleado _ e =>
      Some (["nombre"; "puesto"; "salario"],
            [VStr (EmpleadoCreate.nombre e); VStr (EmpleadoCreate.puesto e);
             VFloat (EmpleadoCreate.salario e)])
  | PUT_cliente _ c =>
      Some (["numero_identificacion"; "nombre_cliente"; "telefono_cliente";
             "email_cliente"],
            [VStr (ClienteCreate.numero_identificacion c);
             VStr (ClienteCreate.nombre_cliente c);
             VStr (ClienteCreate.telefono_cliente c);
             ClienteCreate.email_value c])
  | PUT_proveedor _ p =>
      Some (["numero_identificacion"; "nombre_proveedor"; "contacto_principal";
             "telefono_proveedor"],
            [VStr (ProveedorCreate.numero_identificacion p);
             VStr (ProveedorCreate.nombre_proveedor p);
             VStr (ProveedorCreate.contacto_principal p);
             VStr (ProveedorCreate.telefono_proveedor p)])
  | _ => None
  end.

(** What an update submits. *)
Definition update_fields (r : Request) : list (string * PyVal) :=
  match r with
  | PUT_empleado _ e => EmpleadoCreate.dict e
  | PUT_cliente _ c => ClienteCreate.dict c
  | PUT_proveedor _ p => ProveedorCreate.dict p
  | _ => []
  end.

(** The rows of a table an [UPDATE ... WHERE idcol = id] leaves. *)
Definition rewritten (idcol : string) (id : Z) (cols : list string)
    (vals : list Value) (row : Row) : Row :=
  if matches idcol (VInt id) row then assign cols vals row else row.

(** The get of the record an update or a delete is aimed at. *)
Definition read_request (r : Request) : Request :=
  match r with
  | PUT_empleado id _ | DELETE_empleado id => GET_empleado id
  | PUT_cliente id _ | DELETE_cliente id => GET_cliente id
  | PUT_proveedor id _ | DELETE_proveedor id => GET_proveedor id
  | _ => r
  end.

(** *** Start-up, continued *)

(** A configuration with a pool of two connections. *)
Definition two_connections : DBConfig :=
  {| host := host default_config; user := user default_config;
     password := password default_config; database := database default_config;
     port := port default_config; ssl_disabled := ssl_disabled default_config;
     pool_size := 2 |}.

(** An environment whose port is not a number. *)
Definition bad_port_env : gmap string string := {["DB_PORT" := "tres mil"]}.

(** Every constructor call that was accepted or refused, in order. *)
Definition first_call (cfg : DBConfig) : PoolCall :=
  {| call_name := "fastapi_pool"; call_size := pool_size cfg;
     call_params := connection_params cfg |}.

(** The table and identifier column a create writes to. *)
Definition insert_target (r : Request) : option (string * string) :=
  match r with
  | POST_empleados _ => Some ("empleados", "id")
  | POST_clientes _ => Some ("clientes", "id_cliente")
  | POST_proveedores _ => Some ("proveedores", "id_proveedor")
  | _ => None
  end.

(** The list request of the table a create writes to. *)
Definition list_request (r : Request) : Request :=
  match r with
  | POST_empleados _ => GET_empleados
  | POST_clientes _ => GET_clientes
  | POST_proveedores _ => GET_proveedores
  | _ => r
  end.

(** *** More worlds in which the driver fails *)

(** The statement runs and is committed, then closing the cursor fails. *)
Definition close_fails : Faults :=
  {| f_get_connection := None; f_cursor := None; f_execute := None;
     f_fetch := None; f_commit := None;
     f_cursor_close := Some (MySQLError CR_SERVER_LOST);
     f_is_connected := true |}.

Definition close_fails_world : World :=
  started default_config default_pool empty_store close_fails.

(** The statement runs, then the commit is refused. *)
Definition commit_fails : Faults :=
  {| f_get_connection := None; f_cursor := None; f_execute := None;
     f_fetch := None; f_commit := Some (MySQLError CR_SERVER_LOST);
     f_cursor_close := None; f_is_connected := true |}.

Definition commit_fails_world : World :=
  started default_config default_pool empty_store commit_fails.

(** Every connection of the pool is leased. *)
Definition exhausted_world : World :=
  started default_config (with_free default_pool 0) empty_store no_faults.

(** The statement and the parameters [create_cliente] sends for Jane. *)
Definition insert_cliente : string :=
  "INSERT INTO clientes (numero_identificacion, nombre_cliente, telefono_cliente, email_cliente) VALUES (%s, %s, %s, %s)".

Definition jane_params : list Value :=
  [VStr "A1"; VStr "Jane"; VStr "555-0100"; VNone].

(** * Properties *)

(** ** Configuration *)

Lemma getenv_int_unset py_int env name default :
  env !! name = None -> getenv_int py_int env name default = Ok default.
Proof. intros H. unfold getenv_int. by rewrite H. Qed.

Lemma DBConfig_init_inv py_int env cfg :
  DBConfig_init py_int env = Ok cfg ->
  getenv_int py_int env "DB_PORT" 3306 = Ok (port cfg) /\
  getenv_int py_int env "DB_POOL_SIZE" 3 = Ok (pool_size cfg) /\
  ssl_disabled cfg = String.eqb (getenv env "SSL_DISABLED" "True") "True".
Proof.
  unfold DBConfig_init.
  destruct (getenv_int py_int env "DB_PORT" 3306) as [p|] eqn:Hp; [|discriminate].
  destruct (getenv_int py_int env "DB_POOL_SIZE" 3) as [s|] eqn:Hs; [|discriminate].
  intros [= <-]. simpl. auto.
Qed.

(** With the port and the pool size unset nothing is parsed, so loading
    succeeds. *)
Lemma DBConfig_init_total py_int env :
  env !! "DB_PORT" = None -> env !! "DB_POOL_SIZE" = None ->
  exists cfg, DBConfig_init py_int env = Ok cfg.
Proof.
  intros Hp Hs. unfold DBConfig_init.
  rewrite (getenv_int_unset _ _ _ _ Hp), (getenv_int_unset _ _ _ _ Hs). eauto.
Qed.

Lemma connection_params_ssl_ca cfg :
  connection_params cfg !! "ssl_ca" =
    if ssl_disabled cfg then None else Some (VStr "/etc/ssl/cert.pem").
Proof.
  unfold connection_params. destruct (ssl_disabled cfg); simpl.
  - by rewrite !lookup_insert_ne.
  - by rewrite lookup_insert_eq.
Qed.

(** ** Computations and the relations they stay within *)

Section Preserves.

Context (R : World -> World -> Prop) `{!PreOrder R}.

Local Lemma R_refl w : R w w.
Proof. reflexivity. Qed.

Local Lemma R_trans w1 w2 w3 : R w1 w2 -> R w2 w3 -> R w1 w3.
Proof. intros; by etrans. Qed.

Lemma preserves_ret {A} (a : A) : preserves R (ret a).
Proof. intros w. apply R_refl. Qed.

Lemma preserves_raise {A} e : preserves R (@raise World A e).
Proof. intros w. apply R_refl. Qed.

Lemma preserves_bind {A B} (m : M World A) (k : A -> M World B) :
  preserves R m -> (forall a, preserves R (k a)) -> preserves R (bind m k).
Proof.
  intros Hm Hk w. unfold bind. specialize (Hm w).
  destruct (m w) as [[a|e] w1]; simpl in *; [|done].
  eapply R_trans; [exact Hm | apply Hk].
Qed.

Lemma preserves_try_except {A} (body : M World A) handler :
  preserves R body ->
  (forall e h, handler e = Some h -> preserves R h) ->
  preserves R (try_except body handler).
Proof.
  intros Hb Hh w. unfold try_except. specialize (Hb w).
  destruct (body w) as [[a|e] w1]; simpl in *; [done|].
  destruct (handler e) as [h|] eqn:He; [|done].
  eapply R_trans; [exact Hb | eapply Hh, He].
Qed.

Lemma preserves_try_finally {A} (body : M World A) fin :
  preserves R body -> preserves R fin -> preserves R (try_finally body fin).
Proof.
  intros Hb Hf w. unfold try_finally. specialize (Hb w).
  destruct (body w) as [r w1]; simpl in *. specialize (Hf w1).
  destruct (fin w1) as [[u|e] w2]; simpl in *; eapply R_trans; eauto.
Qed.

Lemma preserves_if {A} (b : bool) (m1 m2 : M World A) :
  preserves R m1 -> preserves R m2 -> preserves R (if b then m1 else m2).
Proof. by destruct b. Qed.

Lemma preserves_is_connected c : preserves R (is_connected c).
Proof. intros w. apply R_refl. Qed.

Lemma preserves_lastrowid c : preserves R (cursor_lastrowid c).
Proof. intros w. apply R_refl. Qed.

Lemma preserves_rowcount c : preserves R (cursor_rowcount c).
Proof. intros w. apply R_refl. Qed.

Lemma preserves_except_500 {A} (body : M World A) :
  preserves R body -> preserves R (except_Exception_500 body).
Proof.
  intros Hb. apply preserves_try_except; [done|].
  intros e h [= <-]. apply preserves_raise.
Qed.

(** The statements of the [with] block of [execute_query]. *)
Lemma preserves_execute_query_body q ps fo fa lr scope :
  (forall c, preserves R (cursor_execute c q (params_or_empty ps))) ->
  (forall c, preserves R (cursor_fetchone c)) ->
  (forall c, preserves R (cursor_fetchall c)) ->
  (orb fo fa = false -> forall c, preserves R (conn_commit c)) ->
  preserves R (execute_query_body q ps fo fa lr scope).
Proof.
  intros Hex Hf1 Hfa Hco. destruct scope as [c conn]. simpl.
  apply preserves_bind; [done|]. intros _.
  destruct fo; [|destruct fa; [|destruct lr]].
  - apply preserves_bind; [done|]. intros; apply preserves_ret.
  - apply preserves_bind; [done|]. intros; apply preserves_ret.
  - apply preserves_bind; [by apply Hco|]. intros _.
    apply preserves_bind; [apply preserves_lastrowid|]. intros; apply preserves_ret.
  - apply preserves_bind; [by apply Hco|]. intros _.
    apply preserves_bind; [apply preserves_rowcount|]. intros; apply preserves_ret.
Qed.

(** The scope of the cursor, inside the scope of the connection. *)
Lemma preserves_cursor_scope {A} (body : Cursor * Conn -> M World A) conn :
  preserves R (conn_cursor conn) ->
  (forall c, preserves R (cursor_close c)) ->
  (forall c, preserves R (body (c, conn))) ->
  preserves R (bind (conn_cursor conn)
                 (fun cursor => try_finally (body (cursor, conn)) (cursor_close cursor))).
Proof.
  intros Hc Hcl Hb. apply preserves_bind; [done|].
  intros c. by apply preserves_try_finally.
Qed.

Lemma preserves_get_db_connection {A} (body : Conn -> M World A) :
  preserves R pool_get_connection ->
  (forall c, preserves R (conn_close c)) ->
  (forall c, preserves R (body c)) ->
  preserves R (get_db_connection body).
Proof.
  intros Hacq Hrel Hb w. unfold get_db_connection.
  destruct (connection_pool w); [|apply R_refl].
  specialize (Hacq w). destruct (pool_get_connection w) as [[c|e] w1]; simpl in *.
  - eapply R_trans; [exact Hacq|].
    apply preserves_try_finally.
    + apply preserves_try_except; [apply Hb|].
      intros e h. destruct e; intros [= <-]; apply preserves_raise.
    + apply preserves_bind; [apply preserves_is_connected|].
      intros b. apply preserves_if; [apply Hrel | apply preserves_ret].
  - eapply R_trans; [exact Hacq|].
    apply preserves_try_finally; [|apply preserves_ret].
    apply preserves_try_except; [apply preserves_raise|].
    intros e' h. destruct e'; intros [= <-]; apply preserves_raise.
Qed.

Lemma preserves_execute_query q ps fo fa lr :
  preserves R pool_get_connection ->
  (forall c, preserves R (conn_close c)) ->
  (forall c, preserves R (conn_cursor c)) ->
  (forall c, preserves R (cursor_close c)) ->
  (forall c, preserves R (cursor_execute c q (params_or_empty ps))) ->
  (forall c, preserves R (cursor_fetchone c)) ->
  (forall c, preserves R (cursor_fetchall c)) ->
  (orb fo fa = false -> forall c, preserves R (conn_commit c)) ->
  preserves R (execute_query q ps fo fa lr).
Proof.
  intros Hacq Hrel Hcur Hcl Hex Hf1 Hfa Hco.
  unfold execute_query, get_db_cursor.
  apply preserves_get_db_connection; [done..|].
  intros conn. apply preserves_cursor_scope; [done..|].
  intros c. by apply preserves_execute_query_body.
Qed.

End Preserves.

(** ** Frames *)

#[global] Instance frame_preorder {X} P (keep : World -> X) : PreOrder (frame P keep).
Proof.
  split.
  - intros w. repeat split; try done.
    exists []. split; [by rewrite app_nil_r | constructor].
  - intros w1 w2 w3 (Hk1 & Hf1 & evs1 & Ht1 & HP1) (Hk2 & Hf2 & evs2 & Ht2 & HP2).
    repeat split; [congruence..|].
    exists (evs1 ++ evs2). split.
    + by rewrite Ht2, Ht1, app_assoc.
    + by apply Forall_app.
Qed.

Ltac event_ok :=
  unfold not_pool_event, not_commit, executes_only;
  repeat split; intros; congruence.

Ltac frame_step :=
  intros [cfg pool com ses cur [f1 f2 f3 f4 f5 f6 f7] tr];
  unfold frame, pool_get_connection, conn_close, conn_cursor, cursor_execute,
    cursor_fetchone, cursor_fetchall, conn_commit, cursor_close;
  simpl; repeat case_match; simpl;
  (split; [reflexivity|]); (split; [reflexivity|]);
  first
    [ exists []; split; [by rewrite app_nil_r | constructor]
    | eexists; split; [reflexivity | repeat constructor; event_ok] ].

(** The calls made on the cursor and the commit leave the pool alone. *)
Section PoolFrame.

Local Abbreviation R := (frame not_pool_event connection_pool).

Lemma pool_frame_cursor c : preserves R (conn_cursor c).
Proof. frame_step. Qed.

Lemma pool_frame_cursor_close c : preserves R (cursor_close c).
Proof. frame_step. Qed.

Lemma pool_frame_execute c q ps : preserves R (cursor_execute c q ps).
Proof. frame_step. Qed.

Lemma pool_frame_fetchone c : preserves R (cursor_fetchone c).
Proof. frame_step. Qed.

Lemma pool_frame_fetchall c : preserves R (cursor_fetchall c).
Proof. frame_step. Qed.

Lemma pool_frame_commit c : preserves R (conn_commit c).
Proof. frame_step. Qed.

Lemma pool_frame_query_scope q ps fo fa lr conn :
  preserves R
    (bind (conn_cursor conn)
       (fun cursor =>
          try_finally (execute_query_body q ps fo fa lr (cursor, conn))
            (cursor_close cursor))).
Proof.
  apply (preserves_cursor_scope R (execute_query_body q ps fo fa lr)).
  - apply pool_frame_cursor.
  - apply pool_frame_cursor_close.
  - intros c. apply preserves_execute_query_body;
      auto using pool_frame_execute, pool_frame_fetchone, pool_frame_fetchall,
        pool_frame_commit; apply _.
Qed.

End PoolFrame.

(** ** Counting driver calls *)

Lemma new_events_app w w' evs :
  trace w' = trace w ++ evs -> new_events w w' = evs.
Proof. intros H. unfold new_events. rewrite H. apply drop_app_length. Qed.

Lemma count_event_app ev l1 l2 :
  count_event ev (l1 ++ l2) = (count_event ev l1 + count_event ev l2)%nat.
Proof. unfold count_event. by rewrite filter_app, length_app. Qed.

Lemma count_event_absent ev l :
  Forall (fun e => e <> ev) l -> count_event ev l = O.
Proof.
  unfold count_event. induction 1 as [|e l He _ IH]; [done|].
  rewrite filter_cons. by destruct (decide (e = ev)).
Qed.

Lemma count_event_single ev e :
  count_event ev [e] = if decide (e = ev) then 1%nat else O.
Proof. unfold count_event. rewrite filter_cons. by destruct (decide (e = ev)). Qed.

(** ** The scoped connection gives back what it took *)

Lemma get_db_connection_balance {A} (body : Conn -> M World A) w :
  (forall c, preserves (frame not_pool_event connection_pool) (body c)) ->
  let w' := snd (get_db_connection body w) in
  exists evs,
    trace w' = trace w ++ evs /\
    (count_event EvAcquire evs <= 1)%nat /\
    (acquires w -> count_event EvAcquire evs = 1%nat) /\
    if f_is_connected (faults w)
    then count_event EvRelease evs = count_event EvAcquire evs /\
         available w' = available w
    else count_event EvRelease evs = O /\
         (available w' + count_event EvAcquire evs)%nat = available w.
Proof.
  intros Hbody. unfold get_db_connection, pool_get_connection.
  assert (Hnone : forall w0 : World,
    (acquires w -> False) ->
    exists evs, trace w = trace w ++ evs /\
      (count_event EvAcquire evs <= 1)%nat /\
      (acquires w -> count_event EvAcquire evs = 1%nat) /\
      if f_is_connected (faults w)
      then count_event EvRelease evs = count_event EvAcquire evs /\
           available w = available w
      else count_event EvRelease evs = O /\
           (available w + count_event EvAcquire evs)%nat = available w).
  { intros _ Hno. exists []. rewrite app_nil_r.
    split; [done|]. split; [cbn; lia|]. split; [by intros ?%Hno|].
    destruct (f_is_connected _); cbn; split; lia. }
  destruct (connection_pool w) as [p|] eqn:Hp; simpl.
  2:{ apply (Hnone w). intros (? & ? & ? & _). congruence. }
  destruct (p_free p) as [|n] eqn:Hfree; simpl.
  { apply (Hnone w). intros (? & ? & ? & ? & _). congruence. }
  destruct (f_get_connection (faults w)) as [e|] eqn:Hget; simpl.
  { destruct e; cbn; apply (Hnone w); intros (? & ? & _ & _ & ?); congruence. }
  set (w1 := record EvAcquire _).
  unfold try_finally, try_except, bind, is_connected.
  pose proof (Hbody PooledMySQLConnection w1) as (Hpool & Hfaults & evs & Htr & Hev).
  destruct (body PooledMySQLConnection w1) as [r w2]; simpl in *.
  assert (Hf2 : faults w2 = faults w) by (rewrite Hfaults; reflexivity).
  assert (Hacq : count_event EvAcquire evs = O).
  { apply count_event_absent. eapply Forall_impl; [exact Hev|]. by intros ? [? ?]. }
  assert (Hrel : count_event EvRelease evs = O).
  { apply count_event_absent. eapply Forall_impl; [exact Hev|]. by intros ? [? ?]. }
  assert (Hw2 : forall (r' : Result A),
    (match r' with
     | Ok a => (Ok a, w2)
     | Raise e =>
         match match e with MySQLError _ => Some (raise e) | _ => None end with
         | Some h => h w2
         | None => (Raise e, w2)
         end
     end).2 = w2).
  { intros [a|[]]; reflexivity. }
  specialize (Hw2 r).
  destruct (match r with Ok a => _ | Raise e => _ end) as [r3 w3]; simpl in Hw2; subst w3.
  rewrite Hf2. destruct (f_is_connected (faults w)) eqn:Hconn; simpl.
  - unfold conn_close. simpl. rewrite Htr.
    exists ([EvAcquire] ++ evs ++ [EvRelease]).
    split; [by rewrite <- !app_assoc|].
    rewrite !count_event_app, Hacq, Hrel, !count_event_single.
    repeat case_decide; try congruence.
    repeat split; try lia.
    unfold available. simpl. rewrite Hpool, Hp. simpl. by rewrite Hfree.
  - exists ([EvAcquire] ++ evs). rewrite Htr.
    split; [by rewrite <- !app_assoc|].
    rewrite !count_event_app, Hacq, Hrel, !count_event_single.
    repeat case_decide; try congruence.
    repeat split; try lia.
    unfold available. rewrite Hpool, Hp. simpl. rewrite Hfree. lia.
Qed.

Lemma execute_query_balance q ps fo fa lr w :
  let w' := snd (execute_query q ps fo fa lr w) in
  exists evs,
    trace w' = trace w ++ evs /\
    (count_event EvAcquire evs <= 1)%nat /\
    (acquires w -> count_event EvAcquire evs = 1%nat) /\
    if f_is_connected (faults w)
    then count_event EvRelease evs = count_event EvAcquire evs /\
         available w' = available w
    else count_event EvRelease evs = O /\
         (available w' + count_event EvAcquire evs)%nat = available w.
Proof.
  unfold execute_query, get_db_cursor.
  apply get_db_connection_balance.
  intros c. apply pool_frame_query_scope.
Qed.

(** C1, as the claim states it, fails: when the link to the server drops
    during [execute], [conn.is_connected()] is false in the [finally] block,
    [conn.close()] is skipped, and the pool is left with one connection
    fewer than before the call. *)
Lemma C1_counterexample_lost_connection_not_released :
  fst (execute_query "SELECT * FROM empleados" None false true false lost_link_world)
    = Raise (MySQLError CR_SERVER_LOST) /\
  available lost_link_world = 3%nat /\
  available
    (snd (execute_query "SELECT * FROM empleados" None false true false lost_link_world))
    = 2%nat /\
  trace (snd (execute_query "SELECT * FROM empleados" None false true false lost_link_world))
    = [EvAcquire; EvCursor; EvExecute "SELECT * FROM empleados" []; EvCursorClose].
Proof. vm_compute. repeat split. Qed.

(** C1 (amended): for every call of [execute_query] after which the
    connection still answers [is_connected()], whatever else fails (the
    statement, the fetch, the commit, closing the cursor), the pool has as
    many free connections after the call as before; the call releases as
    often as it acquires, at most once, and exactly once whenever a
    connection was acquired. *)
Theorem C1_connection_released_when_still_connected q ps fo fa lr w :
  f_is_connected (faults w) = true ->
  available (snd (execute_query q ps fo fa lr w)) = available w /\
  count_event EvRelease (new_events w (snd (execute_query q ps fo fa lr w)))
    = count_event EvAcquire (new_events w (snd (execute_query q ps fo fa lr w))) /\
  (count_event EvAcquire (new_events w (snd (execute_query q ps fo fa lr w))) <= 1)%nat /\
  (acquires w ->
   count_event EvRelease (new_events w (snd (execute_query q ps fo fa lr w))) = 1%nat).
Proof.
  intros Hconn.
  destruct (execute_query_balance q ps fo fa lr w) as (evs & Htr & Hle & Hacq & Hbal).
  rewrite Hconn in Hbal. destruct Hbal as [Hrel Hav].
  rewrite (new_events_app _ _ _ Htr).
  repeat split; try done.
  intros Ha. rewrite Hrel. by apply Hacq.
Qed.

Lemma C1_witness_refused_statement :
  f_is_connected (faults refused_statement_world) = true /\
  fst (execute_query "SELEC" None false false false refused_statement_world)
    = Raise (MySQLError ER_PARSE_ERROR) /\
  available
    (snd (execute_query "SELEC" None false false false refused_statement_world))
    = available refused_statement_world.
Proof.
  split; [reflexivity|]. split; [reflexivity|].
  apply (C1_connection_released_when_still_connected
           "SELEC" None false false false refused_statement_world).
  reflexivity.
Defined.

(** ** A call that meets no fault *)

Lemma with_free_back p n :
  p_free p = S n -> with_free (with_free p n) (S n) = p.
Proof. destruct p; simpl; by intros ->. Qed.

Lemma execute_query_healthy q ps fo fa lr w db c :
  healthy w ->
  server_execute q (params_or_empty ps) (committed w) = Ok (db, c) ->
  fst (execute_query q ps fo fa lr w) = Ok (selected fo fa lr c) /\
  new_events w (snd (execute_query q ps fo fa lr w)) =
    [EvAcquire; EvCursor; EvExecute q (params_or_empty ps);
     if fo then EvFetchOne else if fa then EvFetchAll else EvCommit;
     EvCursorClose; EvRelease] /\
  committed (snd (execute_query q ps fo fa lr w)) =
    (if fo || fa then committed w else db) /\
  session (snd (execute_query q ps fo fa lr w)) =
    (if fo || fa then committed w else db) /\
  connection_pool (snd (execute_query q ps fo fa lr w)) = connection_pool w /\
  faults (snd (execute_query q ps fo fa lr w)) = faults w /\
  db_config (snd (execute_query q ps fo fa lr w)) = db_config w.
Proof.
  intros [Hf (p & n & Hp & Hfree)] Hserver.
  destruct w as [cfg pool com ses cur f tr]. simpl in *. subst f pool.
  unfold execute_query, get_db_cursor, get_db_connection, pool_get_connection.
  simpl. rewrite Hfree. simpl.
  unfold try_finally, try_except, bind, conn_cursor, cursor_close, is_connected,
    conn_close, execute_query_body, cursor_execute. simpl.
  rewrite Hserver. simpl.
  unfold new_events, selected. simpl.
  destruct fo; [|destruct fa; [|destruct lr]]; simpl.
  - unfold cursor_fetchone, ret. simpl.
    destruct (c_rows c); simpl; rewrite <- !app_assoc, drop_app_length;
      rewrite (with_free_back p n Hfree); by repeat split.
  - unfold cursor_fetchall, ret. simpl.
    rewrite <- !app_assoc, drop_app_length, (with_free_back p n Hfree); by repeat split.
  - unfold conn_commit, cursor_lastrowid, ret. simpl.
    rewrite <- !app_assoc, drop_app_length, (with_free_back p n Hfree); by repeat split.
  - unfold conn_commit, cursor_rowcount, ret. simpl.
    rewrite <- !app_assoc, drop_app_length, (with_free_back p n Hfree); by repeat split.
Qed.

Lemma healthy_fresh_world : healthy fresh_world.
Proof. split; [reflexivity|]. by exists default_pool, 2%nat. Qed.

(** ** A call that returns *)

Lemma execute_query_ok_inv q ps fo fa lr w v :
  fst (execute_query q ps fo fa lr w) = Ok v ->
  exists db c,
    server_execute q (params_or_empty ps) (committed w) = Ok (db, c) /\
    v = selected fo fa lr c /\
    committed (snd (execute_query q ps fo fa lr w)) =
      (if fo || fa then committed w else db).
Proof.
  destruct w as [cfg pool com ses cur [f1 f2 f3 f4 f5 f6 f7] tr].
  unfold execute_query, get_db_cursor, get_db_connection, pool_get_connection.
  simpl. destruct pool as [[nm sz [|fr]]|]; simpl;
    [unfold try_finally, try_except, raise, ret; simpl; discriminate| |discriminate].
  destruct f1 as [e1|]; simpl.
  { unfold try_finally, try_except, raise, ret. destruct e1; simpl; discriminate. }
  unfold try_finally, try_except, bind, raise, ret, conn_cursor, cursor_close,
    is_connected, conn_close, execute_query_body, cursor_execute. simpl.
  destruct f2 as [e2|]; simpl.
  { destruct e2, f7; simpl; discriminate. }
  destruct f3 as [e3|]; simpl.
  { destruct e3, f6 as [[]|], f7; simpl; discriminate. }
  destruct (server_execute q (params_or_empty ps) com) as [[db c]|e] eqn:Hs; simpl.
  2:{ destruct e, f6 as [[]|], f7; simpl; discriminate. }
  unfold selected.
  destruct fo; [|destruct fa; [|destruct lr]]; simpl;
    unfold cursor_fetchone, cursor_fetchall, conn_commit, cursor_lastrowid,
      cursor_rowcount; simpl.
  - destruct f4 as [[]|], f6 as [[]|], f7; simpl; try discriminate;
      destruct (c_rows c) eqn:Hr; simpl; intros [= <-];
      exists db, c; by rewrite Hr.
  - destruct f4 as [[]|], f6 as [[]|], f7; simpl; try discriminate;
      intros [= <-]; eauto.
  - destruct f5 as [[]|], f6 as [[]|], f7; simpl; try discriminate;
      intros [= <-]; eauto.
  - destruct f5 as [[]|], f6 as [[]|], f7; simpl; try discriminate;
      intros [= <-]; eauto.
Qed.

Lemma execute_query_commit_count q ps fo fa lr w v :
  fst (execute_query q ps fo fa lr w) = Ok v ->
  count_event EvCommit (new_events w (snd (execute_query q ps fo fa lr w))) =
    (if fo || fa then O else 1%nat).
Proof.
  destruct w as [cfg pool com ses cur [f1 f2 f3 f4 f5 f6 f7] tr].
  unfold execute_query, get_db_cursor, get_db_connection, pool_get_connection.
  simpl. destruct pool as [[nm sz [|fr]]|]; simpl;
    [unfold try_finally, try_except, raise, ret; simpl; discriminate| |discriminate].
  destruct f1 as [e1|]; simpl.
  { unfold try_finally, try_except, raise, ret. destruct e1; simpl; discriminate. }
  unfold try_finally, try_except, bind, raise, ret, conn_cursor, cursor_close,
    is_connected, conn_close, execute_query_body, cursor_execute. simpl.
  destruct f2 as [e2|]; simpl.
  { destruct e2, f7; simpl; discriminate. }
  destruct f3 as [e3|]; simpl.
  { destruct e3, f6 as [[]|], f7; simpl; discriminate. }
  destruct (server_execute q (params_or_empty ps) com) as [[db c]|e] eqn:Hs; simpl.
  2:{ destruct e, f6 as [[]|], f7; simpl; discriminate. }
  unfold new_events.
  destruct fo; [|destruct fa; [|destruct lr]]; simpl;
    unfold cursor_fetchone, cursor_fetchall, conn_commit, cursor_lastrowid,
      cursor_rowcount; simpl.
  - destruct f4 as [[]|], f6 as [[]|], f7; simpl; try discriminate;
      destruct (c_rows c) eqn:Hr; simpl; intros _;
      by rewrite <- !app_assoc, drop_app_length.
  - destruct f4 as [[]|], f6 as [[]|], f7; simpl; try discriminate; intros _;
      by rewrite <- !app_assoc, drop_app_length.
  - destruct f5 as [[]|], f6 as [[]|], f7; simpl; try discriminate; intros _;
      by rewrite <- !app_assoc, drop_app_length.
  - destruct f5 as [[]|], f6 as [[]|], f7; simpl; try discriminate; intros _;
      by rewrite <- !app_assoc, drop_app_length.
Qed.

(** C3: whenever a call of [execute_query] returns, under any faults, the
    statement was executed on the committed tables and the value returned is,
    by selector, the first row of the result as a dictionary or [None] when
    the result is empty ([fetch_one]), the rows in order ([fetch_all]), the
    last generated identifier ([lastrowid]), or the affected-row count (no
    selector); the call committed exactly once in the last two cases, making
    the statement's effect durable, and not at all in the two fetch cases.
    In a healthy world the call does return. *)
Theorem C3_result_and_commit_by_selector q ps fo fa lr w :
  (forall v,
     fst (execute_query q ps fo fa lr w) = Ok v ->
     exists db c,
       server_execute q (params_or_empty ps) (committed w) = Ok (db, c) /\
       v = selected fo fa lr c /\
       count_event EvCommit (new_events w (snd (execute_query q ps fo fa lr w))) =
         (if fo || fa then O else 1%nat) /\
       committed (snd (execute_query q ps fo fa lr w)) =
         (if fo || fa then committed w else db)) /\
  (healthy w ->
   forall db c,
     server_execute q (params_or_empty ps) (committed w) = Ok (db, c) ->
     fst (execute_query q ps fo fa lr w) = Ok (selected fo fa lr c)).
Proof.
  split.
  - intros v Hv.
    destruct (execute_query_ok_inv q ps fo fa lr w v Hv) as (db & c & Hs & Hsel & Hcom).
    exists db, c. repeat split; try done.
    by eapply execute_query_commit_count.
  - intros Hw db c Hs.
    by destruct (execute_query_healthy q ps fo fa lr w db c Hw Hs) as (Hres & _).
Qed.

Lemma C3_witness_fetch_all_on_fresh_world :
  healthy fresh_world /\
  fst (execute_query "SELECT * FROM empleados" None false true false fresh_world)
    = Ok (PList []) /\
  count_event EvCommit
    (new_events fresh_world
       (snd (execute_query "SELECT * FROM empleados" None false true false fresh_world)))
    = O.
Proof.
  split; [exact healthy_fresh_world|].
  destruct (C3_result_and_commit_by_selector
              "SELECT * FROM empleados" None false true false fresh_world)
    as [Hinv Hrun].
  pose proof (Hrun healthy_fresh_world empty_store no_cursor eq_refl) as Hres.
  split; [exact Hres|].
  destruct (Hinv _ Hres) as (db & c & _ & _ & Hcount & _). exact Hcount.
Defined.

(** ** The fetch branches never commit *)

Section DataFrame.

Local Abbreviation R := (frame not_commit committed).

Lemma data_frame_acquire : preserves R pool_get_connection.
Proof. frame_step. Qed.

Lemma data_frame_release c : preserves R (conn_close c).
Proof. frame_step. Qed.

Lemma data_frame_cursor c : preserves R (conn_cursor c).
Proof. frame_step. Qed.

Lemma data_frame_cursor_close c : preserves R (cursor_close c).
Proof. frame_step. Qed.

Lemma data_frame_execute c q ps : preserves R (cursor_execute c q ps).
Proof. frame_step. Qed.

Lemma data_frame_fetchone c : preserves R (cursor_fetchone c).
Proof. frame_step. Qed.

Lemma data_frame_fetchall c : preserves R (cursor_fetchall c).
Proof. frame_step. Qed.

Lemma data_frame_execute_query q ps fo fa lr :
  orb fo fa = true -> preserves R (execute_query q ps fo fa lr).
Proof.
  intros Hsel. apply preserves_execute_query;
    auto using data_frame_acquire, data_frame_release, data_frame_cursor,
      data_frame_cursor_close, data_frame_execute, data_frame_fetchone,
      data_frame_fetchall; [apply _|congruence].
Qed.

End DataFrame.

Lemma fetch_never_commits q ps fo fa lr w :
  orb fo fa = true ->
  count_event EvCommit (new_events w (snd (execute_query q ps fo fa lr w))) = O /\
  committed (snd (execute_query q ps fo fa lr w)) = committed w.
Proof.
  intros Hsel.
  destruct (data_frame_execute_query q ps fo fa lr Hsel w) as (Hk & _ & evs & Htr & Hev).
  rewrite (new_events_app _ _ _ Htr). split; [|exact Hk].
  by apply count_event_absent.
Qed.

(** C9: the selector flags are tried in the order [fetch_one], [fetch_all],
    [lastrowid]: a call with [fetch_one] set is the call with only
    [fetch_one] set whatever the other flags are, and a call with
    [fetch_all] set and [fetch_one] unset is the call with only [fetch_all]
    set; whenever [fetch_one] or [fetch_all] is set no commit is issued and
    the committed data are untouched, under every fault.  In particular
    [execute_query(q, p, fetch_one=True, lastrowid=True)] is the single-row
    fetch. *)
Theorem C9_selector_precedence q ps w :
  (forall fa lr,
     execute_query q ps true fa lr w = execute_query q ps true false false w) /\
  (forall lr,
     execute_query q ps false true lr w = execute_query q ps false true false w) /\
  execute_query q ps true false true w = execute_query q ps true false false w /\
  (forall fa lr,
     count_event EvCommit (new_events w (snd (execute_query q ps true fa lr w))) = O /\
     committed (snd (execute_query q ps true fa lr w)) = committed w) /\
  (forall fo lr,
     count_event EvCommit (new_events w (snd (execute_query q ps fo true lr w))) = O /\
     committed (snd (execute_query q ps fo true lr w)) = committed w).
Proof.
  repeat split; try reflexivity.
  all: intros; apply fetch_never_commits; by destruct_all bool.
Qed.

(** ** Start-up *)

(** C2, as the claim states it, fails: with a pool size of 10 refused for
    the connection limit, the retry asks for 3 connections, not for
    [max(10 - 2, 1) = 8]. *)
Lemma C2_counterexample_reduced_size_is_capped :
  map call_size (snd (create_connection_pool limit_then_accept ten_connections []))
    = [10; 3] /\
  Z.max (pool_size ten_connections - 2) 1 = 8.
Proof. split; reflexivity. Qed.

(** C2 (amended): for every configured pool size of at least 3, when the
    first pool is refused with the server's connection-limit error the pool
    is requested exactly once more, with [min(3, pool_size - 2)] connections
    (between 1 and 3, and fewer than configured) and the same connection
    parameters; if that request fails too, start-up ends with an exception.
    Any other failure of the first request ends start-up at once, without a
    second request. *)
Theorem C2_retry_once_with_reduced_pool pool_ctor cfg :
  3 <= pool_size cfg ->
  let params := connection_params cfg in
  let reduced := Z.min 3 (pool_size cfg - 2) in
  let first := {| call_name := "fastapi_pool"; call_size := pool_size cfg;
                  call_params := params |} in
  let second := {| call_name := "fastapi_pool_reduced"; call_size := reduced;
                   call_params := params |} in
  1 <= reduced <= 3 /\ reduced < pool_size cfg /\
  create_connection_pool pool_ctor cfg [] =
    match pool_ctor "fastapi_pool" (pool_size cfg) params with
    | None =>
        (Ok {| p_name := "fastapi_pool"; p_size := pool_size cfg;
               p_free := Z.to_nat (pool_size cfg) |}, [first])
    | Some (MySQLError errno) =>
        if Z.eqb errno ER_USER_LIMIT_REACHED then
          match pool_ctor "fastapi_pool_reduced" reduced params with
          | None =>
              (Ok {| p_name := "fastapi_pool_reduced"; p_size := reduced;
                     p_free := Z.to_nat reduced |}, [first; second])
          | Some (MySQLError _) =>
              (Raise (RuntimeError "No se pudo crear el pool de conexiones"),
               [first; second])
          | Some e => (Raise e, [first; second])
          end
        else
          (Raise (RuntimeError "Error de conexión a la base de datos"), [first])
    | Some e => (Raise e, [first])
    end.
Proof.
  intros Hsize. cbv zeta.
  split; [lia|]. split; [lia|].
  unfold create_connection_pool, try_except, MySQLConnectionPool, raise. simpl.
  destruct (pool_ctor "fastapi_pool" _ _) as [[errno| | | |]|]; try reflexivity.
  destruct (Z.eqb errno ER_USER_LIMIT_REACHED); [|reflexivity].
  simpl.
  destruct (pool_ctor "fastapi_pool_reduced" _ _) as [[| | | |]|]; reflexivity.
Qed.

Lemma C2_witness_ten_connections :
  3 <= pool_size ten_connections /\
  create_connection_pool limit_then_accept ten_connections [] =
    (Ok {| p_name := "fastapi_pool_reduced"; p_size := 3; p_free := 3 |},
     [{| call_name := "fastapi_pool"; call_size := 10;
         call_params := connection_params ten_connections |};
      {| call_name := "fastapi_pool_reduced"; call_size := 3;
         call_params := connection_params ten_connections |}]).
Proof.
  assert (H : 3 <= pool_size ten_connections) by (simpl; lia).
  split; [exact H|].
  exact (proj2 (proj2 (C2_retry_once_with_reduced_pool limit_then_accept ten_connections H))).
Defined.

(** ** Configuration, continued *)

Section ConfigFrame.

Variable q : string.

Local Abbreviation R := (frame (executes_only q) db_config).

Lemma config_frame_acquire : preserves R pool_get_connection.
Proof. frame_step. Qed.

Lemma config_frame_release c : preserves R (conn_close c).
Proof. frame_step. Qed.

Lemma config_frame_cursor c : preserves R (conn_cursor c).
Proof. frame_step. Qed.

Lemma config_frame_cursor_close c : preserves R (cursor_close c).
Proof. frame_step. Qed.

Lemma config_frame_execute c ps : preserves R (cursor_execute c q ps).
Proof. frame_step. Qed.

Lemma config_frame_fetchone c : preserves R (cursor_fetchone c).
Proof. frame_step. Qed.

Lemma config_frame_fetchall c : preserves R (cursor_fetchall c).
Proof. frame_step. Qed.

Lemma config_frame_commit c : preserves R (conn_commit c).
Proof. frame_step. Qed.

(** Whatever happens, [execute_query] leaves the configuration alone and
    hands the driver no other text than its [query] argument. *)
Lemma config_frame_execute_query ps fo fa lr :
  preserves R (execute_query q ps fo fa lr).
Proof.
  apply preserves_execute_query;
    auto using config_frame_acquire, config_frame_release, config_frame_cursor,
      config_frame_cursor_close, config_frame_execute, config_frame_fetchone,
      config_frame_fetchall, config_frame_commit; apply _.
Qed.

End ConfigFrame.

(** ** What every handler leaves alone *)

Ltac handler_steps_with lem :=
  repeat first
    [ apply preserves_except_500
    | apply preserves_bind
    | apply preserves_if
    | apply preserves_raise
    | apply preserves_ret
    | apply lem
    | intros ? ];
  try apply _.

Ltac handler_steps := handler_steps_with config_frame_execute_query.

(** Each route has one statement text: whatever the request data and
    whatever the world, the handler keeps the configuration and sends the
    driver that text only. *)
Lemma handler_frame rt :
  exists q, forall r, route_of r = rt ->
    preserves (frame (executes_only q) db_config) (handler r).
Proof.
  destruct rt; eexists; intros r Hr; destruct r; try discriminate Hr; simpl.
  - unfold get_empleados. handler_steps.
  - unfold get_empleado. handler_steps.
  - unfold create_empleado. handler_steps.
  - unfold update_empleado. handler_steps.
  - unfold delete_empleado. handler_steps.
  - unfold get_clientes. handler_steps.
  - unfold get_cliente. handler_steps.
  - unfold create_cliente. handler_steps.
  - unfold update_cliente. handler_steps.
  - unfold delete_cliente. handler_steps.
  - unfold get_proveedores. handler_steps.
  - unfold get_proveedor. handler_steps.
  - unfold create_proveedor. handler_steps.
  - unfold update_proveedor. handler_steps.
  - unfold delete_proveedor. handler_steps.
Qed.

Lemma serve_world r w : snd (serve r w) = snd (handler r w).
Proof. unfold serve. by destruct (handler r w) as [[v|[]] w']. Qed.

Lemma serve_keeps_config r w : db_config (snd (serve r w)) = db_config w.
Proof.
  rewrite serve_world.
  destruct (handler_frame (route_of r)) as [q Hq].
  by destruct (Hq r eq_refl w) as (Hk & _).
Qed.

Lemma serve_all_keeps_config rs w : db_config (snd (serve_all rs w)) = db_config w.
Proof.
  revert w. induction rs as [|[f r] rs IH]; intros w; [done|].
  simpl. pose proof (serve_keeps_config r (set_faults f w)) as H1.
  destruct (serve r (set_faults f w)) as [resp w1]. simpl in H1.
  specialize (IH w1). destruct (serve_all rs w1) as [resps w2]. simpl in *.
  by rewrite IH, H1.
Qed.

(** The pool, at its first request and at the reduced one, is handed the
    parameters of the one configuration loaded. *)
Lemma create_connection_pool_params pool_ctor cfg :
  Forall (fun call => call_params call = connection_params cfg)
    (snd (create_connection_pool pool_ctor cfg [])).
Proof.
  unfold create_connection_pool, try_except, MySQLConnectionPool, raise. simpl.
  destruct (pool_ctor "fastapi_pool" _ _) as [[errno| | | |]|];
    simpl; try by repeat constructor.
  destruct (Z.eqb errno ER_USER_LIMIT_REACHED); simpl; [|by repeat constructor].
  destruct (pool_ctor "fastapi_pool_reduced" _ _) as [[| | | |]|];
    simpl; by repeat constructor.
Qed.

Lemma import_database_config pool_ctor py_int env cfg pool calls :
  import_database pool_ctor py_int env [] = (Ok (cfg, pool), calls) ->
  DBConfig_init py_int env = Ok cfg /\
  Forall (fun call => call_params call = connection_params cfg) calls.
Proof.
  unfold import_database.
  destruct (DBConfig_init py_int env) as [cfg'|e]; [|discriminate].
  unfold bind, ret.
  pose proof (create_connection_pool_params pool_ctor cfg') as Hp.
  destruct (create_connection_pool pool_ctor cfg' []) as [[p|e] calls'];
    [|discriminate].
  intros [= <- <- <-]. by split.
Qed.

(** Every text field of the configuration is the value of its variable,
    or the default of [DBConfig.__init__] when the variable is unset. *)
Lemma DBConfig_init_fields py_int env cfg :
  DBConfig_init py_int env = Ok cfg ->
  host cfg = getenv env "DB_HOST" "bsuwmw1ycddteycis6m7-mysql.services.clever-cloud.com" /\
  user cfg = getenv env "DB_USER" "u2laijuwgrququak" /\
  password cfg = getenv env "DB_PASSWORD" "K7tO7lfFm2i7vXAGHN6U" /\
  database cfg = getenv env "DB_NAME" "bsuwmw1ycddteycis6m7".
Proof.
  unfold DBConfig_init.
  destruct (getenv_int py_int env "DB_PORT" 3306) as [p|]; [|discriminate].
  destruct (getenv_int py_int env "DB_POOL_SIZE" 3) as [n|]; [|discriminate].
  intros [= <-]. by repeat split.
Qed.

Lemma getenv_set env name default v : env !! name = Some v -> getenv env name default = v.
Proof. unfold getenv. by intros ->. Qed.

Lemma getenv_int_set py_int env name default v n :
  env !! name = Some v -> getenv_int py_int env name default = Ok n -> py_int v = Some n.
Proof.
  unfold getenv_int. intros ->. destruct (py_int v); [|discriminate]. by intros [= ->].
Qed.

(** What the driver is handed is what the configuration holds. *)
Lemma connection_params_fields cfg :
  connection_params cfg !! "host" = Some (VStr (host cfg)) /\
  connection_params cfg !! "user" = Some (VStr (user cfg)) /\
  connection_params cfg !! "password" = Some (VStr (password cfg)) /\
  connection_params cfg !! "database" = Some (VStr (database cfg)) /\
  connection_params cfg !! "port" = Some (VInt (port cfg)).
Proof.
  unfold connection_params. destruct (ssl_disabled cfg); simpl;
    repeat split; by simplify_map_eq.
Qed.

(** The first pool requested is [fastapi_pool], of the configured size. *)
Lemma create_connection_pool_first_call pool_ctor cfg :
  exists rest,
    snd (create_connection_pool pool_ctor cfg []) =
      {| call_name := "fastapi_pool"; call_size := pool_size cfg;
         call_params := connection_params cfg |} :: rest.
Proof.
  unfold create_connection_pool, try_except, MySQLConnectionPool, raise. simpl.
  destruct (pool_ctor "fastapi_pool" _ _) as [[errno| | | |]|]; simpl; eauto.
  destruct (Z.eqb errno ER_USER_LIMIT_REACHED); simpl; eauto.
  destruct (pool_ctor "fastapi_pool_reduced" _ _) as [[| | | |]|]; simpl; eauto.
Qed.

Lemma import_database_first_call pool_ctor py_int env cfg pool calls :
  import_database pool_ctor py_int env [] = (Ok (cfg, pool), calls) ->
  exists rest,
    calls = {| call_name := "fastapi_pool"; call_size := pool_size cfg;
               call_params := connection_params cfg |} :: rest.
Proof.
  unfold import_database.
  destruct (DBConfig_init py_int env) as [cfg'|e]; [|discriminate].
  unfold bind, ret.
  pose proof (create_connection_pool_first_call pool_ctor cfg') as [rest Hp].
  destruct (create_connection_pool pool_ctor cfg' []) as [[p|e] calls'];
    [|discriminate].
  intros [= <- <- <-]. by exists rest.
Qed.

(** C8: the configuration is loaded from the environment when [database]
    is imported.  An unset variable takes its default: port 3306,
    TLS-disabled flag true, pool size 3.  A set variable is the one used:
    host, user, password and database name are its value, port and pool size
    are what [int] reads from it, and the TLS-disabled flag is whether it is
    ["True"].  The pool is created from that one configuration: every request
    for a pool carries its connection parameters, which hold its host, user,
    password, database name and port, and the first request asks for its
    pool size.  No request served afterwards, under any faults, changes
    it. *)
Theorem C8_configuration_defaults_and_stability py_int env cfg :
  DBConfig_init py_int env = Ok cfg ->
  (env !! "DB_PORT" = None -> port cfg = 3306) /\
  (env !! "SSL_DISABLED" = None -> ssl_disabled cfg = true) /\
  (env !! "DB_POOL_SIZE" = None -> pool_size cfg = 3) /\
  (forall pool_ctor cfg' pool calls,
     import_database pool_ctor py_int env [] = (Ok (cfg', pool), calls) ->
     cfg' = cfg /\
     Forall (fun call => call_params call = connection_params cfg) calls) /\
  (forall rs w, db_config w = cfg -> db_config (snd (serve_all rs w)) = cfg) /\
  (forall v, env !! "DB_HOST" = Some v -> host cfg = v) /\
  (forall v, env !! "DB_USER" = Some v -> user cfg = v) /\
  (forall v, env !! "DB_PASSWORD" = Some v -> password cfg = v) /\
  (forall v, env !! "DB_NAME" = Some v -> database cfg = v) /\
  (forall v, env !! "DB_PORT" = Some v -> py_int v = Some (port cfg)) /\
  (forall v, env !! "DB_POOL_SIZE" = Some v -> py_int v = Some (pool_size cfg)) /\
  (forall v, env !! "SSL_DISABLED" = Some v -> ssl_disabled cfg = String.eqb v "True") /\
  (connection_params cfg !! "host" = Some (VStr (host cfg)) /\
   connection_params cfg !! "user" = Some (VStr (user cfg)) /\
   connection_params cfg !! "password" = Some (VStr (password cfg)) /\
   connection_params cfg !! "database" = Some (VStr (database cfg)) /\
   connection_params cfg !! "port" = Some (VInt (port cfg))) /\
  (forall pool_ctor cfg' pool calls,
     import_database pool_ctor py_int env [] = (Ok (cfg', pool), calls) ->
     exists rest,
       calls = {| call_name := "fastapi_pool"; call_size := pool_size cfg;
                  call_params := connection_params cfg |} :: rest).
Proof.
  intros Hload.
  destruct (DBConfig_init_inv _ _ _ Hload) as (Hport & Hsize & Hssl).
  destruct (DBConfig_init_fields _ _ _ Hload) as (Hhost & Huser & Hpw & Hdb).
  split; [|split; [|split; [|split; [|split]]]].
  - intros Hunset. rewrite (getenv_int_unset _ _ _ _ Hunset) in Hport. congruence.
  - intros Hunset. rewrite Hssl. unfold getenv. by rewrite Hunset.
  - intros Hunset. rewrite (getenv_int_unset _ _ _ _ Hunset) in Hsize. congruence.
  - intros pool_ctor cfg' pool calls H.
    apply import_database_config in H as [H1 H2].
    assert (cfg' = cfg) as -> by congruence. by split.
  - intros rs w <-. apply serve_all_keeps_config.
  - split; [|split; [|split; [|split; [|split; [|split; [|split; [|split]]]]]]].
    + intros v Hv. by rewrite Hhost, (getenv_set _ _ _ _ Hv).
    + intros v Hv. by rewrite Huser, (getenv_set _ _ _ _ Hv).
    + intros v Hv. by rewrite Hpw, (getenv_set _ _ _ _ Hv).
    + intros v Hv. by rewrite Hdb, (getenv_set _ _ _ _ Hv).
    + intros v Hv. exact (getenv_int_set _ _ _ _ _ _ Hv Hport).
    + intros v Hv. exact (getenv_int_set _ _ _ _ _ _ Hv Hsize).
    + intros v Hv. by rewrite Hssl, (getenv_set _ _ _ _ Hv).
    + apply connection_params_fields.
    + intros pool_ctor cfg' pool calls H.
      pose proof (import_database_config _ _ _ _ _ _ H) as [H1 _].
      assert (cfg' = cfg) as -> by congruence.
      exact (import_database_first_call _ _ _ _ _ _ H).
Qed.

(** With the host, the port and the pool size set, these are the values
    loaded and the TLS-disabled flag keeps its default. *)
Lemma C8_witness_port_and_pool_size_set :
  DBConfig_init int_of_decimal custom_env = Ok custom_config /\
  host custom_config = "db.internal" /\
  int_of_decimal "5432" = Some (port custom_config) /\
  int_of_decimal "10" = Some (pool_size custom_config) /\
  ssl_disabled custom_config = true.
Proof.
  assert (H : DBConfig_init int_of_decimal custom_env = Ok custom_config) by reflexivity.
  destruct (C8_configuration_defaults_and_stability int_of_decimal custom_env
              custom_config H)
    as (_ & Hs & _ & _ & _ & Hh & _ & _ & _ & Hp & Hn & _).
  split; [exact H|].
  split; [exact (Hh "db.internal" eq_refl)|].
  split; [exact (Hp "5432" eq_refl)|].
  split; [exact (Hn "10" eq_refl) | exact (Hs eq_refl)].
Defined.

(** With nothing set, the defaults are loaded. *)
Example defaults_of_the_empty_environment :
  DBConfig_init int_of_decimal ∅ = Ok default_config /\
  port default_config = 3306 /\
  ssl_disabled default_config = true /\
  pool_size default_config = 3.
Proof. by repeat split. Qed.

(** C10: the TLS-disabled flag is true exactly when [SSL_DISABLED], or its
    default ["True"] when unset, is the string ["True"]; for any other value
    the flag is false.  With the flag false the connection parameters hold
    ["ssl_ca"] with value ["/etc/ssl/cert.pem"]; with the flag true they
    hold no ["ssl_ca"]. *)
Theorem C10_ssl_flag_and_ssl_ca py_int env cfg :
  DBConfig_init py_int env = Ok cfg ->
  (ssl_disabled cfg = true <->
   env !! "SSL_DISABLED" = None \/ env !! "SSL_DISABLED" = Some "True") /\
  (forall v, env !! "SSL_DISABLED" = Some v -> v <> "True" ->
     ssl_disabled cfg = false) /\
  (ssl_disabled cfg = false ->
     connection_params cfg !! "ssl_ca" = Some (VStr "/etc/ssl/cert.pem")) /\
  (ssl_disabled cfg = true -> connection_params cfg !! "ssl_ca" = None).
Proof.
  intros Hload.
  destruct (DBConfig_init_inv _ _ _ Hload) as (_ & _ & Hssl).
  rewrite Hssl. unfold getenv.
  repeat split.
  - destruct (env !! "SSL_DISABLED") as [v|]; [|by left].
    intros ->%String.eqb_eq. by right.
  - intros [->| ->]; reflexivity.
  - intros v -> Hv. by apply String.eqb_neq.
  - intros H. rewrite connection_params_ssl_ca, Hssl. unfold getenv. by rewrite H.
  - intros H. rewrite connection_params_ssl_ca, Hssl. unfold getenv. by rewrite H.
Qed.

Lemma C10_witness_lowercase_true :
  DBConfig_init int_of_decimal lowercase_true_env = Ok tls_config /\
  ssl_disabled tls_config = false /\
  connection_params tls_config !! "ssl_ca" = Some (VStr "/etc/ssl/cert.pem").
Proof.
  assert (H : DBConfig_init int_of_decimal lowercase_true_env = Ok tls_config)
    by reflexivity.
  destruct (C10_ssl_flag_and_ssl_ca int_of_decimal lowercase_true_env tls_config H)
    as (_ & Hoff & Hca & _).
  split; [exact H|].
  assert (Hflag : ssl_disabled tls_config = false).
  { apply (Hoff "true"); [reflexivity | discriminate]. }
  split; [exact Hflag | exact (Hca Hflag)].
Defined.

(** The value ["1"] does not disable TLS either. *)
Example ssl_disabled_one :
  ssl_disabled <$> (match DBConfig_init int_of_decimal {["SSL_DISABLED" := "1"]} with
                    | Ok cfg => Some cfg
                    | Raise _ => None
                    end) = Some false.
Proof. reflexivity. Qed.

(** ** Statement texts *)

Lemma executed_sql_only q evs :
  Forall (executes_only q) evs -> forall s, In s (executed_sql evs) -> s = q.
Proof.
  induction 1 as [|ev evs Hev _ IH]; intros s; simpl; [done|].
  destruct ev; simpl; auto.
  intros [<-|Hin]; [|by apply IH]. by eapply Hev.
Qed.

(** C7: for two requests on the same route, whatever their data and
    whatever the worlds they are served in, every statement text handed to
    [cursor.execute] is the same text: the data travel in the separate
    sequence of bound parameters and never reach the text. *)
Theorem C7_statement_text_independent_of_data r1 r2 w1 w2 q1 q2 :
  route_of r1 = route_of r2 ->
  In q1 (executed_sql (new_events w1 (snd (serve r1 w1)))) ->
  In q2 (executed_sql (new_events w2 (snd (serve r2 w2)))) ->
  q1 = q2.
Proof.
  intros Hroute. rewrite !serve_world.
  destruct (handler_frame (route_of r1)) as [q Hq].
  destruct (Hq r1 eq_refl w1) as (_ & _ & evs1 & Ht1 & Hev1).
  destruct (Hq r2 (eq_sym Hroute) w2) as (_ & _ & evs2 & Ht2 & Hev2).
  rewrite (new_events_app _ _ _ Ht1), (new_events_app _ _ _ Ht2).
  intros H1%(executed_sql_only q) H2%(executed_sql_only q); congruence.
Qed.

Lemma C7_witness_two_clients :
  route_of (POST_clientes jane) = route_of (POST_clientes mallory) /\
  executed_sql (new_events fresh_world (snd (serve (POST_clientes jane) fresh_world)))
    = executed_sql
        (new_events fresh_world (snd (serve (POST_clientes mallory) fresh_world))).
Proof.
  split; [reflexivity|].
  assert (H1 : executed_sql
                 (new_events fresh_world (snd (serve (POST_clientes jane) fresh_world)))
               = ["INSERT INTO clientes (numero_identificacion, nombre_cliente, telefono_cliente, email_cliente) VALUES (%s, %s, %s, %s)"])
    by reflexivity.
  assert (H2 : exists q2,
             executed_sql
               (new_events fresh_world (snd (serve (POST_clientes mallory) fresh_world)))
             = [q2]) by (eexists; reflexivity).
  destruct H2 as [q2 H2]. rewrite H1, H2. f_equal.
  apply (C7_statement_text_independent_of_data
           (POST_clientes jane) (POST_clientes mallory) fresh_world fresh_world).
  - reflexivity.
  - rewrite H1. by left.
  - rewrite H2. by left.
Defined.

(** ** Validation *)

(** The client and supplier handlers refuse a body with an empty required
    field before anything else happens: the response is a 400 and the world
    is the one they were given. *)
Lemma validation_refuses r w :
  passes_validation r = false ->
  status (fst (serve r w)) = 400 /\ snd (serve r w) = w.
Proof.
  destruct r; simpl; try discriminate; intros Hv; unfold serve; simpl.
  - unfold create_cliente. apply negb_false_iff in Hv. by rewrite Hv.
  - unfold update_cliente. apply negb_false_iff in Hv. by rewrite Hv.
  - unfold create_proveedor. by rewrite Hv.
  - unfold update_proveedor. by rewrite Hv.
Qed.

(** C5 fails on the employee handlers: [create_empleado] makes no check at
    all, so a body with an empty name is inserted and answered with 201,
    where the client handler refuses the same kind of body with a 400 and
    issues no query. *)
Lemma C5_create_empleado_accepts_empty_name :
  EmpleadoCreate.nombre nameless_empleado = "" /\
  status (fst (serve (POST_empleados nameless_empleado) fresh_world)) = 201 /\
  executed_sql (trace (snd (serve (POST_empleados nameless_empleado) fresh_world)))
    = ["INSERT INTO empleados (nombre, puesto, salario) VALUES (%s, %s, %s)"] /\
  rows_of (committed (snd (serve (POST_empleados nameless_empleado) fresh_world)))
    "empleados"
    = [[("id", VInt 1); ("nombre", VStr ""); ("puesto", VStr "Dev");
        ("salario", VFloat float_1000)]] /\
  status (fst (serve (POST_clientes nameless_cliente) fresh_world)) = 400 /\
  snd (serve (POST_clientes nameless_cliente) fresh_world) = fresh_world.
Proof. vm_compute. repeat split. Qed.

(** ** The store, statement by statement *)

Lemma with_rows_same tb : with_rows tb (t_rows tb) (t_auto_increment tb) = tb.
Proof. by destruct tb. Qed.

Lemma run_update_no_match t cols c params db tb :
  db !! t = Some tb ->
  forallb (data_column tb) cols = true ->
  where_column tb c = true ->
  length params = S (length cols) ->
  Forall (fun row => matches c (default VNone (last params)) row = false) (t_rows tb) ->
  run_statement (UpdateWhere t cols c) params db =
    Ok (db, {| c_rows := []; c_rowcount := 0; c_lastrowid := None |}).
Proof.
  intros Ht Hcols Hc Hlen Hrows. simpl. rewrite Ht, Hcols, Hc. simpl.
  rewrite Hlen, Nat.eqb_refl. simpl.
  set (rw := fun r : Row => if matches c (default VNone (last params)) r then _ else r).
  assert (Hsame : Forall (fun r => rw r = r) (t_rows tb)).
  { eapply Forall_impl; [exact Hrows|]. intros r Hr. unfold rw. by rewrite Hr. }
  assert (Hmap : map rw (t_rows tb) = t_rows tb).
  { clear -Hsame. induction Hsame; simpl; congruence. }
  assert (Hfil : filter (fun r => rw r <> r) (t_rows tb) = []).
  { clear -Hsame. induction Hsame as [|r l Hr _ IH]; [done|].
    rewrite filter_cons. by destruct (decide (rw r <> r)). }
  rewrite Hmap. subst rw. cbv beta in Hfil. rewrite Hfil, with_rows_same, insert_id by done. reflexivity.
Qed.

Lemma run_delete_no_match t c v db tb :
  db !! t = Some tb ->
  where_column tb c = true ->
  Forall (fun row => matches c v row = false) (t_rows tb) ->
  run_statement (DeleteWhere t c) [v] db =
    Ok (db, {| c_rows := []; c_rowcount := 0; c_lastrowid := None |}).
Proof.
  intros Ht Hc Hrows. simpl. rewrite Ht, Hc. simpl.
  assert (Hkept : filter (fun r => matches c v r = false) (t_rows tb) = t_rows tb).
  { clear -Hrows. induction Hrows as [|r l Hr _ IH]; [done|].
    rewrite filter_cons. destruct (decide _); congruence. }
  assert (Hgone : filter (fun r => matches c v r = true) (t_rows tb) = []).
  { clear -Hrows. induction Hrows as [|r l Hr _ IH]; [done|].
    rewrite filter_cons. destruct (decide _); congruence. }
  rewrite Hkept, Hgone, with_rows_same, insert_id by done. reflexivity.
Qed.

Lemma run_insert t cols params db tb :
  db !! t = Some tb ->
  forallb (data_column tb) cols = true ->
  length params = length cols ->
  run_statement (InsertInto t cols) params db =
    Ok (<[t := with_rows tb (t_rows tb ++ [new_row tb cols params])
                 (t_auto_increment tb + 1)]> db,
        {| c_rows := []; c_rowcount := 1; c_lastrowid := Some (t_auto_increment tb) |}).
Proof.
  intros Ht Hcols Hlen. simpl. rewrite Ht, Hcols, Hlen, Nat.eqb_refl. reflexivity.
Qed.

Lemma run_select_where t c v db tb :
  db !! t = Some tb ->
  where_column tb c = true ->
  run_statement (SelectWhere t c) [v] db =
    Ok (db, {| c_rows := filter (fun r => matches c v r = true) (t_rows tb);
               c_rowcount := -1; c_lastrowid := None |}).
Proof. intros Ht Hc. simpl. by rewrite Ht, Hc. Qed.

Lemma ids_below_next_unused tb :
  ids_below tb ->
  Forall (fun row => matches (t_id_column tb) (VInt (t_auto_increment tb)) row = false)
    (t_rows tb).
Proof.
  unfold ids_below. intros H. eapply Forall_impl; [exact H|]. simpl. intros row (i & Hi & Hlt).
  unfold matches. rewrite Hi. simpl. apply bool_decide_eq_false. intros [= ->]. lia.
Qed.

Lemma filter_none {A} (P : A -> Prop) `{!forall x, Decision (P x)} (l : list A) :
  Forall (fun x => ~ P x) l -> filter P l = [].
Proof.
  induction 1 as [|x l Hx _ IH]; [done|].
  rewrite filter_cons. by destruct (decide (P x)).
Qed.

Lemma select_new_row tb cols params :
  ids_below tb ->
  filter (fun r => matches (t_id_column tb) (VInt (t_auto_increment tb)) r = true)
    (t_rows tb ++ [new_row tb cols params])
  = [new_row tb cols params].
Proof.
  intros Hids. rewrite filter_app, filter_none.
  - rewrite filter_cons. simpl.
    unfold matches, new_row. simpl. rewrite String.eqb_refl. simpl.
    rewrite bool_decide_eq_true_2 by done. by rewrite decide_True.
  - eapply Forall_impl; [apply ids_below_next_unused, Hids|].
    simpl. intros r ->. done.
Qed.

Lemma py_row_new_row tb cols params idcol :
  t_id_column tb = idcol ->
  t_columns tb = cols ->
  py_row (new_row tb cols params) =
    PDict ((idcol, PScalar (VInt (t_auto_increment tb)))
             :: map (fun c => (c, PScalar (default VNone (dict_get c (combine cols params)))))
                  cols).
Proof.
  intros <- <-. unfold py_row, new_row. simpl. f_equal. f_equal.
  rewrite map_map. reflexivity.
Qed.

(** ** The handlers on a healthy world *)

Lemma healthy_after q ps fo fa lr w db c :
  healthy w ->
  server_execute q (params_or_empty ps) (committed w) = Ok (db, c) ->
  healthy (snd (execute_query q ps fo fa lr w)).
Proof.
  intros Hw Hs.
  destruct (execute_query_healthy q ps fo fa lr w db c Hw Hs)
    as (_ & _ & _ & _ & Hp & Hf & _).
  destruct Hw as [Hfw (p & n & Hpw & Hn)].
  split; [congruence|]. exists p, n. split; congruence.
Qed.

(** The shape of the update and delete handlers after their validation. *)
Lemma zero_count_flow q ps detail (k : PyVal) w c :
  healthy w ->
  server_execute q (params_or_empty ps) (committed w) = Ok (committed w, c) ->
  c_rowcount c = 0 ->
  let m := (do affected_rows <- execute_query q ps false false false;
            if eq_zero affected_rows then raise (HTTPException 404 detail)
            else ret k) in
  fst (m w) = Raise (HTTPException 404 detail) /\
  committed (snd (m w)) = committed w /\
  In (EvExecute q (params_or_empty ps)) (new_events w (snd (m w))) /\
  fst (execute_query q ps false false false w) = Ok (PScalar (VInt 0)).
Proof.
  intros Hw Hs Hc m.
  destruct (execute_query_healthy q ps false false false w _ c Hw Hs)
    as (Hres & Hev & Hcom & _).
  simpl in Hres. rewrite Hc in Hres.
  subst m. unfold bind.
  destruct (execute_query q ps false false false w) as [r w1]. simpl in *.
  subst r. simpl. unfold raise. simpl.
  repeat split; try done. rewrite Hev. simpl. auto.
Qed.

Lemma create_flow q ps idf fields w db id :
  healthy w ->
  server_execute q (params_or_empty ps) (committed w)
    = Ok (db, {| c_rows := []; c_rowcount := 1; c_lastrowid := Some id |}) ->
  let m := except_Exception_500
             (do x <- execute_query q ps false false true;
              ret (PDict (dict_set idf x fields))) in
  fst (m w) = Ok (PDict (dict_set idf (PScalar (VInt id)) fields)) /\
  committed (snd (m w)) = db /\
  healthy (snd (m w)).
Proof.
  intros Hw Hs m.
  pose proof (healthy_after q ps false false true w _ _ Hw Hs) as Hh.
  destruct (execute_query_healthy q ps false false true w _ _ Hw Hs)
    as (Hres & _ & Hcom & _).
  simpl in Hres. subst m. unfold except_Exception_500, try_except, bind, ret.
  destruct (execute_query q ps false false true w) as [r w1]. simpl in *.
  subst r. simpl. split; [done|]. split; [done|exact Hh].
Qed.

Lemma get_flow q ps detail w c row rest :
  healthy w ->
  server_execute q (params_or_empty ps) (committed w) = Ok (committed w, c) ->
  c_rows c = row :: rest ->
  row <> [] ->
  let m := (do x <- execute_query q ps true false false;
            if negb (truthy x) then raise (HTTPException 404 detail)
            else ret x) in
  fst (m w) = Ok (py_row row).
Proof.
  intros Hw Hs Hc Hrow m.
  destruct (execute_query_healthy q ps true false false w _ _ Hw Hs) as (Hres & _).
  simpl in Hres. rewrite Hc in Hres.
  subst m. unfold bind.
  destruct (execute_query q ps true false false w) as [r w1]. simpl in *.
  subst r. destruct row; [done|]. reflexivity.
Qed.

Lemma get_missing_flow q ps detail w c :
  healthy w ->
  server_execute q (params_or_empty ps) (committed w) = Ok (committed w, c) ->
  c_rows c = [] ->
  let m := (do x <- execute_query q ps true false false;
            if negb (truthy x) then raise (HTTPException 404 detail)
            else ret x) in
  fst (m w) = Raise (HTTPException 404 detail).
Proof.
  intros Hw Hs Hc m.
  destruct (execute_query_healthy q ps true false false w _ _ Hw Hs) as (Hres & _).
  simpl in Hres. rewrite Hc in Hres.
  subst m. unfold bind.
  destruct (execute_query q ps true false false w) as [r w1]. simpl in *.
  by subst r.
Qed.

Lemma serve_status r w :
  status (fst (serve r w)) =
    match fst (handler r w) with
    | Ok _ => success_status (route_of r)
    | Raise (HTTPException code _) => code
    | Raise _ => 500
    end.
Proof. unfold serve. by destruct (handler r w) as [[v|[]] w']. Qed.

Lemma serve_eq r w :
  serve r w =
    (match fst (handler r w) with
     | Ok v => {| status := success_status (route_of r); content := v |}
     | Raise (HTTPException code detail) =>
         {| status := code; content := PDict [("detail", PScalar (VStr detail))] |}
     | Raise _ =>
         {| status := 500; content := PScalar (VStr "Internal Server Error") |}
     end, snd (handler r w)).
Proof. unfold serve. by destruct (handler r w) as [[v|[]] w']. Qed.

(** A create, then a read of the record under the identifier the create
    returned, on a table that assigns identifiers. *)
Lemma round_trip name idcol cols qi qs ps fields detail w tb :
  healthy w ->
  committed w !! name = Some tb ->
  t_id_column tb = idcol ->
  t_columns tb = cols ->
  ids_below tb ->
  parse_statement qi = Some (InsertInto name cols) ->
  parse_statement qs = Some (SelectWhere name idcol) ->
  length ps = length cols ->
  map (fun c => (c, PScalar (default VNone (dict_get c (combine cols ps))))) cols
    = fields ->
  let create :=
    except_Exception_500
      (do x <- execute_query qi (Some ps) false false true;
       ret (PDict (dict_set idcol x fields))) in
  let get := fun id : Z =>
    (do x <- execute_query qs (Some [VInt id]) true false false;
     if negb (truthy x) then raise (HTTPException 404 detail) else ret x) in
  fst (get (t_auto_increment tb) w) = Raise (HTTPException 404 detail) /\
  fst (create w) =
    Ok (PDict (dict_set idcol (PScalar (VInt (t_auto_increment tb))) fields)) /\
  fst (get (t_auto_increment tb) (snd (create w))) =
    Ok (PDict ((idcol, PScalar (VInt (t_auto_increment tb))) :: fields)).
Proof.
  intros Hw Htb Hid Hcols Hids Hqi Hqs Hlen Hfields create get.
  assert (Hparams : params_or_empty (Some ps) = ps) by by destruct ps.
  assert (Hdata : forallb (data_column tb) cols = true).
  { rewrite <- Hcols. apply forallb_forall. intros c Hc.
    unfold data_column. apply existsb_exists. exists c.
    split; [done | apply String.eqb_refl]. }
  assert (Hwhere : forall tb', t_id_column tb' = idcol -> where_column tb' idcol = true).
  { intros tb' <-. unfold where_column. by rewrite String.eqb_refl. }
  split; [|split].
  - apply (get_missing_flow qs (Some [VInt (t_auto_increment tb)]) detail w
             {| c_rows := filter (fun r => matches idcol (VInt (t_auto_increment tb)) r = true)
                            (t_rows tb);
                c_rowcount := -1; c_lastrowid := None |}); [done| |].
    + unfold server_execute. rewrite Hqs.
      apply (run_select_where _ _ _ _ tb); auto.
    + simpl. rewrite <- Hid. apply filter_none.
      eapply Forall_impl; [apply ids_below_next_unused, Hids|].
      simpl. intros ? ->. done.
  - eapply create_flow; [done|].
    unfold server_execute. rewrite Hqi, Hparams.
    apply run_insert; auto.
  - edestruct (create_flow qi (Some ps) idcol fields w) as (_ & Hcom & Hw1); [done| |].
    { unfold server_execute. rewrite Hqi, Hparams. apply run_insert; eauto. }
    fold create in Hcom, Hw1.
    rewrite <- Hfields, <- (py_row_new_row tb cols ps idcol Hid Hcols).
    apply (get_flow qs (Some [VInt (t_auto_increment tb)]) detail (snd (create w))
             {| c_rows := [new_row tb cols ps]; c_rowcount := -1; c_lastrowid := None |}
             (new_row tb cols ps) []); [done| |done|done].
    rewrite Hcom. unfold server_execute. rewrite Hqs. cbn [params_or_empty].
    erewrite run_select_where; [|apply lookup_insert_eq|by apply Hwhere].
    simpl. pose proof (select_new_row tb cols ps Hids) as Hsel.
    rewrite Hid in Hsel. by rewrite Hsel.
Qed.

Ltac parse_sql :=
  match goal with
  | |- context [parse_statement ?q] =>
      let p := eval vm_compute in (parse_statement q) in
      change (parse_statement q) with p
  end.

Ltac known_columns Hid Hcols :=
  unfold where_column, data_column; rewrite ?Hid, ?Hcols; reflexivity.

Ltac not_found_case w Hw Hok Hnone name idcol :=
  let tb := fresh "tb" in
  let Htb := fresh "Htb" in
  let Hid := fresh "Hid" in
  let Hcols := fresh "Hcols" in
  destruct (Hok name idcol _ ltac:(simpl; tauto)) as (tb & Htb & Hid & Hcols & _);
  unfold no_row_with_id, rows_of in Hnone; rewrite Htb in Hnone;
  match goal with
  | |- context [bind (execute_query ?q (Some ?ps) false false false)] =>
      let Hs := fresh "Hs" in
      assert (Hs : server_execute q (params_or_empty (Some ps)) (committed w)
                   = Ok (committed w, {| c_rows := []; c_rowcount := 0;
                                         c_lastrowid := None |}));
      [ unfold server_execute; parse_sql;
        first [ apply run_update_no_match with tb
              | apply run_delete_no_match with tb ];
        solve [ done | known_columns Hid Hcols | exact Hnone ]
      | let H1 := fresh in let H2 := fresh in let H3 := fresh in let H4 := fresh in
        epose proof (zero_count_flow q (Some ps) _ _ w _ Hw Hs eq_refl)
          as (H1 & H2 & H3 & H4);
        rewrite H1, H2;
        split; [reflexivity|]; split; [reflexivity|];
        eexists _, _; split; [exact H3 | exact H4] ]
  end.

(** ** Well-formed stores stay well formed *)

Lemma schema_id_not_data name idcol cols :
  In (name, (idcol, cols)) schema -> ~ In idcol cols.
Proof.
  simpl. intros [[= <- <- <-]|[[= <- <- <-]|[[= <- <- <-]|[]]]]; simpl;
    intros H; repeat destruct H as [H|H]; discriminate || done.
Qed.

Lemma store_ok_empty : store_ok empty_store.
Proof.
  intros name idcol cols.
  simpl. intros [[= <- <- <-]|[[= <- <- <-]|[[= <- <- <-]|[]]]];
    eexists; (split; [reflexivity|]); repeat split; constructor.
Qed.

Lemma dict_get_set_other {V} k k' (v : V) d :
  k <> k' -> dict_get k (dict_set k' v d) = dict_get k d.
Proof.
  intros Hne. induction d as [|[k0 v0] d IH]; simpl.
  - by rewrite (proj2 (String.eqb_neq k k')).
  - destruct (String.eqb k' k0) eqn:E1; simpl.
    + apply String.eqb_eq in E1 as <-.
      by rewrite (proj2 (String.eqb_neq k k')).
    + destruct (String.eqb k k0); [done | apply IH].
Qed.

Lemma dict_get_assign k cols vals (r : Row) :
  ~ In k cols -> dict_get k (assign cols vals r) = dict_get k r.
Proof.
  unfold assign. revert vals r.
  induction cols as [|c cols IH]; intros vals r Hk; [done|].
  destruct vals as [|v vals]; [done|]. simpl.
  rewrite IH by (intros ?; apply Hk; by right).
  apply dict_get_set_other. intros ->. apply Hk. by left.
Qed.

Lemma data_columns_in tb cols :
  forallb (data_column tb) cols = true -> forall c, In c cols -> In c (t_columns tb).
Proof.
  intros H c Hc. rewrite forallb_forall in H. specialize (H c Hc).
  unfold data_column in H. apply existsb_exists in H as (c' & Hc' & Heq).
  by apply String.eqb_eq in Heq as ->.
Qed.

Lemma store_ok_insert_table db t tb tb' :
  store_ok db ->
  db !! t = Some tb ->
  t_id_column tb' = t_id_column tb ->
  t_columns tb' = t_columns tb ->
  (ids_below tb -> ~ In (t_id_column tb) (t_columns tb) -> ids_below tb') ->
  store_ok (<[t := tb']> db).
Proof.
  intros Hok Ht Hid Hcols Hids name idcol cols Hin.
  destruct (Hok name idcol cols Hin) as (tb0 & Htb0 & Hid0 & Hcols0 & Hids0).
  destruct (decide (name = t)) as [->|Hne].
  - rewrite Ht in Htb0. injection Htb0 as <-.
    exists tb'. rewrite lookup_insert_eq. repeat split; try congruence.
    apply Hids; [done|]. rewrite Hid0, Hcols0. by eapply schema_id_not_data.
  - exists tb0. by rewrite lookup_insert_ne.
Qed.

Lemma run_statement_store_ok st params db db' c :
  store_ok db -> run_statement st params db = Ok (db', c) -> store_ok db'.
Proof.
  intros Hok. destruct st as [t|t col|t cols|t cols col|t col|name]; simpl;
    [| | | | |destruct params; [by intros [= <- _] | discriminate]];
    destruct (db !! t) as [tb|] eqn:Ht; try discriminate.
  - destruct params; [|discriminate]. by intros [= <- _].
  - destruct (negb (where_column tb col)); [discriminate|].
    destruct params as [|v [|]]; try discriminate. by intros [= <- _].
  - destruct (negb (forallb (data_column tb) cols)); [discriminate|].
    destruct (negb (length params =? length cols)%nat); [discriminate|].
    intros [= <- _]. apply (store_ok_insert_table db t tb); try done.
    intros Hids _. unfold ids_below. simpl. apply Forall_app. split.
    + eapply Forall_impl; [exact Hids|]. simpl. intros r (i & Hi & Hlt).
      exists i. split; [done | lia].
    + constructor; [|constructor]. exists (t_auto_increment tb).
      unfold new_row. simpl. rewrite String.eqb_refl. split; [done | lia].
  - destruct (forallb (data_column tb) cols) eqn:Hcols; [|discriminate].
    destruct (where_column tb col); [|discriminate]. simpl.
    destruct (negb (length params =? S (length cols))%nat); [discriminate|].
    intros [= <- _]. apply (store_ok_insert_table db t tb); try done.
    intros Hids Hnot. unfold ids_below. simpl. apply Forall_map.
    eapply Forall_impl; [exact Hids|]. simpl. intros r (i & Hi & Hlt).
    exists i. split; [|done].
    destruct (matches col _ r); [|done].
    rewrite dict_get_assign; [done|].
    intros Hin. apply Hnot. by eapply data_columns_in.
  - destruct (negb (where_column tb col)); [discriminate|].
    destruct params as [|v [|]]; try discriminate.
    intros [= <- _]. apply (store_ok_insert_table db t tb); try done.
    intros Hids _. unfold ids_below. simpl.
    apply Forall_forall. intros r [_ Hr]%list_elem_of_filter.
    unfold ids_below in Hids. rewrite Forall_forall in Hids. by apply Hids.
Qed.

Lemma server_execute_store_ok q params db db' c :
  store_ok db -> server_execute q params db = Ok (db', c) -> store_ok db'.
Proof.
  unfold server_execute. destruct (parse_statement q); [|discriminate].
  apply run_statement_store_ok.
Qed.

#[global] Instance keeps_store_preorder : PreOrder keeps_store.
Proof. split; unfold keeps_store; [intros w; tauto | intros w1 w2 w3; tauto]. Qed.

Ltac store_step :=
  intros [cfg pool com ses cur [f1 f2 f3 f4 f5 f6 f7] tr];
  unfold keeps_store, store_inv, pool_get_connection, conn_close, conn_cursor,
    cursor_fetchone, cursor_fetchall, conn_commit, cursor_close;
  simpl; repeat case_match; simpl; tauto.

Lemma store_acquire : preserves keeps_store pool_get_connection.
Proof. store_step. Qed.

Lemma store_release c : preserves keeps_store (conn_close c).
Proof. store_step. Qed.

Lemma store_cursor c : preserves keeps_store (conn_cursor c).
Proof. store_step. Qed.

Lemma store_cursor_close c : preserves keeps_store (cursor_close c).
Proof. store_step. Qed.

Lemma store_fetchone c : preserves keeps_store (cursor_fetchone c).
Proof. store_step. Qed.

Lemma store_fetchall c : preserves keeps_store (cursor_fetchall c).
Proof. store_step. Qed.

Lemma store_commit c : preserves keeps_store (conn_commit c).
Proof. store_step. Qed.

Lemma store_execute c q ps : preserves keeps_store (cursor_execute c q ps).
Proof.
  intros w. unfold keeps_store, store_inv, cursor_execute.
  destruct (f_execute (faults w)); [simpl; tauto|].
  destruct (server_execute q ps (session w)) as [[db cs]|e] eqn:Hs; simpl; [|tauto].
  intros [Hc Hsn]. split; [done|]. by eapply server_execute_store_ok.
Qed.

Lemma store_execute_query q ps fo fa lr :
  preserves keeps_store (execute_query q ps fo fa lr).
Proof.
  apply preserves_execute_query;
    auto using store_acquire, store_release, store_cursor, store_cursor_close,
      store_execute, store_fetchone, store_fetchall, store_commit; apply _.
Qed.

Lemma store_handler r : preserves keeps_store (handler r).
Proof.
  destruct r; simpl.
  - unfold get_empleados. handler_steps_with store_execute_query.
  - unfold get_empleado. handler_steps_with store_execute_query.
  - unfold create_empleado. handler_steps_with store_execute_query.
  - unfold update_empleado. handler_steps_with store_execute_query.
  - unfold delete_empleado. handler_steps_with store_execute_query.
  - unfold get_clientes. handler_steps_with store_execute_query.
  - unfold get_cliente. handler_steps_with store_execute_query.
  - unfold create_cliente. handler_steps_with store_execute_query.
  - unfold update_cliente. handler_steps_with store_execute_query.
  - unfold delete_cliente. handler_steps_with store_execute_query.
  - unfold get_proveedores. handler_steps_with store_execute_query.
  - unfold get_proveedor. handler_steps_with store_execute_query.
  - unfold create_proveedor. handler_steps_with store_execute_query.
  - unfold update_proveedor. handler_steps_with store_execute_query.
  - unfold delete_proveedor. handler_steps_with store_execute_query.
Qed.

(** Whatever requests are served and whatever faults they meet, the tables
    stay well formed. *)
Lemma serve_all_keeps_store rs w :
  store_inv w -> store_inv (snd (serve_all rs w)).
Proof.
  revert w. induction rs as [|[f r] rs IH]; intros w Hw; [done|].
  simpl. pose proof (store_handler r (set_faults f w) Hw) as H1.
  rewrite <- serve_world in H1.
  destruct (serve r (set_faults f w)) as [resp w1]. simpl in H1.
  specialize (IH w1 H1). by destruct (serve_all rs w1) as [resps w2].
Qed.

Lemma store_inv_started cfg p f : store_inv (started cfg p empty_store f).
Proof. split; apply store_ok_empty. Qed.

(** ** Updates and deletes that find no row *)

(** C4, as the claim states it, fails for an update whose body lacks a
    required field: the client handler answers 400 before it reaches the
    executor, whether or not the identifier exists. *)
Lemma C4_counterexample_update_with_empty_name :
  target (PUT_cliente 99 nameless_cliente) = Some ("clientes", "id_cliente", 99) /\
  no_row_with_id (committed fresh_world) "clientes" "id_cliente" 99 /\
  status (fst (serve (PUT_cliente 99 nameless_cliente) fresh_world)) = 400 /\
  snd (serve (PUT_cliente 99 nameless_cliente) fresh_world) = fresh_world.
Proof.
  split; [reflexivity|]. split; [|split; reflexivity].
  unfold no_row_with_id. change (rows_of _ _) with (@nil Row). constructor.
Qed.

(** C4 (amended): for every delete request, and every update request whose
    body passes the required-field check of its handler, on any of the three
    resources, served by a healthy world whose tables hold no row with the
    requested identifier: the statement the handler sends makes the executor
    return a zero affected-row count, the response is a 404, and the
    committed tables are what they were. *)
Theorem C4_update_delete_unknown_id r w table idcol id :
  healthy w ->
  store_ok (committed w) ->
  target r = Some (table, idcol, id) ->
  passes_validation r = true ->
  no_row_with_id (committed w) table idcol id ->
  status (fst (serve r w)) = 404 /\
  committed (snd (serve r w)) = committed w /\
  exists q ps,
    In (EvExecute q ps) (new_events w (snd (serve r w))) /\
    fst (execute_query q (Some ps) false false false w) = Ok (PScalar (VInt 0)).
Proof.
  intros Hw Hok Ht Hv Hnone.
  rewrite serve_status, !serve_world.
  destruct r; simpl in Ht; try discriminate; injection Ht as <- <- <-;
    simpl in Hv; simpl handler.
  - unfold update_empleado. not_found_case w Hw Hok Hnone "empleados" "id".
  - unfold delete_empleado. not_found_case w Hw Hok Hnone "empleados" "id".
  - unfold update_cliente. apply negb_true_iff in Hv. rewrite Hv.
    not_found_case w Hw Hok Hnone "clientes" "id_cliente".
  - unfold delete_cliente. not_found_case w Hw Hok Hnone "clientes" "id_cliente".
  - unfold update_proveedor. rewrite Hv. change (negb true) with false. cbv iota.
    not_found_case w Hw Hok Hnone "proveedores" "id_proveedor".
  - unfold delete_proveedor. not_found_case w Hw Hok Hnone "proveedores" "id_proveedor".
Qed.


Lemma healthy_one_client_world : healthy one_client_world.
Proof. split; [reflexivity|]. by exists default_pool, 2%nat. Qed.

Lemma store_ok_one_client_world : store_ok (committed one_client_world).
Proof.
  unfold one_client_world. rewrite serve_world.
  apply (store_handler (POST_clientes jane) fresh_world).
  apply store_inv_started.
Qed.

Lemma C4_witness_update_unknown_client :
  healthy one_client_world /\
  store_ok (committed one_client_world) /\
  passes_validation (PUT_cliente 2 mallory) = true /\
  no_row_with_id (committed one_client_world) "clientes" "id_cliente" 2 /\
  status (fst (serve (PUT_cliente 2 mallory) one_client_world)) = 404 /\
  committed (snd (serve (PUT_cliente 2 mallory) one_client_world))
    = committed one_client_world.
Proof.
  assert (Hnone : no_row_with_id (committed one_client_world) "clientes" "id_cliente" 2).
  { unfold no_row_with_id.
    change (rows_of _ _) with
      [[("id_cliente", VInt 1); ("numero_identificacion", VStr "A1");
        ("nombre_cliente", VStr "Jane"); ("telefono_cliente", VStr "555-0100");
        ("email_cliente", VNone)]].
    by repeat constructor. }
  split; [exact healthy_one_client_world|].
  split; [exact store_ok_one_client_world|].
  split; [reflexivity|]. split; [exact Hnone|].
  destruct (C4_update_delete_unknown_id (PUT_cliente 2 mallory) one_client_world
              "clientes" "id_cliente" 2
              healthy_one_client_world store_ok_one_client_world
              eq_refl eq_refl Hnone) as (H1 & H2 & _).
  split; [exact H1 | exact H2].
Defined.

(** ** Create, then read back *)

Ltac round_trip_case w Hw Hok name idcol fields open_handlers :=
  let tb := fresh "tb" in
  let Htb := fresh "Htb" in
  let Hid := fresh "Hid" in
  let Hcols := fresh "Hcols" in
  let Hids := fresh "Hids" in
  let H1 := fresh "H1" in
  let H2 := fresh "H2" in
  let H3 := fresh "H3" in
  destruct (Hok name idcol _ ltac:(simpl; tauto)) as (tb & Htb & Hid & Hcols & Hids);
  exists (t_auto_increment tb);
  rewrite !serve_eq;
  cbn [handler get_by_id id_field route_of success_status fst snd];
  open_handlers;
  match goal with
  | |- context [execute_query ?qi (Some ?ps) false false true] =>
      match goal with
      | |- context [execute_query ?qs _ true false false] =>
          match goal with
          | |- context [HTTPException 404 ?detail] =>
              destruct (round_trip name idcol _ qi qs ps fields detail w tb
                          Hw Htb Hid Hcols Hids eq_refl eq_refl eq_refl eq_refl)
                as (H1 & H2 & H3)
          end
      end
  end;
  rewrite H3, H2, H1; by repeat split.

(** In a healthy world with well-formed tables a create that passes the
    checks of its handler succeeds, and the get served right after it reads
    the record back. *)
Lemma create_then_get_in_healthy_world r w fields :
  healthy w ->
  store_ok (committed w) ->
  submitted r = Some fields ->
  passes_validation r = true ->
  exists id,
    status (fst (serve (get_by_id r id) w)) = 404 /\
    status (fst (serve r w)) = 201 /\
    content (fst (serve r w)) = PDict (fields ++ [(id_field r, PScalar (VInt id))]) /\
    status (fst (serve (get_by_id r id) (snd (serve r w)))) = 200 /\
    content (fst (serve (get_by_id r id) (snd (serve r w))))
      = PDict ((id_field r, PScalar (VInt id)) :: fields).
Proof.
  intros Hw Hok Hsub Hv.
  destruct r; simpl in Hsub; try discriminate; injection Hsub as <-;
    simpl in Hv.
  - round_trip_case w Hw Hok "empleados" "id" (EmpleadoCreate.dict empleado)
      ltac:(unfold create_empleado, get_empleado).
  - apply negb_true_iff in Hv.
    round_trip_case w Hw Hok "clientes" "id_cliente" (ClienteCreate.dict cliente)
      ltac:(unfold create_cliente, get_cliente; rewrite Hv).
  - round_trip_case w Hw Hok "proveedores" "id_proveedor"
      (ProveedorCreate.dict proveedor)
      ltac:(unfold create_proveedor, get_proveedor; rewrite Hv;
            change (negb true) with false; cbv iota).
Qed.

Lemma except_500_raises {A} (body : M World A) w e :
  fst (except_Exception_500 body w) = Raise e ->
  e = HTTPException 500 "Error interno del servidor".
Proof.
  unfold except_Exception_500, try_except, raise.
  destruct (body w) as [[a|e'] w1]; simpl; congruence.
Qed.

(** The shape of the create handlers after their validation. *)
Lemma create_ok_inv q ps idf fields w v :
  fst (except_Exception_500
         (do x <- execute_query q ps false false true;
          ret (PDict (dict_set idf x fields))) w) = Ok v ->
  exists db c,
    server_execute q (params_or_empty ps) (committed w) = Ok (db, c) /\
    v = PDict (dict_set idf (selected false false true c) fields) /\
    committed
      (snd (except_Exception_500
              (do x <- execute_query q ps false false true;
               ret (PDict (dict_set idf x fields))) w)) = db.
Proof.
  unfold except_Exception_500, try_except, bind, ret, raise.
  pose proof (execute_query_ok_inv q ps false false true w) as Hinv.
  destruct (execute_query q ps false false true w) as [[x|e] w1]; simpl in *;
    [|discriminate].
  intros [= <-]. destruct (Hinv x eq_refl) as (db & c & Hs & -> & Hcom).
  by exists db, c.
Qed.

(** A successful create leaves the table with one more row, under the
    identifier it returned. *)
Lemma created name idcol cols qi ps fields w tb v :
  committed w !! name = Some tb ->
  t_id_column tb = idcol ->
  t_columns tb = cols ->
  parse_statement qi = Some (InsertInto name cols) ->
  length ps = length cols ->
  fst (except_Exception_500
         (do x <- execute_query qi (Some ps) false false true;
          ret (PDict (dict_set idcol x fields))) w) = Ok v ->
  v = PDict (dict_set idcol (PScalar (VInt (t_auto_increment tb))) fields) /\
  committed
    (snd (except_Exception_500
            (do x <- execute_query qi (Some ps) false false true;
             ret (PDict (dict_set idcol x fields))) w))
    = <[name := with_rows tb (t_rows tb ++ [new_row tb cols ps])
                  (t_auto_increment tb + 1)]> (committed w).
Proof.
  intros Htb Hid Hcols Hqi Hlen Hok.
  destruct (create_ok_inv _ _ _ _ _ _ Hok) as (db & c & Hs & -> & ->).
  assert (Hparams : params_or_empty (Some ps) = ps) by by destruct ps.
  unfold server_execute in Hs. rewrite Hqi, Hparams in Hs.
  rewrite (run_insert name cols ps (committed w) tb Htb) in Hs.
  - by injection Hs as <- <-.
  - rewrite <- Hcols. apply forallb_forall. intros col Hc.
    unfold data_column. apply existsb_exists. exists col.
    split; [done | apply String.eqb_refl].
  - done.
Qed.

(** Reading a record back from a table whose last row it is. *)
Lemma read_back name idcol cols qs ps fields detail w db tb :
  healthy w ->
  committed w = <[name := with_rows tb (t_rows tb ++ [new_row tb cols ps])
                           (t_auto_increment tb + 1)]> db ->
  t_id_column tb = idcol ->
  t_columns tb = cols ->
  ids_below tb ->
  parse_statement qs = Some (SelectWhere name idcol) ->
  map (fun c => (c, PScalar (default VNone (dict_get c (combine cols ps))))) cols
    = fields ->
  fst ((do x <- execute_query qs (Some [VInt (t_auto_increment tb)]) true false false;
        if negb (truthy x) then raise (HTTPException 404 detail) else ret x) w)
    = Ok (PDict ((idcol, PScalar (VInt (t_auto_increment tb))) :: fields)).
Proof.
  intros Hw Hcom Hid Hcols Hids Hqs Hfields.
  rewrite <- Hfields, <- (py_row_new_row tb cols ps idcol Hid Hcols).
  apply (get_flow qs (Some [VInt (t_auto_increment tb)]) detail w
           {| c_rows := [new_row tb cols ps]; c_rowcount := -1; c_lastrowid := None |}
           (new_row tb cols ps) []); [done| |done|done].
  rewrite Hcom. unfold server_execute. rewrite Hqs. cbn [params_or_empty].
  erewrite run_select_where; [|apply lookup_insert_eq|].
  - simpl. pose proof (select_new_row tb cols ps Hids) as Hsel.
    rewrite Hid in Hsel. by rewrite Hsel.
  - unfold where_column. simpl. by rewrite Hid, String.eqb_refl.
Qed.

(** Before the create, nothing answers to the identifier. *)
Lemma not_yet name idcol qs detail w tb :
  healthy w ->
  committed w !! name = Some tb ->
  t_id_column tb = idcol ->
  ids_below tb ->
  parse_statement qs = Some (SelectWhere name idcol) ->
  fst ((do x <- execute_query qs (Some [VInt (t_auto_increment tb)]) true false false;
        if negb (truthy x) then raise (HTTPException 404 detail) else ret x) w)
    = Raise (HTTPException 404 detail).
Proof.
  intros Hw Htb Hid Hids Hqs.
  apply (get_missing_flow qs (Some [VInt (t_auto_increment tb)]) detail w
           {| c_rows := filter (fun r => matches idcol (VInt (t_auto_increment tb)) r = true)
                          (t_rows tb);
              c_rowcount := -1; c_lastrowid := None |}); [done| |].
  - unfold server_execute. rewrite Hqs.
    apply (run_select_where _ _ _ _ tb); [done|].
    unfold where_column. by rewrite Hid, String.eqb_refl.
  - simpl. rewrite <- Hid. apply filter_none.
    eapply Forall_impl; [apply ids_below_next_unused, Hids|].
    simpl. intros ? ->. done.
Qed.


Ltac created_case w Hok H201 name idcol fields open_create open_get :=
  let tb := fresh "tb" in
  let Htb := fresh "Htb" in
  let Hid := fresh "Hid" in
  let Hcols := fresh "Hcols" in
  let Hids := fresh "Hids" in
  let v := fresh "v" in
  let Hres := fresh "Hres" in
  let Hv := fresh "Hv" in
  let Hcom := fresh "Hcom" in
  destruct (Hok name idcol _ ltac:(simpl; tauto)) as (tb & Htb & Hid & Hcols & Hids);
  exists (t_auto_increment tb);
  rewrite serve_status in H201;
  rewrite (serve_eq _ w);
  cbn [handler route_of success_status id_field get_by_id fst snd] in H201 |- *;
  open_create;
  match goal with
  | |- context [execute_query ?qi (Some ?ps) false false true] =>
      match goal with
      | |- context [except_Exception_500 ?body w] =>
          destruct (fst (except_Exception_500 body w)) as [v|?] eqn:Hres;
          [ destruct (created name idcol _ qi ps fields w tb v
                        Htb Hid Hcols eq_refl eq_refl Hres) as [Hv Hcom];
            subst v; split; [reflexivity|]; split;
            [ intros w0 Hw0 Hc0; rewrite serve_status;
              cbn [handler]; open_get;
              match goal with
              | |- context [execute_query ?qs _ true false false] =>
                  match goal with
                  | |- context [HTTPException 404 ?detail] =>
                      rewrite (not_yet name idcol qs detail w0 tb Hw0
                                 ltac:(by rewrite Hc0) Hid Hids eq_refl)
                  end
              end; reflexivity
            | intros w2 Hw2 Hc2; rewrite serve_eq;
              cbn [handler route_of success_status fst snd]; open_get;
              match goal with
              | |- context [execute_query ?qs _ true false false] =>
                  match goal with
                  | |- context [HTTPException 404 ?detail] =>
                      rewrite (read_back name idcol _ qs ps fields detail w2
                                 (committed w) tb Hw2
                                 ltac:(by rewrite Hc2, <- Hcom) Hid Hcols Hids
                                 eq_refl eq_refl)
                  end
              end; by split ]
          | apply except_500_raises in Hres; subst; discriminate H201 ]
      end
  end.

(** C6: for every create answered with status 201, served over
    well-formed tables under any faults, there is an identifier no record
    answered to before such that the response is the submitted fields
    followed by that identifier, and a get of that identifier, served by a
    healthy world over the tables the create left, has status 200 and
    returns the identifier followed by exactly the submitted fields. *)
Theorem C6_create_then_get_round_trip r w fields :
  store_ok (committed w) ->
  submitted r = Some fields ->
  status (fst (serve r w)) = 201 ->
  exists id,
    content (fst (serve r w)) = PDict (fields ++ [(id_field r, PScalar (VInt id))]) /\
    (forall w0, healthy w0 -> committed w0 = committed w ->
       status (fst (serve (get_by_id r id) w0)) = 404) /\
    (forall w2, healthy w2 -> committed w2 = committed (snd (serve r w)) ->
       status (fst (serve (get_by_id r id) w2)) = 200 /\
       content (fst (serve (get_by_id r id) w2))
         = PDict ((id_field r, PScalar (VInt id)) :: fields)).
Proof.
  intros Hok Hsub H201.
  destruct r; simpl in Hsub; try discriminate; injection Hsub as <-.
  - created_case w Hok H201 "empleados" "id" (EmpleadoCreate.dict empleado)
      ltac:(unfold create_empleado in H201 |- *)
      ltac:(unfold get_empleado).
  - unfold serve in H201 at 1. simpl handler in H201. unfold create_cliente in H201.
    destruct (negb (str_truthy (ClienteCreate.numero_identificacion cliente))
              || negb (str_truthy (ClienteCreate.nombre_cliente cliente))
              || negb (str_truthy (ClienteCreate.telefono_cliente cliente))) eqn:Hv;
      [discriminate H201|].
    assert (H201' : status (fst (serve (POST_clientes cliente) w)) = 201).
    { unfold serve. simpl handler. unfold create_cliente. by rewrite Hv. }
    clear H201.
    created_case w Hok H201' "clientes" "id_cliente" (ClienteCreate.dict cliente)
      ltac:(unfold create_cliente in H201' |- *; rewrite Hv in H201' |- *)
      ltac:(unfold get_cliente).
  - unfold serve in H201 at 1. simpl handler in H201. unfold create_proveedor in H201.
    destruct (proveedor_all_fields proveedor) eqn:Hv; [|discriminate H201].
    assert (H201' : status (fst (serve (POST_proveedores proveedor) w)) = 201).
    { unfold serve. simpl handler. unfold create_proveedor. by rewrite Hv. }
    clear H201.
    created_case w Hok H201' "proveedores" "id_proveedor"
      (ProveedorCreate.dict proveedor)
      ltac:(unfold create_proveedor in H201' |- *; rewrite Hv in H201' |- *;
            change (negb true) with false in H201' |- *; cbv iota in H201' |- *)
      ltac:(unfold get_proveedor).
Qed.

(** The scenario of the specification: Jane, identification A1, phone
    555-0100. *)
Lemma C6_witness_jane :
  store_ok (committed fresh_world) /\
  status (fst (serve (POST_clientes jane) fresh_world)) = 201 /\
  exists id,
    content (fst (serve (POST_clientes jane) fresh_world))
      = PDict (ClienteCreate.dict jane ++ [("id_cliente", PScalar (VInt id))]) /\
    status (fst (serve (GET_cliente id) one_client_world)) = 200 /\
    content (fst (serve (GET_cliente id) one_client_world))
      = PDict (("id_cliente", PScalar (VInt id)) :: ClienteCreate.dict jane).
Proof.
  split; [exact store_ok_empty|]. split; [reflexivity|].
  destruct (C6_create_then_get_round_trip (POST_clientes jane) fresh_world
              (ClienteCreate.dict jane) store_ok_empty eq_refl eq_refl)
    as (id & Hcontent & _ & Hget).
  exists id. split; [exact Hcontent|].
  exact (Hget one_client_world healthy_one_client_world eq_refl).
Defined.

Example jane_gets_identifier_1 :
  fst (serve (POST_clientes jane) fresh_world) =
    {| status := 201;
       content := PDict [("numero_identificacion", PScalar (VStr "A1"));
                         ("nombre_cliente", PScalar (VStr "Jane"));
                         ("telefono_cliente", PScalar (VStr "555-0100"));
                         ("email_cliente", PScalar VNone);
                         ("id_cliente", PScalar (VInt 1))] |} /\
  fst (serve (GET_cliente 1) one_client_world) =
    {| status := 200;
       content := PDict [("id_cliente", PScalar (VInt 1));
                         ("numero_identificacion", PScalar (VStr "A1"));
                         ("nombre_cliente", PScalar (VStr "Jane"));
                         ("telefono_cliente", PScalar (VStr "555-0100"));
                         ("email_cliente", PScalar VNone)] |}.
Proof. split; reflexivity. Qed.

(** * The life cycle of a call to [execute_query] *)

Ltac explode_query w :=
  let pool := fresh "pool" in
  destruct w as [?cfg pool ?com ?ses ?cur [?f1 ?f2 ?f3 ?f4 ?f5 ?f6 ?f7] ?tr];
  destruct pool as [[?nm ?sz [|?fr]]|];
  unfold execute_query, get_db_cursor, get_db_connection, execute_query_body,
    pool_get_connection, conn_cursor, cursor_close, is_connected, conn_close,
    cursor_execute, cursor_fetchone, cursor_fetchall, conn_commit,
    cursor_lastrowid, cursor_rowcount, new_events,
    try_finally, try_except, bind, raise, ret in *;
  simpl in *;
  repeat match goal with
    | |- context [match ?x with _ => _ end] => is_var x; destruct x; simpl in *
    | |- context [match server_execute ?a ?b ?c with _ => _ end] =>
        destruct (server_execute a b c) as [[? ?]|?] eqn:?; simpl in *
    | |- context [match c_rows ?c with _ => _ end] =>
        destruct (c_rows c) eqn:?; simpl in *
    end.

Ltac no_lease :=
  match goal with
  | H : acquires _ |- _ =>
      destruct H as (? & ? & ? & ? & ?); simplify_eq/=
  | H : ~ acquires _ |- _ =>
      exfalso; apply H; unfold acquires; simpl; do 2 eexists; repeat split; reflexivity
  end.

Ltac leaf :=
  rewrite <- ?app_assoc, ?drop_app_length, ?drop_all;
  repeat split; intros;
  first [ reflexivity | congruence | (cbn; lia) | solve [no_lease]
        | solve [eexists; reflexivity] ].

(** X1: [get_db_cursor] closes the cursor exactly when it opened one.  A call
    of [execute_query] that leases a connection and gets its cursor closes
    that cursor once, whatever fails afterwards; a call whose cursor cannot
    be opened, or that gets no connection, closes none. *)
Theorem cursor_closed_exactly_when_opened q ps fo fa lr w :
  (acquires w -> f_cursor (faults w) = None ->
   count_event EvCursorClose (new_events w (snd (execute_query q ps fo fa lr w))) = 1%nat) /\
  (f_cursor (faults w) <> None ->
   count_event EvCursorClose (new_events w (snd (execute_query q ps fo fa lr w))) = O) /\
  (~ acquires w ->
   count_event EvCursorClose (new_events w (snd (execute_query q ps fo fa lr w))) = O).
Proof.
  explode_query w; leaf.
Qed.

Lemma query_without_connection q ps fo fa lr w :
  (connection_pool w = None ->
   execute_query q ps fo fa lr w =
     (Raise (RuntimeError "El pool de conexiones no está inicializado"), w)) /\
  (~ acquires w ->
   snd (execute_query q ps fo fa lr w) = w /\
   exists e, fst (execute_query q ps fo fa lr w) = Raise e).
Proof.
  explode_query w; leaf.
Qed.

(** X2: without a pool [execute_query] raises the [RuntimeError] of
    [get_db_connection] and does nothing else; and whenever no connection
    can be leased (no pool, an exhausted pool, or a refusal by the pool) the
    call raises and leaves the world as it was. *)
Theorem no_connection_nothing_touched q ps fo fa lr w :
  (connection_pool w = None ->
   execute_query q ps fo fa lr w =
     (Raise (RuntimeError "El pool de conexiones no está inicializado"), w)) /\
  (~ acquires w ->
   snd (execute_query q ps fo fa lr w) = w /\
   exists e, fst (execute_query q ps fo fa lr w) = Raise e).
Proof. exact (query_without_connection q ps fo fa lr w). Qed.

(** X3: the lease brackets the call.  When a connection is leased the first
    driver call of [execute_query] is the acquisition; when the connection
    still answers as connected afterwards the last one is its release, and
    when it does not, no release is issued.  A call that leases nothing makes
    no driver call it records. *)
Theorem lease_brackets_the_call q ps fo fa lr w :
  (acquires w ->
   head (new_events w (snd (execute_query q ps fo fa lr w))) = Some EvAcquire /\
   (f_is_connected (faults w) = true ->
    last (new_events w (snd (execute_query q ps fo fa lr w))) = Some EvRelease) /\
   (f_is_connected (faults w) = false ->
    count_event EvRelease (new_events w (snd (execute_query q ps fo fa lr w))) = O)) /\
  (~ acquires w -> new_events w (snd (execute_query q ps fo fa lr w)) = []).
Proof.
  explode_query w; leaf.
Qed.

(** X4: [execute_query] returns a value only when every driver call it made
    succeeded: a connection was leased, the cursor was opened, the statement
    ran, the fetch (for a read) or the commit (for a write) went through,
    and the cursor was closed without error. *)
Theorem returns_only_when_every_call_succeeded q ps fo fa lr w v :
  fst (execute_query q ps fo fa lr w) = Ok v ->
  acquires w /\
  f_cursor (faults w) = None /\
  f_execute (faults w) = None /\
  (if fo || fa then f_fetch (faults w) = None else f_commit (faults w) = None) /\
  f_cursor_close (faults w) = None.
Proof.
  explode_query w; intros; repeat split; try congruence;
    unfold acquires; simpl; do 2 eexists; repeat split; reflexivity.
Qed.

(** X5: a statement that fails is never committed.  When [cursor.execute]
    fails, in the driver or on the server, [execute_query] raises, issues
    no commit and leaves the committed data as they were. *)
Theorem failed_statement_is_not_committed q ps fo fa lr w :
  (f_execute (faults w) <> None \/
   exists e, server_execute q (params_or_empty ps) (committed w) = Raise e) ->
  count_event EvCommit (new_events w (snd (execute_query q ps fo fa lr w))) = O /\
  committed (snd (execute_query q ps fo fa lr w)) = committed w /\
  exists e, fst (execute_query q ps fo fa lr w) = Raise e.
Proof.
  explode_query w; intros [?|[? ?]]; leaf.
Qed.

(** X6: a failure of [cursor.close()] in the [finally] of [get_db_cursor]
    reaches the caller even though the write before it was committed: the
    call raises that error and the committed data are the new ones. *)
Theorem close_failure_after_commit q ps lr w db c e :
  acquires w ->
  f_cursor (faults w) = None ->
  f_execute (faults w) = None ->
  f_commit (faults w) = None ->
  f_cursor_close (faults w) = Some e ->
  server_execute q (params_or_empty ps) (committed w) = Ok (db, c) ->
  fst (execute_query q ps false false lr w) = Raise e /\
  committed (snd (execute_query q ps false false lr w)) = db.
Proof.
  explode_query w; intros; simplify_eq/=; try no_lease; by repeat split.
Qed.

(** Listing the clients of the fresh world returns, and no fault was planned. *)
Lemma returned_list_met_no_fault :
  fst (execute_query "SELECT * FROM clientes" None false true false fresh_world)
    = Ok (PList []) /\
  acquires fresh_world /\
  f_fetch (faults fresh_world) = None.
Proof.
  assert (H : fst (execute_query "SELECT * FROM clientes" None false true false
                     fresh_world) = Ok (PList [])) by reflexivity.
  split; [exact H|].
  destruct (returns_only_when_every_call_succeeded _ _ _ _ _ _ _ H)
    as (Ha & _ & _ & Hf & _).
  split; [exact Ha | exact Hf].
Defined.

(** The insert of Jane, refused by the server, commits nothing. *)
Lemma refused_statement_is_not_committed :
  count_event EvCommit
    (new_events refused_statement_world
       (snd (execute_query insert_cliente (Some jane_params) false false true
               refused_statement_world))) = O /\
  committed (snd (execute_query insert_cliente (Some jane_params) false false true
                    refused_statement_world)) = empty_store.
Proof.
  assert (H : f_execute (faults refused_statement_world) <> None) by discriminate.
  destruct (failed_statement_is_not_committed insert_cliente (Some jane_params)
              false false true refused_statement_world (or_introl H))
    as (Hc & Hk & _).
  split; [exact Hc | exact Hk].
Defined.

(** When only closing the cursor fails, the insert of Jane raises and Jane is stored. *)
Lemma insert_is_durable_though_the_call_raises :
  fst (execute_query insert_cliente (Some jane_params) false false true
         close_fails_world) = Raise (MySQLError CR_SERVER_LOST) /\
  committed (snd (execute_query insert_cliente (Some jane_params) false false true
                    close_fails_world)) = committed one_client_world.
Proof.
  apply (close_failure_after_commit insert_cliente (Some jane_params) true
           close_fails_world (committed one_client_world)
           {| c_rows := []; c_rowcount := 1; c_lastrowid := Some 1 |}
           (MySQLError CR_SERVER_LOST)); try reflexivity.
  exists default_pool, 2%nat. repeat split; reflexivity.
Defined.

(** * What every request does, under every fault *)

Lemma server_raises_mysql q ps db e :
  server_execute q ps db = Raise e -> exists errno, e = MySQLError errno.
Proof.
  unfold server_execute. destruct (parse_statement q) as [st|]; [|intros [= <-]; eauto].
  destruct st; simpl; repeat case_match; intros [= <-]; eauto.
Qed.

Lemma raise_is_not_http q ps fo fa lr w e :
  driver_faults (faults w) ->
  fst (execute_query q ps fo fa lr w) = Raise e -> is_http e = false.
Proof.
  unfold driver_faults.
  explode_query w; intros (? & ? & ? & ? & ? & ?) ?; simplify_eq/=; try done.
  all: match goal with
       | H : server_execute _ _ _ = Raise _ |- _ =>
           apply server_raises_mysql in H as [? ?]; discriminate
       end.
Qed.

Ltac pick_query w :=
  match goal with
  | |- context [execute_query ?q ?ps ?fo ?fa ?lr] => exists q, ps, fo, fa, lr
  end.

Ltac outcome_case w :=
  pick_query w;
  unfold except_Exception_500, try_except, bind, raise, ret;
  destruct (execute_query _ _ _ _ _ w) as [[v|e] w1]; simpl;
  try (destruct (truthy v); simpl); try (destruct (eq_zero v); simpl);
  (split; [reflexivity|]); (split; [done|]); (split; [done|]);
  (split;
   [ intros e' [= <-] He; try reflexivity; destruct e; simpl in He; done
   | intros v' ?; simplify_eq; simpl; tauto ]).

Lemma handler_outcome r w :
  passes_validation r = true ->
  exists q ps fo fa lr,
    snd (handler r w) = snd (execute_query q ps fo fa lr w) /\
    (is_read r = true -> orb fo fa = true) /\
    (is_read r = false -> orb fo fa = false) /\
    (forall e, fst (execute_query q ps fo fa lr w) = Raise e -> is_http e = false ->
       status (fst (serve r w)) = 500) /\
    (forall v, fst (execute_query q ps fo fa lr w) = Ok v ->
       status (fst (serve r w)) = success_status (route_of r) \/
       (In 404 (possible_status (route_of r)) /\ status (fst (serve r w)) = 404)).
Proof.
  intros Hv. rewrite serve_status.
  destruct r; simpl in Hv; cbn [handler route_of success_status possible_status is_read].
  - unfold get_empleados. outcome_case w.
  - unfold get_empleado. outcome_case w.
  - unfold create_empleado. outcome_case w.
  - unfold update_empleado. outcome_case w.
  - unfold delete_empleado. outcome_case w.
  - unfold get_clientes. outcome_case w.
  - unfold get_cliente. outcome_case w.
  - unfold create_cliente. apply negb_true_iff in Hv. rewrite Hv. outcome_case w.
  - unfold update_cliente. apply negb_true_iff in Hv. rewrite Hv. outcome_case w.
  - unfold delete_cliente. outcome_case w.
  - unfold get_proveedores. outcome_case w.
  - unfold get_proveedor. outcome_case w.
  - unfold create_proveedor. rewrite Hv. change (negb true) with false. cbv iota.
    outcome_case w.
  - unfold update_proveedor. rewrite Hv. change (negb true) with false. cbv iota.
    outcome_case w.
  - unfold delete_proveedor. outcome_case w.
Qed.

Lemma read_passes_validation r : is_read r = true -> passes_validation r = true.
Proof. by destruct r. Qed.

Lemma in_500 rt : In 500 (possible_status rt).
Proof. destruct rt; simpl; tauto. Qed.

Lemma in_success rt : In (success_status rt) (possible_status rt).
Proof. destruct rt; simpl; tauto. Qed.

(** X7: as long as the driver raises its own exceptions, every request is
    answered with a status of its route: the success status, 404 on the
    routes that look a record up, 400 on the routes that validate their
    body, and 500. *)
Theorem status_is_one_the_route_allows r w :
  driver_faults (faults w) ->
  In (status (fst (serve r w))) (possible_status (route_of r)).
Proof.
  intros Hf. destruct (passes_validation r) eqn:Hv.
  - destruct (handler_outcome r w Hv) as (q & ps & fo & fa & lr & _ & _ & _ & Hraise & Hok).
    destruct (fst (execute_query q ps fo fa lr w)) as [v|e] eqn:Hres.
    + destruct (Hok v eq_refl) as [->|[Hin ->]]; [apply in_success | exact Hin].
    + rewrite (Hraise e eq_refl); [apply in_500|].
      by eapply raise_is_not_http.
  - destruct (validation_refuses r w Hv) as [-> _].
    destruct r; simpl in Hv; try discriminate; simpl; tauto.
Qed.

(** X8: a list or get request never writes: whatever faults it meets, it
    issues no commit and the committed data are unchanged. *)
Theorem reads_never_write r w :
  is_read r = true ->
  committed (snd (serve r w)) = committed w /\
  count_event EvCommit (new_events w (snd (serve r w))) = O.
Proof.
  intros Hr. rewrite serve_world.
  destruct (handler_outcome r w (read_passes_validation r Hr))
    as (q & ps & fo & fa & lr & -> & Hsel & _).
  destruct (fetch_never_commits q ps fo fa lr w (Hsel Hr)) as [Hc Hs]. by split.
Qed.

Lemma commit_failure_keeps_data q ps fo fa lr w :
  f_commit (faults w) <> None ->
  committed (snd (execute_query q ps fo fa lr w)) = committed w.
Proof. explode_query w; intros; first [reflexivity | congruence]. Qed.

Lemma write_needs_commit q ps lr w :
  f_commit (faults w) <> None ->
  exists e, fst (execute_query q ps false false lr w) = Raise e.
Proof.
  explode_query w; intros; first [solve [eexists; reflexivity] | congruence].
Qed.

(** X9: a create, update or delete whose body passes validation and whose
    commit fails is answered 500, never with the success status of its
    route, and the committed data stay as they were (as long as the driver
    raises its own exceptions). *)
Theorem failed_commit_is_answered_500 r w :
  driver_faults (faults w) ->
  f_commit (faults w) <> None ->
  is_read r = false ->
  passes_validation r = true ->
  status (fst (serve r w)) = 500 /\
  committed (snd (serve r w)) = committed w.
Proof.
  intros Hd Hf Hr Hv. rewrite serve_world.
  destruct (handler_outcome r w Hv)
    as (q & ps & fo & fa & lr & -> & _ & Hwrite & Hraise & _).
  split; [|by apply commit_failure_keeps_data].
  apply orb_false_iff in Hwrite as [-> ->]; [|exact Hr].
  destruct (write_needs_commit q ps lr w Hf) as [e He].
  apply (Hraise e He). by eapply raise_is_not_http.
Qed.

Lemma one_statement_per_call q ps fo fa lr w :
  (length (executed_sql (new_events w (snd (execute_query q ps fo fa lr w)))) <= 1)%nat.
Proof. explode_query w; leaf. Qed.

(** X10: every handler sends at most one statement and leases at most one
    connection per request, under every fault. *)
Theorem at_most_one_statement_per_request r w :
  (length (executed_sql (new_events w (snd (serve r w)))) <= 1)%nat /\
  (count_event EvAcquire (new_events w (snd (serve r w))) <= 1)%nat.
Proof.
  rewrite serve_world. destruct (passes_validation r) eqn:Hv.
  - destruct (handler_outcome r w Hv) as (q & ps & fo & fa & lr & -> & _).
    split; [apply one_statement_per_call|].
    destruct (execute_query_balance q ps fo fa lr w) as (evs & Htr & Hle & _).
    by rewrite (new_events_app _ _ _ Htr).
  - rewrite <- serve_world. destruct (validation_refuses r w Hv) as [_ ->].
    unfold new_events. rewrite drop_all. cbn. lia.
Qed.

(** X11: when no connection can be leased, a request whose body passes
    validation is answered 500 by every route (also by the get, update and
    delete routes, which have no handler of their own for it), a request
    whose body fails validation is still answered 400, and the world is
    left as it was. *)
Theorem no_connection_no_service r w :
  ~ acquires w ->
  driver_faults (faults w) ->
  snd (serve r w) = w /\
  status (fst (serve r w)) = if passes_validation r then 500 else 400.
Proof.
  intros Hno Hf. destruct (passes_validation r) eqn:Hv.
  - rewrite serve_world.
    destruct (handler_outcome r w Hv) as (q & ps & fo & fa & lr & -> & _ & _ & Hraise & _).
    destruct (query_without_connection q ps fo fa lr w) as [_ Hnc].
    destruct (Hnc Hno) as [Hw [e He]]. split; [exact Hw|].
    apply (Hraise e He). by eapply raise_is_not_http.
  - by destruct (validation_refuses r w Hv) as [-> ->].
Qed.

Lemma serve_pool r w :
  (available (snd (serve r w)) <= available w)%nat /\
  (f_is_connected (faults w) = true -> available (snd (serve r w)) = available w) /\
  faults (snd (serve r w)) = faults w.
Proof.
  rewrite serve_world. destruct (passes_validation r) eqn:Hv.
  - destruct (handler_frame (route_of r)) as [q0 Hq0].
    destruct (Hq0 r eq_refl w) as (_ & Hfaults & _).
    destruct (handler_outcome r w Hv) as (q & ps & fo & fa & lr & Hw & _).
    rewrite Hw in *.
    destruct (execute_query_balance q ps fo fa lr w) as (evs & _ & _ & _ & Hbal).
    destruct (f_is_connected (faults w)).
    + destruct Hbal as [_ Heq]. repeat split; [lia|done|done].
    + destruct Hbal as [_ Heq]. repeat split; [lia|done|done].
  - rewrite <- serve_world. destruct (validation_refuses r w Hv) as [_ ->].
    by repeat split.
Qed.

(** X12: over any sequence of requests, under any faults, the number of
    free connections of the pool never grows beyond what it was; when the
    connection answers as connected after every request, it is the same
    at the end as at the start. *)
Theorem pool_never_grows_and_is_restored rs w :
  (available (snd (serve_all rs w)) <= available w)%nat /\
  (Forall (fun fr => f_is_connected (fst fr) = true) rs ->
   available (snd (serve_all rs w)) = available w).
Proof.
  revert w. induction rs as [|[f r] rs IH]; intros w; [by split|].
  simpl. destruct (serve_pool r (set_faults f w)) as (Hle & Heq & _).
  destruct (serve r (set_faults f w)) as [resp w1]. simpl in *.
  destruct (IH w1) as [IHle IHeq]. destruct (serve_all rs w1) as [resps w2]. simpl in *.
  change (available (set_faults f w)) with (available w) in *.
  split; [lia|].
  intros Hall. inversion Hall as [|? ? Hc Hrest]; subst. simpl in Hc.
  rewrite (IHeq Hrest). by apply Heq.
Qed.

Lemma driver_faults_lost_link : driver_faults lost_link.
Proof. repeat split; reflexivity. Qed.

Lemma driver_faults_none : driver_faults no_faults.
Proof. repeat split; reflexivity. Qed.

(** A create that loses its link is answered with a status of its route. *)
Lemma lost_link_status_is_allowed :
  In (status (fst (serve (POST_clientes jane) lost_link_world))) [201; 400; 500].
Proof.
  exact (status_is_one_the_route_allows (POST_clientes jane) lost_link_world
           driver_faults_lost_link).
Defined.

(** Listing the clients where commits are refused writes nothing. *)
Lemma list_in_commit_fails_world_writes_nothing :
  committed (snd (serve GET_clientes commit_fails_world)) = empty_store /\
  count_event EvCommit
    (new_events commit_fails_world (snd (serve GET_clientes commit_fails_world))) = O.
Proof.
  exact (reads_never_write GET_clientes commit_fails_world eq_refl).
Defined.

Lemma driver_faults_commit_fails : driver_faults commit_fails.
Proof. repeat split; reflexivity. Qed.

(** Where commits are refused, creating Jane is answered 500 and stores
    nothing. *)
Lemma refused_commit_answers_500 :
  status (fst (serve (POST_clientes jane) commit_fails_world)) = 500 /\
  committed (snd (serve (POST_clientes jane) commit_fails_world)) = empty_store.
Proof.
  assert (H : f_commit (faults commit_fails_world) <> None) by discriminate.
  exact (failed_commit_is_answered_500 (POST_clientes jane) commit_fails_world
           driver_faults_commit_fails H eq_refl eq_refl).
Defined.

Lemma exhausted_world_has_no_connection : ~ acquires exhausted_world.
Proof. intros (p & n & Hp & Hn & _). simpl in Hp. by simplify_eq/=. Qed.

(** With every connection leased, creating Jane is answered 500 and nothing changes. *)
Lemma exhausted_pool_answers_500 :
  snd (serve (POST_clientes jane) exhausted_world) = exhausted_world /\
  status (fst (serve (POST_clientes jane) exhausted_world)) = 500.
Proof.
  exact (no_connection_no_service (POST_clientes jane) exhausted_world
           exhausted_world_has_no_connection driver_faults_none).
Defined.

(** * What the routes answer from the rows of the store *)

Lemma rows_of_lookup db table tb : db !! table = Some tb -> rows_of db table = t_rows tb.
Proof. unfold rows_of. by intros ->. Qed.

Lemma matching_row_not_empty idcol v (row : Row) : matches idcol v row = true -> row <> [].
Proof. by destruct row. Qed.

Ltac table_of Hok name idcol :=
  let tb := fresh "tb" in
  let Htb := fresh "Htb" in
  let Hid := fresh "Hid" in
  let Hcols := fresh "Hcols" in
  let Hids := fresh "Hids" in
  destruct (Hok name idcol _ ltac:(simpl; tauto)) as (tb & Htb & Hid & Hcols & Hids);
  rewrite (rows_of_lookup _ _ _ Htb).

Ltac get_case w Hw Hok name idcol :=
  table_of Hok name idcol;
  match goal with
  | |- context [bind (execute_query ?q (Some ?ps) true false false)] =>
      match goal with
      | |- context [HTTPException 404 ?detail] =>
          match goal with
          | Htb : committed w !! name = Some ?tb |- _ =>
              assert (Hs : server_execute q (params_or_empty (Some ps)) (committed w)
                           = Ok (committed w,
                                 {| c_rows := filter (fun r => matches idcol (hd VNone ps) r = true)
                                                (t_rows tb);
                                    c_rowcount := -1; c_lastrowid := None |}))
                by (unfold server_execute; parse_sql;
                    apply (run_select_where _ _ _ _ tb); [exact Htb|];
                    unfold where_column;
                    match goal with Hid : t_id_column tb = _ |- _ => by rewrite Hid end);
              simpl hd in Hs;
              destruct (filter _ (t_rows tb)) as [|row rest] eqn:Hhits;
              [ rewrite (get_missing_flow q (Some ps) detail w _ Hw Hs eq_refl); reflexivity
              | rewrite (get_flow q (Some ps) detail w _ row rest Hw Hs eq_refl);
                [ reflexivity
                | apply (matching_row_not_empty idcol (hd VNone ps));
                  assert (Hin : row ∈ filter (fun r => matches idcol (hd VNone ps) r = true)
                                        (t_rows tb))
                    by (simpl hd; rewrite Hhits; left);
                  by apply list_elem_of_filter in Hin as [Hin _] ] ]
          end
      end
  end.

Lemma get_by_rows r w table idcol id :
  healthy w ->
  store_ok (committed w) ->
  lookup_target r = Some (table, idcol, id) ->
  match filter (fun row => matches idcol (VInt id) row = true)
          (rows_of (committed w) table) with
  | [] => status (fst (serve r w)) = 404
  | row :: _ => fst (serve r w) = {| status := 200; content := py_row row |}
  end.
Proof.
  intros Hw Hok Ht.
  destruct r; simpl in Ht; try discriminate; injection Ht as <- <- <-;
    rewrite serve_eq; cbn [handler route_of success_status fst].
  - unfold get_empleado. get_case w Hw Hok "empleados" "id".
  - unfold get_cliente. get_case w Hw Hok "clientes" "id_cliente".
  - unfold get_proveedor. get_case w Hw Hok "proveedores" "id_proveedor".
Qed.

(** X13: in a healthy world a get answers 404 when no row of its table
    has the identifier, and otherwise 200 with the first such row. *)
Theorem get_returns_the_first_matching_row r w table idcol id :
  healthy w ->
  store_ok (committed w) ->
  lookup_target r = Some (table, idcol, id) ->
  match filter (fun row => matches idcol (VInt id) row = true)
          (rows_of (committed w) table) with
  | [] => status (fst (serve r w)) = 404
  | row :: _ => fst (serve r w) = {| status := 200; content := py_row row |}
  end.
Proof. exact (get_by_rows r w table idcol id). Qed.

Lemma run_select_all t db tb :
  db !! t = Some tb ->
  run_statement (SelectAll t) [] db =
    Ok (db, {| c_rows := t_rows tb; c_rowcount := -1; c_lastrowid := None |}).
Proof. intros Ht. simpl. by rewrite Ht. Qed.

Ltac list_case w Hw Hok name idcol :=
  table_of Hok name idcol;
  match goal with
  | |- context [execute_query ?q None false true false] =>
      match goal with
      | Htb : committed w !! name = Some ?tb |- _ =>
          let H := fresh in
          destruct (execute_query_healthy q None false true false w (committed w)
                      {| c_rows := t_rows tb; c_rowcount := -1; c_lastrowid := None |} Hw)
            as (H & _);
          [ unfold server_execute; parse_sql; by apply run_select_all
          | unfold except_Exception_500, try_except;
            destruct (execute_query q None false true false w) as [res w1];
            simpl in H; subst res; reflexivity ]
      end
  end.

Lemma list_by_rows r w table :
  healthy w ->
  store_ok (committed w) ->
  listing r = Some table ->
  fst (serve r w) =
    {| status := 200; content := PList (map py_row (rows_of (committed w) table)) |}.
Proof.
  intros Hw Hok Ht.
  destruct r; simpl in Ht; try discriminate; injection Ht as <-;
    rewrite serve_eq; cbn [handler route_of success_status fst].
  - unfold get_empleados. list_case w Hw Hok "empleados" "id".
  - unfold get_clientes. list_case w Hw Hok "clientes" "id_cliente".
  - unfold get_proveedores. list_case w Hw Hok "proveedores" "id_proveedor".
Qed.

(** X14: in a healthy world a list request answers 200 with every row of
    its table, in the order of the table. *)
Theorem list_returns_every_row_in_order r w table :
  healthy w ->
  store_ok (committed w) ->
  listing r = Some table ->
  fst (serve r w) =
    {| status := 200; content := PList (map py_row (rows_of (committed w) table)) |}.
Proof. exact (list_by_rows r w table). Qed.

Lemma run_delete t c v db tb :
  db !! t = Some tb ->
  where_column tb c = true ->
  run_statement (DeleteWhere t c) [v] db =
    Ok (<[t := with_rows tb (filter (fun r => matches c v r = false) (t_rows tb))
                 (t_auto_increment tb)]> db,
        {| c_rows := [];
           c_rowcount := Z.of_nat (length (filter (fun r => matches c v r = true) (t_rows tb)));
           c_lastrowid := None |}).
Proof. intros Ht Hc. simpl. by rewrite Ht, Hc. Qed.

Lemma count_flow q ps detail (k : PyVal) w db c :
  healthy w ->
  server_execute q (params_or_empty ps) (committed w) = Ok (db, c) ->
  let m := (do affected_rows <- execute_query q ps false false false;
            if eq_zero affected_rows then raise (HTTPException 404 detail)
            else ret k) in
  fst (m w) = (if Z.eqb (c_rowcount c) 0 then Raise (HTTPException 404 detail) else Ok k) /\
  committed (snd (m w)) = db.
Proof.
  intros Hw Hs m.
  destruct (execute_query_healthy q ps false false false w _ c Hw Hs)
    as (Hres & _ & Hcom & _).
  unfold selected in Hres. simpl in Hres, Hcom.
  subst m. unfold bind.
  destruct (execute_query q ps false false false w) as [r w1]. simpl in *.
  subst r. simpl. by destruct (Z.eqb (c_rowcount c) 0).
Qed.

Lemma filter_false_none (idcol : string) (v : Value) (rows : list Row) :
  Forall (fun row => matches idcol v row = false)
    (filter (fun r => matches idcol v r = false) rows).
Proof. apply Forall_forall. by intros r [Hr _]%list_elem_of_filter. Qed.

Ltac delete_case w Hw Hok name idcol :=
  let tb := fresh "tb" in
  let Htb := fresh "Htb" in
  let Hid := fresh "Hid" in
  let Hcols := fresh "Hcols" in
  let Hids := fresh "Hids" in
  destruct (Hok name idcol _ ltac:(simpl; tauto)) as (tb & Htb & Hid & Hcols & Hids);
  rewrite !(rows_of_lookup _ _ _ Htb);
  match goal with
  | |- context [bind (execute_query ?q (Some ?ps) false false false) ?k] =>
      match goal with
      | |- context [HTTPException 404 ?detail] =>
          let H1 := fresh in
          let H2 := fresh in
          edestruct (count_flow q (Some ps) detail (PScalar VNone) w) as [H1 H2];
          [ exact Hw
          | unfold server_execute; parse_sql;
            apply (run_delete _ _ _ _ tb); [exact Htb|];
            unfold where_column; by rewrite Hid
          | rewrite H1, H2; cbn [c_rowcount];
            split;
            [ destruct (filter _ (t_rows tb)); reflexivity
            | split;
              [ unfold rows_of; by rewrite lookup_insert_eq
              | split;
                [ intros t Hne; by rewrite lookup_insert_ne
                | unfold no_row_with_id, rows_of; rewrite lookup_insert_eq;
                  apply filter_false_none ] ] ] ]
      end
  end.

Lemma delete_by_rows r w table idcol id :
  healthy w ->
  store_ok (committed w) ->
  is_delete r = true ->
  target r = Some (table, idcol, id) ->
  status (fst (serve r w)) =
    (match filter (fun row => matches idcol (VInt id) row = true)
             (rows_of (committed w) table) with
     | [] => 404
     | _ :: _ => 204
     end) /\
  rows_of (committed (snd (serve r w))) table =
    filter (fun row => matches idcol (VInt id) row = false) (rows_of (committed w) table) /\
  (forall t, t <> table -> committed (snd (serve r w)) !! t = committed w !! t) /\
  no_row_with_id (committed (snd (serve r w))) table idcol id.
Proof.
  intros Hw Hok Hd Ht.
  destruct r; simpl in Hd; try discriminate; simpl in Ht; injection Ht as <- <- <-;
    rewrite serve_status, !serve_world; cbn [handler route_of success_status].
  - unfold delete_empleado. delete_case w Hw Hok "empleados" "id".
  - unfold delete_cliente. delete_case w Hw Hok "clientes" "id_cliente".
  - unfold delete_proveedor. delete_case w Hw Hok "proveedores" "id_proveedor".
Qed.

(** X15: in a healthy world a delete removes exactly the rows of its table
    that have the identifier and keeps the others in order; it answers 204
    when there was such a row and 404 when there was none; the other tables
    are untouched, and afterwards no row has the identifier. *)
Theorem delete_removes_exactly_the_matching_rows r w table idcol id :
  healthy w ->
  store_ok (committed w) ->
  is_delete r = true ->
  target r = Some (table, idcol, id) ->
  status (fst (serve r w)) =
    (match filter (fun row => matches idcol (VInt id) row = true)
             (rows_of (committed w) table) with
     | [] => 404
     | _ :: _ => 204
     end) /\
  rows_of (committed (snd (serve r w))) table =
    filter (fun row => matches idcol (VInt id) row = false) (rows_of (committed w) table) /\
  (forall t, t <> table -> committed (snd (serve r w)) !! t = committed w !! t) /\
  no_row_with_id (committed (snd (serve r w))) table idcol id.
Proof. exact (delete_by_rows r w table idcol id). Qed.

Lemma run_update t cols c params db tb :
  db !! t = Some tb ->
  forallb (data_column tb) cols = true ->
  where_column tb c = true ->
  length params = S (length cols) ->
  run_statement (UpdateWhere t cols c) params db =
    Ok (<[t := with_rows tb
                 (map (fun r => if matches c (default VNone (last params)) r
                                then assign cols (take (length cols) params) r else r)
                    (t_rows tb))
                 (t_auto_increment tb)]> db,
        {| c_rows := [];
           c_rowcount :=
             Z.of_nat (length (filter
               (fun r => (if matches c (default VNone (last params)) r
                          then assign cols (take (length cols) params) r else r) <> r)
               (t_rows tb)));
           c_lastrowid := None |}).
Proof.
  intros Ht Hcols Hc Hlen. simpl. rewrite Ht, Hcols, Hc. simpl.
  by rewrite Hlen, Nat.eqb_refl.
Qed.

Ltac update_case w Hw Hok name idcol :=
  let tb := fresh "tb" in
  let Htb := fresh "Htb" in
  let Hid := fresh "Hid" in
  let Hcols := fresh "Hcols" in
  let Hids := fresh "Hids" in
  destruct (Hok name idcol _ ltac:(simpl; tauto)) as (tb & Htb & Hid & Hcols & Hids);
  rewrite !(rows_of_lookup _ _ _ Htb);
  match goal with
  | |- context [bind (execute_query ?q (Some ?ps) false false false)] =>
      match goal with
      | |- context [HTTPException 404 ?detail] =>
          match goal with
          | |- context [ret ?k] =>
              let H1 := fresh in
              let H2 := fresh in
              edestruct (count_flow q (Some ps) detail k w) as [H1 H2];
              [ exact Hw
              | unfold server_execute; parse_sql;
                apply (run_update _ _ _ _ _ tb);
                [ exact Htb | known_columns Hid Hcols | known_columns Hid Hcols
                | reflexivity ]
              | rewrite H1, H2; cbn [c_rowcount];
                split;
                [ unfold rows_of; by rewrite lookup_insert_eq
                | split;
                  [ intros t Hne; by rewrite lookup_insert_ne
                  | unfold rewritten; simpl;
                    destruct (filter _ (t_rows tb)); reflexivity ] ] ]
          end
      end
  end.

Lemma update_by_rows r w table idcol id cols vals :
  healthy w ->
  store_ok (committed w) ->
  target r = Some (table, idcol, id) ->
  assignment r = Some (cols, vals) ->
  passes_validation r = true ->
  rows_of (committed (snd (serve r w))) table =
    map (rewritten idcol id cols vals) (rows_of (committed w) table) /\
  (forall t, t <> table -> committed (snd (serve r w)) !! t = committed w !! t) /\
  match filter (fun row => rewritten idcol id cols vals row <> row)
          (rows_of (committed w) table) with
  | [] => status (fst (serve r w)) = 404
  | _ :: _ =>
      fst (serve r w) =
        {| status := 200;
           content := PDict (update_fields r ++ [(idcol, PScalar (VInt id))]) |}
  end.
Proof.
  intros Hw Hok Ht Ha Hv.
  destruct r; simpl in Ha; try discriminate; injection Ha as <- <-;
    simpl in Ht; injection Ht as <- <- <-; simpl in Hv;
    rewrite serve_eq;
    cbn [handler route_of success_status update_fields fst snd].
  - unfold update_empleado.
    update_case w Hw Hok "empleados" "id".
  - unfold update_cliente. apply negb_true_iff in Hv. rewrite Hv.
    update_case w Hw Hok "clientes" "id_cliente".
  - unfold update_proveedor. rewrite Hv. change (negb true) with false. cbv iota.
    update_case w Hw Hok "proveedores" "id_proveedor".
Qed.

(** X16: in a healthy world an update whose body passes validation assigns
    the submitted fields to the rows that have the identifier and leaves
    every other row and every other table as it was.  It answers 404 when
    no row changed (no row has the identifier, or the row already holds the
    submitted values) and otherwise 200 with the submitted fields and the
    identifier. *)
Theorem update_rewrites_the_matching_rows r w table idcol id cols vals :
  healthy w ->
  store_ok (committed w) ->
  target r = Some (table, idcol, id) ->
  assignment r = Some (cols, vals) ->
  passes_validation r = true ->
  rows_of (committed (snd (serve r w))) table =
    map (rewritten idcol id cols vals) (rows_of (committed w) table) /\
  (forall t, t <> table -> committed (snd (serve r w)) !! t = committed w !! t) /\
  match filter (fun row => rewritten idcol id cols vals row <> row)
          (rows_of (committed w) table) with
  | [] => status (fst (serve r w)) = 404
  | _ :: _ =>
      fst (serve r w) =
        {| status := 200;
           content := PDict (update_fields r ++ [(idcol, PScalar (VInt id))]) |}
  end.
Proof. exact (update_by_rows r w table idcol id cols vals). Qed.

Lemma dict_get_set_same {V} k (v : V) d : dict_get k (dict_set k v d) = Some v.
Proof.
  induction d as [|[k0 v0] d IH]; simpl.
  - by rewrite String.eqb_refl.
  - destruct (String.eqb k k0) eqn:E; simpl; rewrite E; [done | apply IH].
Qed.

Lemma dict_get_assign_in k v cols vals (row : Row) :
  NoDup cols ->
  In (k, v) (combine cols vals) ->
  dict_get k (assign cols vals row) = Some v.
Proof.
  unfold assign. revert vals row.
  induction cols as [|c cols IH]; intros vals row Hnd Hin; [done|].
  destruct vals as [|v0 vals]; [done|]. simpl in *.
  apply NoDup_cons in Hnd as [Hc Hnd].
  destruct Hin as [[= -> ->]|Hin].
  - change (fold_left _ (combine cols vals) ?r) with (assign cols vals r).
    rewrite dict_get_assign; [apply dict_get_set_same|].
    intros Hin. apply Hc. by apply list_elem_of_In.
  - by apply IH.
Qed.

Lemma matches_assign idcol v cols vals (row : Row) :
  ~ In idcol cols -> matches idcol v (assign cols vals row) = matches idcol v row.
Proof. intros H. unfold matches. by rewrite dict_get_assign. Qed.

Lemma matches_rewritten idcol id cols vals (row : Row) :
  ~ In idcol cols ->
  matches idcol (VInt id) (rewritten idcol id cols vals row)
  = matches idcol (VInt id) row.
Proof.
  intros Hnot. unfold rewritten.
  destruct (matches idcol (VInt id) row) eqn:Hm; [|done].
  by rewrite matches_assign.
Qed.

Lemma filter_rewritten idcol id cols vals (rows : list Row) :
  ~ In idcol cols ->
  filter (fun row => matches idcol (VInt id) row = true)
    (map (rewritten idcol id cols vals) rows)
  = map (assign cols vals)
      (filter (fun row => matches idcol (VInt id) row = true) rows).
Proof.
  intros Hnot. induction rows as [|row rows IH]; [done|].
  simpl. rewrite !filter_cons.
  pose proof (matches_rewritten idcol id cols vals row Hnot) as Hm.
  destruct (decide (matches idcol (VInt id) (rewritten idcol id cols vals row) = true))
    as [H1|H1], (decide (matches idcol (VInt id) row = true)) as [H2|H2];
    try congruence.
  simpl. rewrite IH. f_equal. unfold rewritten. by rewrite H2.
Qed.

Lemma query_keeps_store_ok q ps fo fa lr w :
  store_ok (committed w) -> store_ok (committed (snd (execute_query q ps fo fa lr w))).
Proof.
  explode_query w; intros; try done.
  all: by eapply server_execute_store_ok.
Qed.

Lemma serve_keeps_store_ok r w :
  store_ok (committed w) -> store_ok (committed (snd (serve r w))).
Proof.
  intros Hok. rewrite serve_world. destruct (passes_validation r) eqn:Hv.
  - destruct (handler_outcome r w Hv) as (q & ps & fo & fa & lr & -> & _).
    by apply query_keeps_store_ok.
  - rewrite <- serve_world. by destruct (validation_refuses r w Hv) as [_ ->].
Qed.

Lemma no_row_no_hit db table idcol id :
  no_row_with_id db table idcol id ->
  filter (fun row => matches idcol (VInt id) row = true) (rows_of db table) = [].
Proof.
  unfold no_row_with_id. intros H. apply filter_none.
  eapply Forall_impl; [exact H|]. simpl. by intros row ->.
Qed.

(** X17: a get of a record served after its delete answers 404. *)
Theorem delete_then_get_answers_404 r w w2 table idcol id :
  healthy w ->
  store_ok (committed w) ->
  is_delete r = true ->
  target r = Some (table, idcol, id) ->
  healthy w2 ->
  committed w2 = committed (snd (serve r w)) ->
  status (fst (serve (read_request r) w2)) = 404.
Proof.
  intros Hw Hok Hd Ht Hw2 Hc2.
  destruct (delete_by_rows r w table idcol id Hw Hok Hd Ht)
    as (_ & _ & _ & Hnone).
  assert (Hok2 : store_ok (committed w2)) by (rewrite Hc2; by apply serve_keeps_store_ok).
  assert (Hl : lookup_target (read_request r) = Some (table, idcol, id)).
  { destruct r; simpl in Hd; try discriminate; exact Ht. }
  pose proof (get_by_rows (read_request r) w2 table idcol id
                Hw2 Hok2 Hl) as Hget.
  rewrite Hc2, (no_row_no_hit _ _ _ _ Hnone) in Hget. exact Hget.
Qed.

Lemma assignment_columns r table idcol id cols vals :
  target r = Some (table, idcol, id) ->
  assignment r = Some (cols, vals) ->
  ~ In idcol cols /\ NoDup cols /\ length vals = length cols /\
  lookup_target (read_request r) = Some (table, idcol, id).
Proof.
  destruct r; simpl; try discriminate; intros Ht Ha;
    injection Ht as <- <- <-; injection Ha as <- <-;
    (split; [rewrite <- list_elem_of_In; by apply (bool_decide_unpack _)|]);
    (split; [by apply (bool_decide_unpack _)|]); by split.
Qed.

(** X18: a get served after an update of an existing record answers 200
    with the record after the assignment: every submitted field holds the
    submitted value and the identifier is the one the record had. *)
Theorem update_then_get_returns_the_new_values r w w2 table idcol id cols vals row rest :
  healthy w ->
  store_ok (committed w) ->
  target r = Some (table, idcol, id) ->
  assignment r = Some (cols, vals) ->
  passes_validation r = true ->
  filter (fun row => matches idcol (VInt id) row = true) (rows_of (committed w) table)
    = row :: rest ->
  healthy w2 ->
  committed w2 = committed (snd (serve r w)) ->
  fst (serve (read_request r) w2) =
    {| status := 200; content := py_row (assign cols vals row) |} /\
  (forall k v, In (k, v) (combine cols vals) ->
     dict_get k (assign cols vals row) = Some v) /\
  dict_get idcol (assign cols vals row) = dict_get idcol row.
Proof.
  intros Hw Hok Ht Ha Hv Hhit Hw2 Hc2.
  destruct (assignment_columns r table idcol id cols vals Ht Ha)
    as (Hnot & Hnd & Hlen & Hl).
  destruct (update_by_rows r w table idcol id cols vals
              Hw Hok Ht Ha Hv) as (Hrows & _ & _).
  assert (Hok2 : store_ok (committed w2)) by (rewrite Hc2; by apply serve_keeps_store_ok).
  pose proof (get_by_rows (read_request r) w2 table idcol id
                Hw2 Hok2 Hl) as Hget.
  rewrite Hc2, Hrows, filter_rewritten, Hhit in Hget by done. simpl in Hget.
  split; [exact Hget|]. split.
  - intros k v Hin. by apply dict_get_assign_in.
  - by apply dict_get_assign.
Qed.

(** Reading client 1 after Jane was created returns her row. *)
Lemma get_jane_witness :
  fst (serve (GET_cliente 1) one_client_world) =
    {| status := 200;
       content := py_row (hd [] (rows_of (committed one_client_world) "clientes")) |}.
Proof.
  exact (get_returns_the_first_matching_row (GET_cliente 1) one_client_world
           "clientes" "id_cliente" 1
           healthy_one_client_world store_ok_one_client_world eq_refl).
Defined.

(** Listing the clients after Jane was created returns the rows of the table. *)
Lemma list_one_client_witness :
  fst (serve GET_clientes one_client_world) =
    {| status := 200;
       content := PList (map py_row (rows_of (committed one_client_world) "clientes")) |}.
Proof.
  exact (list_returns_every_row_in_order GET_clientes one_client_world "clientes"
           healthy_one_client_world store_ok_one_client_world eq_refl).
Defined.

(** Deleting client 1 after Jane was created answers 204 and empties the table. *)
Lemma delete_jane_witness :
  status (fst (serve (DELETE_cliente 1) one_client_world)) = 204 /\
  rows_of (committed (snd (serve (DELETE_cliente 1) one_client_world))) "clientes" = [].
Proof.
  destruct (delete_removes_exactly_the_matching_rows (DELETE_cliente 1) one_client_world
              "clientes" "id_cliente" 1
              healthy_one_client_world store_ok_one_client_world eq_refl eq_refl)
    as (Hs & Hr & _).
  split; [exact Hs | exact Hr].
Defined.

(** Updating client 1 with the fields of Mallory answers 200 with those fields. *)
Lemma update_jane_witness :
  fst (serve (PUT_cliente 1 mallory) one_client_world) =
    {| status := 200;
       content := PDict (ClienteCreate.dict mallory ++ [("id_cliente", PScalar (VInt 1))]) |}.
Proof.
  destruct (update_rewrites_the_matching_rows (PUT_cliente 1 mallory) one_client_world
              "clientes" "id_cliente" 1 _ _
              healthy_one_client_world store_ok_one_client_world eq_refl eq_refl eq_refl)
    as (_ & _ & Hs).
  exact Hs.
Defined.

Lemma healthy_after_delete :
  healthy (snd (serve (DELETE_cliente 1) one_client_world)).
Proof. split; [reflexivity|]. by exists default_pool, 2%nat. Qed.

Lemma healthy_after_update :
  healthy (snd (serve (PUT_cliente 1 mallory) one_client_world)).
Proof. split; [reflexivity|]. by exists default_pool, 2%nat. Qed.

(** Jane, once deleted, is no longer found. *)
Lemma deleted_jane_is_gone :
  status (fst (serve (GET_cliente 1) (snd (serve (DELETE_cliente 1) one_client_world))))
    = 404.
Proof.
  exact (delete_then_get_answers_404 (DELETE_cliente 1) one_client_world
           (snd (serve (DELETE_cliente 1) one_client_world)) "clientes" "id_cliente" 1
           healthy_one_client_world store_ok_one_client_world eq_refl eq_refl
           healthy_after_delete eq_refl).
Defined.

(** Client 1, once updated, is read back with the submitted name. *)
Lemma updated_jane_reads_as_mallory :
  status (fst (serve (GET_cliente 1)
                 (snd (serve (PUT_cliente 1 mallory) one_client_world)))) = 200 /\
  dict_get "nombre_cliente"
    (assign ["numero_identificacion"; "nombre_cliente"; "telefono_cliente"; "email_cliente"]
       [VStr "B2"; VStr "x'); DROP TABLE clientes; --"; VStr "555-0199";
        VStr "m@example.org"]
       (hd [] (rows_of (committed one_client_world) "clientes")))
    = Some (VStr "x'); DROP TABLE clientes; --").
Proof.
  destruct (update_then_get_returns_the_new_values (PUT_cliente 1 mallory)
              one_client_world (snd (serve (PUT_cliente 1 mallory) one_client_world))
              "clientes" "id_cliente" 1 _ _
              (hd [] (rows_of (committed one_client_world) "clientes")) []
              healthy_one_client_world store_ok_one_client_world eq_refl eq_refl eq_refl
              eq_refl healthy_after_update eq_refl)
    as (Hres & Hfields & _).
  split; [exact (f_equal status Hres)|].
  apply Hfields. simpl. tauto.
Defined.

(** * Start-up and validation *)

(** What the server answers to the start-up check. *)
Lemma show_tables_answer db :
  server_execute "SHOW TABLES LIKE 'empleados'" [] db =
    Ok (db, {| c_rows := match db !! "empleados" with
                         | Some _ => [[(tables_label "empleados", VStr "empleados")]]
                         | None => []
                         end;
               c_rowcount := -1; c_lastrowid := None |}).
Proof. unfold server_execute. parse_sql. reflexivity. Qed.

(** X19: the start-up check never stops the application: whatever the
    driver and the server do, [startup_event] returns; it sends at most one
    statement, commits nothing, leaves the committed data as they were and,
    when the connection answers as connected, gives it back to the pool.
    In a healthy world the check runs to its end: the one statement sent is
    [SHOW TABLES LIKE 'empleados'] without parameters, one fetch follows
    it and no other driver call is made between leasing the connection and
    giving it back; what is fetched is true exactly when the table
    [empleados] exists, so either branch of the test can be taken. *)
Theorem startup_check_never_stops_the_application w :
  fst (startup_event w) = Ok tt /\
  committed (snd (startup_event w)) = committed w /\
  count_event EvCommit (new_events w (snd (startup_event w))) = O /\
  (length (executed_sql (new_events w (snd (startup_event w)))) <= 1)%nat /\
  (f_is_connected (faults w) = true ->
   available (snd (startup_event w)) = available w) /\
  (healthy w ->
   new_events w (snd (startup_event w)) =
     [EvAcquire; EvCursor; EvExecute "SHOW TABLES LIKE 'empleados'" [];
      EvFetchOne; EvCursorClose; EvRelease] /\
   exists empleados,
     fst (execute_query "SHOW TABLES LIKE 'empleados'" None true false false w)
       = Ok empleados /\
     (truthy empleados = true <-> is_Some (committed w !! "empleados"))).
Proof.
  unfold startup_event, try_except, bind, ret.
  pose proof (fetch_never_commits "SHOW TABLES LIKE 'empleados'" None true false false w
                eq_refl) as [Hc Hk].
  pose proof (one_statement_per_call "SHOW TABLES LIKE 'empleados'" None true false false w)
    as Hone.
  destruct (execute_query_balance "SHOW TABLES LIKE 'empleados'" None true false false w)
    as (evs & _ & _ & _ & Hbal).
  assert (Hrun : healthy w ->
    new_events w (snd (execute_query "SHOW TABLES LIKE 'empleados'" None true false
                         false w)) =
      [EvAcquire; EvCursor; EvExecute "SHOW TABLES LIKE 'empleados'" [];
       EvFetchOne; EvCursorClose; EvRelease] /\
    exists empleados,
      fst (execute_query "SHOW TABLES LIKE 'empleados'" None true false false w)
        = Ok empleados /\
      (truthy empleados = true <-> is_Some (committed w !! "empleados"))).
  { intros Hw.
    destruct (execute_query_healthy "SHOW TABLES LIKE 'empleados'" None true false false
                w _ _ Hw (show_tables_answer (committed w))) as (Hres & Hev & _).
    split; [exact Hev|]. eexists. split; [exact Hres|].
    unfold selected. simpl.
    destruct (committed w !! "empleados"); simpl; split;
      first [done | by intros [? ?] | by eexists]. }
  destruct (execute_query _ _ _ _ _ w) as [[v|e] w1]; simpl in *.
  - destruct (negb (truthy v)); simpl;
      do 4 (split; [done|]);
      (split; [intros Hcon; rewrite Hcon in Hbal; tauto | exact Hrun]).
  - do 4 (split; [done|]).
    split; [intros Hcon; rewrite Hcon in Hbal; tauto | exact Hrun].
Qed.

(** In the fresh world the check finds the table and ends after its one
    fetch. *)
Lemma startup_on_the_fresh_world :
  fst (startup_event fresh_world) = Ok tt /\
  new_events fresh_world (snd (startup_event fresh_world)) =
    [EvAcquire; EvCursor; EvExecute "SHOW TABLES LIKE 'empleados'" [];
     EvFetchOne; EvCursorClose; EvRelease].
Proof.
  destruct (startup_check_never_stops_the_application fresh_world)
    as (Hret & _ & _ & _ & _ & Hrun).
  split; [exact Hret | exact (proj1 (Hrun healthy_fresh_world))].
Defined.

(** X20: when [DB_PORT] or [DB_POOL_SIZE] is set to a text [int] refuses,
    importing [database] raises [ValueError] before any pool is requested. *)
Theorem unparseable_number_stops_the_import pool_ctor py_int env name v calls :
  name = "DB_PORT" \/ name = "DB_POOL_SIZE" ->
  env !! name = Some v ->
  py_int v = None ->
  import_database pool_ctor py_int env calls = (Raise ValueError, calls).
Proof.
  intros Hname Henv Hint. unfold import_database, DBConfig_init, getenv_int, raise.
  destruct Hname as [-> | ->]; rewrite Henv, Hint; [reflexivity|].
  destruct (env !! "DB_PORT") as [v0|]; [destruct (py_int v0)|]; reflexivity.
Qed.

(** A port that is not a number stops the import before the pool. *)
Lemma unparseable_number_witness :
  import_database limit_then_accept int_of_decimal bad_port_env [] = (Raise ValueError, []).
Proof.
  apply (unparseable_number_stops_the_import limit_then_accept int_of_decimal
           bad_port_env "DB_PORT" "tres mil" []);
    [by left | reflexivity | reflexivity].
Defined.

(** X21: creating the pool requests the pool [fastapi_pool] of the
    configured size first and makes at most one further request, and only
    after the connection-limit error.  When a pool results it is the one
    requested last, and that request was accepted.  A driver error never
    leaves the module as such: it is turned into a [RuntimeError]. *)
Theorem pool_creation_outcome pool_ctor cfg calls :
  exists new,
    snd (create_connection_pool pool_ctor cfg calls) = calls ++ first_call cfg :: new /\
    (length new <= 1)%nat /\
    (new <> [] ->
     pool_ctor "fastapi_pool" (pool_size cfg) (connection_params cfg)
       = Some (MySQLError ER_USER_LIMIT_REACHED)) /\
    (forall p, fst (create_connection_pool pool_ctor cfg calls) = Ok p ->
       exists c, last (first_call cfg :: new) = Some c /\
         p_name p = call_name c /\ p_size p = call_size c /\
         pool_ctor (call_name c) (call_size c) (call_params c) = None) /\
    (forall errno, fst (create_connection_pool pool_ctor cfg calls)
                   <> Raise (MySQLError errno)).
Proof.
  unfold create_connection_pool, try_except, MySQLConnectionPool, raise, first_call.
  destruct (pool_ctor "fastapi_pool" _ _) as [[errno| | | |]|] eqn:H1; simpl.
  2-6: exists []; repeat split; simpl; try lia; try done;
       intros p [= <-]; eexists; repeat split; done.
  destruct (Z.eqb errno ER_USER_LIMIT_REACHED) eqn:He; simpl.
  2: exists []; repeat split; simpl; try lia; done.
  apply Z.eqb_eq in He as ->.
  destruct (pool_ctor "fastapi_pool_reduced" _ _) as [[| | | |]|] eqn:H2; simpl;
    eexists [_]; rewrite <- app_assoc; (split; [reflexivity|]);
    repeat split; simpl; try lia; try done.
  intros p [= <-]. eexists; repeat split; done.
Qed.

(** X22: with a configured pool size of at most 2, the retry after the
    connection-limit error asks for [pool_size - 2] connections, which is
    zero or negative. *)
Theorem small_pool_retries_with_no_connections pool_ctor cfg :
  pool_size cfg <= 2 ->
  pool_ctor "fastapi_pool" (pool_size cfg) (connection_params cfg)
    = Some (MySQLError ER_USER_LIMIT_REACHED) ->
  map call_size (snd (create_connection_pool pool_ctor cfg []))
    = [pool_size cfg; pool_size cfg - 2] /\
  pool_size cfg - 2 <= 0.
Proof.
  intros Hsize Hfirst. split; [|lia].
  unfold create_connection_pool, try_except, MySQLConnectionPool, raise.
  rewrite Hfirst. simpl. rewrite Z.min_r by lia.
  destruct (pool_ctor "fastapi_pool_reduced" _ _) as [[| | | |]|]; reflexivity.
Qed.

(** A pool of two connections is retried with none. *)
Lemma small_pool_witness :
  map call_size (snd (create_connection_pool limit_then_accept two_connections []))
    = [2; 0].
Proof.
  assert (H1 : pool_size two_connections <= 2) by (simpl; lia).
  exact (proj1 (small_pool_retries_with_no_connections limit_then_accept two_connections
                  H1 eq_refl)).
Defined.

(** X23: as long as the driver raises its own exceptions, a request is
    answered 400 exactly when its body fails the required-field check of
    its handler, and then the world is left as it was: no connection is
    leased and no statement is sent. *)
Theorem bad_request_exactly_when_validation_fails r w :
  driver_faults (faults w) ->
  (status (fst (serve r w)) = 400 <-> passes_validation r = false) /\
  (passes_validation r = false -> snd (serve r w) = w).
Proof.
  intros Hf. split; [|intros Hv; by destruct (validation_refuses r w Hv)].
  split; [|intros Hv; by destruct (validation_refuses r w Hv)].
  intros H400. destruct (passes_validation r) eqn:Hv; [|done]. exfalso.
  destruct (handler_outcome r w Hv) as (q & ps & fo & fa & lr & _ & _ & _ & Hraise & Hok).
  destruct (fst (execute_query q ps fo fa lr w)) as [v|e] eqn:Hres.
  - destruct (Hok v eq_refl) as [Hs|[_ Hs]]; rewrite Hs in H400; [|discriminate].
    by destruct r.
  - rewrite (Hraise e eq_refl) in H400; [discriminate|]. by eapply raise_is_not_http.
Qed.

(** A client without a name is answered 400 in the fresh world, which stays as it was. *)
Lemma nameless_client_is_refused :
  status (fst (serve (POST_clientes nameless_cliente) fresh_world)) = 400 /\
  snd (serve (POST_clientes nameless_cliente) fresh_world) = fresh_world.
Proof.
  destruct (bad_request_exactly_when_validation_fails (POST_clientes nameless_cliente)
              fresh_world driver_faults_none) as [[_ H400] Hw].
  split; [exact (H400 eq_refl) | exact (Hw eq_refl)].
Defined.

(** * Creating records *)

Ltac create_case w Hw Hok name idcol :=
  let tb := fresh "tb" in
  let Htb := fresh "Htb" in
  let Hid := fresh "Hid" in
  let Hcols := fresh "Hcols" in
  let Hids := fresh "Hids" in
  destruct (Hok name idcol _ ltac:(simpl; tauto)) as (tb & Htb & Hid & Hcols & Hids);
  rewrite !(rows_of_lookup _ _ _ Htb);
  match goal with
  | |- context [execute_query ?q (Some ?ps) false false true] =>
      match goal with
      | |- context [ret (PDict (dict_set ?idf _ ?fields))] =>
          let H1 := fresh in
          let H2 := fresh in
          let H3 := fresh in
          edestruct (create_flow q (Some ps) idf fields w) as (H1 & H2 & H3);
          [ exact Hw
          | unfold server_execute; parse_sql;
            apply (run_insert _ _ _ _ tb);
            [ exact Htb | known_columns Hid Hcols | reflexivity ]
          | exists (t_auto_increment tb), (new_row tb (t_columns tb) ps);
            rewrite H1, H2; rewrite Hcols in *;
            split; [reflexivity|];
            split; [unfold rows_of; by rewrite lookup_insert_eq|];
            split; [intros t Hne; by rewrite lookup_insert_ne|];
            split; [unfold new_row; rewrite Hid; reflexivity|];
            split; [rewrite <- Hid; by apply ids_below_next_unused|];
            exact H3 ]
      end
  end.

Lemma create_by_rows r w table idcol fields :
  healthy w ->
  store_ok (committed w) ->
  insert_target r = Some (table, idcol) ->
  submitted r = Some fields ->
  passes_validation r = true ->
  exists id row,
    fst (serve r w) =
      {| status := 201; content := PDict (fields ++ [(idcol, PScalar (VInt id))]) |} /\
    rows_of (committed (snd (serve r w))) table = rows_of (committed w) table ++ [row] /\
    (forall t, t <> table -> committed (snd (serve r w)) !! t = committed w !! t) /\
    dict_get idcol row = Some (VInt id) /\
    no_row_with_id (committed w) table idcol id /\
    healthy (snd (serve r w)).
Proof.
  intros Hw Hok Ht Hsub Hv.
  destruct r; simpl in Ht; try discriminate; injection Ht as <- <-;
    simpl in Hsub; injection Hsub as <-; simpl in Hv;
    rewrite serve_eq; cbn [handler route_of success_status fst snd];
    unfold no_row_with_id.
  - unfold create_empleado. create_case w Hw Hok "empleados" "id".
  - unfold create_cliente. apply negb_true_iff in Hv. rewrite Hv.
    create_case w Hw Hok "clientes" "id_cliente".
  - unfold create_proveedor. rewrite Hv. change (negb true) with false. cbv iota.
    create_case w Hw Hok "proveedores" "id_proveedor".
Qed.

(** X24: in a healthy world a create whose body passes validation answers
    201 with the submitted fields and an identifier, appends exactly one row
    carrying that identifier to its table and leaves the earlier rows and
    the other tables as they were; no earlier row of the table had the
    identifier, and the world stays healthy. *)
Theorem create_appends_one_row r w table idcol fields :
  healthy w ->
  store_ok (committed w) ->
  insert_target r = Some (table, idcol) ->
  submitted r = Some fields ->
  passes_validation r = true ->
  exists id row,
    fst (serve r w) =
      {| status := 201; content := PDict (fields ++ [(idcol, PScalar (VInt id))]) |} /\
    rows_of (committed (snd (serve r w))) table = rows_of (committed w) table ++ [row] /\
    (forall t, t <> table -> committed (snd (serve r w)) !! t = committed w !! t) /\
    dict_get idcol row = Some (VInt id) /\
    no_row_with_id (committed w) table idcol id /\
    healthy (snd (serve r w)).
Proof. exact (create_by_rows r w table idcol fields). Qed.

Lemma matches_of_id idcol id (row : Row) :
  dict_get idcol row = Some (VInt id) -> matches idcol (VInt id) row = true.
Proof.
  unfold matches. intros ->. simpl. by apply bool_decide_eq_true.
Qed.

Lemma filter_fresh_row idcol id (rows : list Row) (row : Row) :
  Forall (fun r => matches idcol (VInt id) r = false) rows ->
  dict_get idcol row = Some (VInt id) ->
  filter (fun r => matches idcol (VInt id) r = true) (rows ++ [row]) = [row].
Proof.
  intros Hnone Hrow. rewrite filter_app, filter_none.
  - rewrite filter_cons, decide_True; [done | by apply matches_of_id].
  - eapply Forall_impl; [exact Hnone|]. simpl. by intros r ->.
Qed.

Lemma create_requests r table idcol id :
  insert_target r = Some (table, idcol) ->
  listing (list_request r) = Some table /\
  lookup_target (get_by_id r id) = Some (table, idcol, id).
Proof. destruct r; simpl; try discriminate; by intros [= <- <-]. Qed.

(** X25: a list served after a create returns the records listed before it,
    in the same order, followed by the created record as a get returns
    it. *)
Theorem create_then_list_shows_the_new_record_last r w w2 table idcol fields :
  healthy w ->
  store_ok (committed w) ->
  insert_target r = Some (table, idcol) ->
  submitted r = Some fields ->
  passes_validation r = true ->
  healthy w2 ->
  committed w2 = committed (snd (serve r w)) ->
  exists id before,
    content (fst (serve r w)) = PDict (fields ++ [(idcol, PScalar (VInt id))]) /\
    content (fst (serve (list_request r) w)) = PList before /\
    status (fst (serve (get_by_id r id) w2)) = 200 /\
    fst (serve (list_request r) w2) =
      {| status := 200;
         content := PList (before ++ [content (fst (serve (get_by_id r id) w2))]) |}.
Proof.
  intros Hw Hok Ht Hsub Hv Hw2 Hc2.
  destruct (create_by_rows r w table idcol fields Hw Hok Ht Hsub Hv)
    as (id & row & Hres & Hrows & _ & Hid & Hnone & _).
  destruct (create_requests r table idcol id Ht) as [Hlist Hget].
  assert (Hok2 : store_ok (committed w2)) by (rewrite Hc2; by apply serve_keeps_store_ok).
  exists id, (map py_row (rows_of (committed w) table)).
  pose proof (get_by_rows _ w2 table idcol id Hw2 Hok2 Hget) as Hg.
  rewrite Hc2, Hrows, (filter_fresh_row _ _ _ _ Hnone Hid) in Hg.
  rewrite Hres, Hg,
    (list_by_rows _ w table Hw Hok Hlist),
    (list_by_rows _ w2 table Hw2 Hok2 Hlist), Hc2, Hrows.
  simpl. by rewrite map_app.
Qed.

(** X26: two creates on the same table, served one after the other, are
    answered with different identifiers. *)
Theorem successive_creates_get_different_identifiers r1 r2 w table idcol fields1 fields2 :
  healthy w ->
  store_ok (committed w) ->
  insert_target r1 = Some (table, idcol) ->
  insert_target r2 = Some (table, idcol) ->
  submitted r1 = Some fields1 ->
  submitted r2 = Some fields2 ->
  passes_validation r1 = true ->
  passes_validation r2 = true ->
  exists id1 id2,
    id1 <> id2 /\
    content (fst (serve r1 w)) = PDict (fields1 ++ [(idcol, PScalar (VInt id1))]) /\
    content (fst (serve r2 (snd (serve r1 w))))
      = PDict (fields2 ++ [(idcol, PScalar (VInt id2))]).
Proof.
  intros Hw Hok Ht1 Ht2 Hs1 Hs2 Hv1 Hv2.
  destruct (create_by_rows r1 w table idcol fields1 Hw Hok Ht1 Hs1 Hv1)
    as (id1 & row1 & Hres1 & Hrows1 & _ & Hid1 & _ & Hw1).
  pose proof (serve_keeps_store_ok r1 w Hok) as Hok1.
  destruct (create_by_rows r2 _ table idcol fields2 Hw1 Hok1 Ht2 Hs2 Hv2)
    as (id2 & row2 & Hres2 & _ & _ & _ & Hnone2 & _).
  exists id1, id2. rewrite Hres1, Hres2. split; [|by split].
  intros <-. unfold no_row_with_id in Hnone2. rewrite Hrows1 in Hnone2.
  pose proof (matches_of_id _ _ _ Hid1) as Hhit.
  rewrite Forall_forall in Hnone2.
  assert (Hin : row1 ∈ rows_of (committed w) table ++ [row1]) by set_solver.
  specialize (Hnone2 row1 Hin). simpl in Hnone2. congruence.
Qed.

(** Creating Jane in the fresh world leaves one row in the table of clients. *)
Lemma create_jane_witness :
  exists id row,
    fst (serve (POST_clientes jane) fresh_world) =
      {| status := 201;
         content := PDict (ClienteCreate.dict jane ++ [("id_cliente", PScalar (VInt id))]) |} /\
    rows_of (committed (snd (serve (POST_clientes jane) fresh_world))) "clientes" = [row].
Proof.
  destruct (create_appends_one_row (POST_clientes jane) fresh_world
              "clientes" "id_cliente" (ClienteCreate.dict jane)
              healthy_fresh_world store_ok_empty eq_refl eq_refl eq_refl)
    as (id & row & Hres & Hrows & _).
  exists id, row. split; [exact Hres | exact Hrows].
Defined.

(** The list of clients after Jane was created holds her record only. *)
Lemma list_after_jane_witness :
  exists id,
    content (fst (serve GET_clientes fresh_world)) = PList [] /\
    fst (serve GET_clientes one_client_world) =
      {| status := 200;
         content := PList [content (fst (serve (GET_cliente id) one_client_world))] |}.
Proof.
  destruct (create_then_list_shows_the_new_record_last (POST_clientes jane) fresh_world
              one_client_world "clientes" "id_cliente" (ClienteCreate.dict jane)
              healthy_fresh_world store_ok_empty eq_refl eq_refl eq_refl
              healthy_one_client_world eq_refl)
    as (id & before & _ & Hbefore & _ & Hafter).
  exists id. split; [reflexivity|].
  assert (before = []) as -> by (vm_compute in Hbefore; congruence).
  exact Hafter.
Defined.

(** Jane and Mallory, created one after the other, get different identifiers. *)
Lemma jane_and_mallory_get_different_identifiers :
  exists id1 id2,
    id1 <> id2 /\
    content (fst (serve (POST_clientes jane) fresh_world))
      = PDict (ClienteCreate.dict jane ++ [("id_cliente", PScalar (VInt id1))]) /\
    content (fst (serve (POST_clientes mallory) one_client_world))
      = PDict (ClienteCreate.dict mallory ++ [("id_cliente", PScalar (VInt id2))]).
Proof.
  exact (successive_creates_get_different_identifiers (POST_clientes jane)
           (POST_clientes mallory) fresh_world "clientes" "id_cliente"
           (ClienteCreate.dict jane) (ClienteCreate.dict mallory)
           healthy_fresh_world store_ok_empty eq_refl eq_refl eq_refl eq_refl
           eq_refl eq_refl).
Defined.
